(** * LSP Asset Mover: the wallet, indexer and transfer logic of [src/app/page.tsx]

    A shallow embedding of the second (current) [Home] component of
    [src/app/page.tsx] and of the helpers above it.  React state is a record
    of the [useState] cells; an event handler is a function from that record
    (and from the outside world it talks to) to the new record and the trace
    of requests it issued.  A functional update
    [setX(prev => f(prev))] is the application of [f] to the cell.

    JavaScript strings are modelled as [string] (sequences of 8-bit
    characters), [bigint] as [Z], the small counting [number]s of the indexer
    client as [nat] with [None] for [NaN]. *)

From Stdlib Require Import ZArith List String Ascii Bool Arith Lia.
From Stdlib Require Import DecimalString DecimalNat Permutation.
Import ListNotations.

Local Open Scope string_scope.
Local Open Scope list_scope.
Local Open Scope nat_scope.

(* ===================================================================== *)
(** ** JavaScript values used by the page                                 *)
(* ===================================================================== *)

(** What a rejected promise or a [throw] carries, seen through the casts of
    the page: [error as { shortMessage?: string; message?: string }] and
    [switchError as { code?: number }]. *)
Record JsError := mkError {
  code : option Z;
  shortMessage : option string;
  message : option string
}.

(** [new Error(msg)] *)
Definition newError (msg : string) : JsError :=
  {| code := None; shortMessage := None; message := Some msg |}.

(** [error.code === c] *)
Definition codeIs (c : Z) (error : JsError) : bool :=
  match code error with
  | Some n => Z.eqb n c
  | None => false
  end.

(** The outcome of an expression that may throw, or of an awaited promise. *)
Inductive Result (A : Type) : Type :=
| Ok (a : A)
| Throw (e : JsError).
Arguments Ok {A} a.
Arguments Throw {A} e.

(** Truthiness of an optional string: [undefined], [null] and [''] are falsy. *)
Definition truthy (o : option string) : bool :=
  match o with
  | Some s => negb (String.eqb s "")
  | None => false
  end.

(** [a || d] for an optional string [a] and a string [d]. *)
Definition orElse (a : option string) (d : string) : string :=
  match a with
  | Some s => if String.eqb s "" then d else s
  | None => d
  end.

(** [a || b] for two optional strings. *)
Definition orOpt (a b : option string) : option string :=
  if truthy a then a else b.

(* --------------------------------------------------------------------- *)
(** *** Strings                                                           *)
(* --------------------------------------------------------------------- *)

Definition isUpper (c : ascii) : bool :=
  let n := nat_of_ascii c in (65 <=? n) && (n <=? 90).

Definition lowerChar (c : ascii) : ascii :=
  if isUpper c then ascii_of_nat (nat_of_ascii c + 32) else c.

(** [s.toLowerCase()] on strings of ASCII characters: the letters A to Z
    are lowered, every other character is kept.  (Addresses, rdns strings
    and wallet names in ASCII are what the page lowers; a character outside
    ASCII, which JavaScript may lower too, is kept as it is here.) *)
Fixpoint toLowerCase (s : string) : string :=
  match s with
  | EmptyString => EmptyString
  | String c r => String (lowerChar c) (toLowerCase r)
  end.

(** [s.startsWith(f)] *)
Fixpoint startsWith (s f : string) {struct f} : bool :=
  match f, s with
  | EmptyString, _ => true
  | String _ _, EmptyString => false
  | String d f', String c s' => Ascii.eqb c d && startsWith s' f'
  end.

(** [s.includes(f)]: [f] occurs somewhere in [s]. *)
Fixpoint includes (s f : string) : bool :=
  startsWith s f ||
  match s with
  | EmptyString => false
  | String _ s' => includes s' f
  end.

(** [s.indexOf(c)] for a one-character needle, counted from [i];
    [-1] when the character does not occur. *)
Fixpoint indexOfFrom (c : ascii) (s : string) (i : Z) : Z :=
  match s with
  | EmptyString => (-1)%Z
  | String x r => if Ascii.eqb x c then i else indexOfFrom c r (i + 1)%Z
  end.

Definition indexOf (s : string) (c : ascii) : Z := indexOfFrom c s 0%Z.

Fixpoint dropChars (n : nat) (s : string) : string :=
  match n, s with
  | O, _ => s
  | S _, EmptyString => EmptyString
  | S k, String _ r => dropChars k r
  end.

(** [s.slice(k)] for [0 <= k]. *)
Definition slice (s : string) (k : Z) : string := dropChars (Z.to_nat k) s.

(* --------------------------------------------------------------------- *)
(** *** Numbers                                                           *)
(* --------------------------------------------------------------------- *)

Definition digitOf (c : ascii) : option nat :=
  let n := nat_of_ascii c in
  if (48 <=? n) && (n <=? 57) then Some (n - 48) else None.

Fixpoint parseDigits (s : string) (acc : nat) : nat :=
  match s with
  | EmptyString => acc
  | String c r =>
      match digitOf c with
      | Some d => parseDigits r (10 * acc + d)
      | None => acc
      end
  end.

(** [parseInt(s)] on a string that starts with a decimal digit: the value of
    the longest run of digits; [NaN] ([None]) when the first character is
    not a digit.  (Signs, leading blanks and radix prefixes do not occur in
    the strings this page passes to [parseInt].) *)
Definition parseInt (s : string) : option nat :=
  match s with
  | EmptyString => None
  | String c r =>
      match digitOf c with
      | Some d => Some (parseDigits r d)
      | None => None
      end
  end.

(** [String(n)] for a non-negative integer or [NaN]. *)
Definition String_ (n : option nat) : string :=
  match n with
  | Some k => NilEmpty.string_of_uint (Nat.to_uint k)
  | None => "NaN"
  end.

(** [x + 1] on such a number: [NaN + 1] is [NaN]. *)
Definition plus1 (n : option nat) : option nat := option_map S n.

(* ===================================================================== *)
(** ** Types and constants of the page                                    *)
(* ===================================================================== *)

(** An injected EIP-1193 provider object, identified by a handle. *)
Definition EthereumProvider := nat.

Record EIP6963ProviderInfo := {
  uuid : string;
  info_name : string;
  icon : string;
  rdns : string
}.

Record EIP6963ProviderDetail := {
  info : EIP6963ProviderInfo;
  provider : EthereumProvider
}.

Inductive TokenType := LSP7 | LSP8.

Record TokenAsset := {
  address : string;
  name : string;
  symbol : string;
  type : TokenType;
  balance : string;
  decimals : Z;
  selected : bool;
  iconUrl : option string;
  tokenIds : option (list string);
  transferAmount : string
}.

Inductive Status := Pending | Transferring | Success | Error.

Record TransferStatus := {
  ts_address : string;
  ts_status : Status;
  ts_txHash : option string;
  ts_error : option string
}.

Record NativeCurrency := {
  currency_name : string;
  currency_symbol : string;
  currency_decimals : Z
}.

Record ChainParams := {
  chainId : string;
  chainName : string;
  nativeCurrency : NativeCurrency;
  rpcUrls : list string;
  blockExplorerUrls : list string
}.

Definition LUKSO_CHAIN_PARAMS : ChainParams := {|
  chainId := "0x2a";
  chainName := "LUKSO Mainnet";
  nativeCurrency := {|
    currency_name := "LUKSO";
    currency_symbol := "LYX";
    currency_decimals := 18
  |};
  rpcUrls := ["https://rpc.mainnet.lukso.network"];
  blockExplorerUrls := ["https://explorer.execution.mainnet.lukso.network"]
|}.

Record AbiInput := { input_name : string; input_type : string }.

Record AbiFunction := {
  abi_name : string;
  abi_type : string;
  stateMutability : string;
  inputs : list AbiInput
}.

(** LSP7 transfer(address from, address to, uint256 amount, bool force, bytes data) *)
Definition LSP7_TRANSFER_ABI : AbiFunction := {|
  abi_name := "transfer";
  abi_type := "function";
  stateMutability := "nonpayable";
  inputs := [ {| input_name := "from"; input_type := "address" |};
              {| input_name := "to"; input_type := "address" |};
              {| input_name := "amount"; input_type := "uint256" |};
              {| input_name := "force"; input_type := "bool" |};
              {| input_name := "data"; input_type := "bytes" |} ]
|}.

(** LSP8 transfer(address from, address to, bytes32 tokenId, bool force, bytes data) *)
Definition LSP8_TRANSFER_ABI : AbiFunction := {|
  abi_name := "transfer";
  abi_type := "function";
  stateMutability := "nonpayable";
  inputs := [ {| input_name := "from"; input_type := "address" |};
              {| input_name := "to"; input_type := "address" |};
              {| input_name := "tokenId"; input_type := "bytes32" |};
              {| input_name := "force"; input_type := "bool" |};
              {| input_name := "data"; input_type := "bytes" |} ]
|}.

(** An argument of a contract call. *)
Inductive AbiValue :=
| VAddress (a : string)
| VUint (n : Z)
| VBytes32 (h : string)
| VBool (b : bool)
| VBytes (h : string).

(** The calldata viem's [encodeFunctionData] returns, kept symbolic: the
    byte string is identified with the ABI entry, the function name and the
    arguments it encodes. *)
Record Calldata := {
  cd_abi : AbiFunction;
  cd_functionName : string;
  cd_args : list AbiValue
}.

(** One element of the [params] array of a provider request. *)
Inductive RpcParam :=
| ChainIdParam (chain : string)                        (* { chainId } *)
| ChainParam (c : ChainParams)                         (* LUKSO_CHAIN_PARAMS *)
| TxParam (from to : string) (data : Calldata).        (* { from, to, data } *)

Record RpcRequest := {
  method : string;
  params : option (list RpcParam)
}.

(** A request made through [sendViaProvider], with the provider asked and
    what the awaited promise gave: the transaction hash or a rejection. *)
Record Exchange := {
  ex_provider : EthereumProvider;
  ex_request : RpcRequest;
  ex_answer : Result string
}.

Definition UP_FILTERS : list string :=
  ["universalprofile"; "lukso"; "universal profile"; "universal-profile"].

(** What wagmi's [useAccount] gives the component. *)
Record Connector := {
  connector_id : string;
  connector_name : option string;
  getProvider : Result (option EthereumProvider)
}.

Record Account := {
  liveAddress : option string;
  isSourceConnected : bool;
  account_chainId : option Z;
  connector : option Connector
}.

(** The [useState] cells of [Home]. *)
Record AppState := {
  step : nat;
  savedSourceAddress : string;
  sourceProvider : option EthereumProvider;
  upAddress : string;
  upConnected : bool;
  upConnecting : bool;
  assets : list TokenAsset;
  scanning : bool;
  scanError : string;
  transferStatuses : list TransferStatus;
  isTransferring : bool;
  switchingNetwork : bool;
  upError : string
}.

(** [const sourceAddress = step === 1 ? liveAddress : (savedSourceAddress || liveAddress)] *)
Definition sourceAddress (acct : Account) (app : AppState) : option string :=
  if step app =? 1 then liveAddress acct
  else orOpt (Some (savedSourceAddress app)) (liveAddress acct).

(* ===================================================================== *)
(** ** Provider Registry (EIP-6963)                                       *)
(* ===================================================================== *)

(** An [eip6963:announceProvider] event.  [detail] is [None] when the event
    carries no [detail], the detail no [info] or the info no [uuid]; like
    the empty string, these are falsy in [!e.detail?.info?.uuid]. *)
Record AnnounceEvent := { detail : option EIP6963ProviderDetail }.

(** The listener [handleAnnouncement] with its [setProviders] update. *)
Definition handleAnnouncement (prev : list EIP6963ProviderDetail)
    (e : AnnounceEvent) : list EIP6963ProviderDetail :=
  match detail e with
  | None => prev
  | Some d =>
      if String.eqb (uuid (info d)) "" then prev
      else if existsb (fun p => String.eqb (uuid (info p)) (uuid (info d))) prev
           then prev
           else prev ++ [d]
  end.

(** The [providers] cell of [useEIP6963Providers] after a sequence of
    announcements, starting from [useState([])]. *)
Definition useEIP6963Providers (events : list AnnounceEvent)
    : list EIP6963ProviderDetail :=
  fold_left handleAnnouncement events [].

Definition isUPWallet (value : string) : bool :=
  let lower := toLowerCase value in
  existsb (fun f => includes lower f) UP_FILTERS.

(** [allProviders.filter(p => !isUPWallet(p.info.rdns) && !isUPWallet(p.info.name))] *)
Definition legacyWallets (allProviders : list EIP6963ProviderDetail)
    : list EIP6963ProviderDetail :=
  filter (fun p => negb (isUPWallet (rdns (info p)))
                   && negb (isUPWallet (info_name (info p)))) allProviders.

(* ===================================================================== *)
(** ** State updates                                                      *)
(* ===================================================================== *)

(** [setX(v)] for the cells the handlers write. *)
Definition setStep (v : nat) (a : AppState) : AppState :=
  match a with Build_AppState _ sa sp ua uc ug ast sc se ts it sn ue =>
    Build_AppState v sa sp ua uc ug ast sc se ts it sn ue end.
Definition setSourceProvider (v : option EthereumProvider) (a : AppState) : AppState :=
  match a with Build_AppState st sa _ ua uc ug ast sc se ts it sn ue =>
    Build_AppState st sa v ua uc ug ast sc se ts it sn ue end.
Definition setUpAddress (v : string) (a : AppState) : AppState :=
  match a with Build_AppState st sa sp _ uc ug ast sc se ts it sn ue =>
    Build_AppState st sa sp v uc ug ast sc se ts it sn ue end.
Definition setUpConnected (v : bool) (a : AppState) : AppState :=
  match a with Build_AppState st sa sp ua _ ug ast sc se ts it sn ue =>
    Build_AppState st sa sp ua v ug ast sc se ts it sn ue end.
Definition setUpConnecting (v : bool) (a : AppState) : AppState :=
  match a with Build_AppState st sa sp ua uc _ ast sc se ts it sn ue =>
    Build_AppState st sa sp ua uc v ast sc se ts it sn ue end.
Definition setAssets (v : list TokenAsset) (a : AppState) : AppState :=
  match a with Build_AppState st sa sp ua uc ug _ sc se ts it sn ue =>
    Build_AppState st sa sp ua uc ug v sc se ts it sn ue end.
Definition setScanning (v : bool) (a : AppState) : AppState :=
  match a with Build_AppState st sa sp ua uc ug ast _ se ts it sn ue =>
    Build_AppState st sa sp ua uc ug ast v se ts it sn ue end.
Definition setScanError (v : string) (a : AppState) : AppState :=
  match a with Build_AppState st sa sp ua uc ug ast sc _ ts it sn ue =>
    Build_AppState st sa sp ua uc ug ast sc v ts it sn ue end.
Definition setTransferStatuses (v : list TransferStatus) (a : AppState) : AppState :=
  match a with Build_AppState st sa sp ua uc ug ast sc se _ it sn ue =>
    Build_AppState st sa sp ua uc ug ast sc se v it sn ue end.
Definition setIsTransferring (v : bool) (a : AppState) : AppState :=
  match a with Build_AppState st sa sp ua uc ug ast sc se ts _ sn ue =>
    Build_AppState st sa sp ua uc ug ast sc se ts v sn ue end.
Definition setSwitchingNetwork (v : bool) (a : AppState) : AppState :=
  match a with Build_AppState st sa sp ua uc ug ast sc se ts it _ ue =>
    Build_AppState st sa sp ua uc ug ast sc se ts it v ue end.
Definition setUpError (v : string) (a : AppState) : AppState :=
  match a with Build_AppState st sa sp ua uc ug ast sc se ts it sn _ =>
    Build_AppState st sa sp ua uc ug ast sc se ts it sn v end.

(* ===================================================================== *)
(** ** Indexer Client                                                     *)
(* ===================================================================== *)

Record Icon := { src : string }.

(** [icons?.[0]?.src] *)
Definition firstIconSrc (icons : option (list Icon)) : option string :=
  match icons with
  | Some (i :: _) => Some (src i)
  | _ => None
  end.

Record Lsp7Asset := {
  asset_id : string;
  asset_lsp4TokenName : option string;
  asset_lsp4TokenSymbol : option string;
  asset_decimals : option Z;
  asset_icons : option (list Icon)
}.

(** A row of the LSP7 [Hold] query. *)
Record Lsp7Hold := {
  hold7_balance : string;
  asset : option Lsp7Asset
}.

Record BaseAsset := {
  base_id : string;
  base_lsp4TokenName : option string;
  base_lsp4TokenSymbol : option string;
  base_icons : option (list Icon)
}.

(** A row of the LSP8 [Hold] query. *)
Record Lsp8Hold := {
  hold8_balance : string;
  token_id : string;
  baseAsset_id : string;
  baseAsset : option BaseAsset
}.

(** The GraphQL [Hold] query of [fetchTokensForAddress], by its variable
    parts: the profile it filters on, the asset standard, the row limit
    (the balance filter [_gt: "0"] is the same in both). *)
Record IndexerQuery := {
  profile_id : string;
  standard : string;
  limit : nat
}.

Record GraphQLError := { gql_message : option string }.

(** The parsed body [{ data, errors? }]. *)
Record IndexerJson (D : Type) := {
  data : D;
  errors : option (list GraphQLError)
}.
Arguments data {D} _.
Arguments errors {D} _.

(** What [await fetch(...)] gives: a rejection, or a response with its
    [ok] flag, its status and the outcome of [res.json()]. *)
Inductive FetchResult (D : Type) : Type :=
| NetworkFailure (e : JsError)
| Response (ok : bool) (status : nat) (json : Result (IndexerJson D)).
Arguments NetworkFailure {D} e.
Arguments Response {D} ok status json.

Definition queryIndexer {D : Type} (fetch : IndexerQuery -> FetchResult D)
    (query : IndexerQuery) : Result D :=
  match fetch query with
  | NetworkFailure e => Throw e
  | Response ok status json =>
      if negb ok
      then Throw (newError (String.append "Indexer request failed: "
                                          (String_ (Some status))))
      else
        match json with
        | Throw e => Throw e
        | Ok j =>
            match errors j with
            | Some errs =>
                Throw (newError
                  (orElse (match errs with
                           | e0 :: _ => gql_message e0
                           | [] => None
                           end) "GraphQL error"))
            | None => Ok (data j)
            end
        end
  end.

(** The indexer service as the page sees it: its answer to each of the two
    kinds of query, and, for the case that both fail, which of the two
    failures arrives first. *)
Record Indexer := {
  fetchLsp7 : IndexerQuery -> FetchResult (list Lsp7Hold);
  fetchLsp8 : IndexerQuery -> FetchResult (list Lsp8Hold);
  lsp8SettlesFirst : bool
}.

(** [hold.token_id.slice(hold.token_id.indexOf('-') + 1)] *)
Definition extractTokenId (token_id : string) : string :=
  slice token_id (indexOf token_id "-" + 1)%Z.

(** A JavaScript [Map<string, TokenAsset>]: entries in insertion order,
    one per key. *)
Definition CollectionMap := list (string * TokenAsset).

Definition Map_has (k : string) (m : CollectionMap) : bool :=
  existsb (fun kv => String.eqb (fst kv) k) m.

(** Mutation of the object stored under [k] (the entry keeps its place). *)
Definition Map_mutate (k : string) (f : TokenAsset -> TokenAsset)
    (m : CollectionMap) : CollectionMap :=
  map (fun kv => if String.eqb (fst kv) k then (fst kv, f (snd kv)) else kv) m.

(** [collections.set(k, v)] for a key that is not in the map. *)
Definition Map_set_new (k : string) (v : TokenAsset) (m : CollectionMap)
    : CollectionMap :=
  m ++ [(k, v)].

Definition Map_values (m : CollectionMap) : list TokenAsset := map snd m.

(** [existing.balance = String(parseInt(existing.balance) + 1);
     existing.tokenIds?.push(tokenId)] *)
Definition addToken (tokenId : string) (existing : TokenAsset) : TokenAsset := {|
  address := address existing;
  name := name existing;
  symbol := symbol existing;
  type := type existing;
  balance := String_ (plus1 (parseInt (balance existing)));
  decimals := decimals existing;
  selected := selected existing;
  iconUrl := iconUrl existing;
  tokenIds := option_map (fun ids => ids ++ [tokenId]) (tokenIds existing);
  transferAmount := transferAmount existing
|}.

(** One iteration of the loop over [lsp8Data.Hold]. *)
Definition groupHold (collections : CollectionMap) (hold : Lsp8Hold)
    : CollectionMap :=
  match baseAsset hold with
  | None => collections
  | Some b =>
      let collectionAddr := base_id b in
      let tokenId := extractTokenId (token_id hold) in
      if Map_has collectionAddr collections
      then Map_mutate collectionAddr (addToken tokenId) collections
      else Map_set_new collectionAddr {|
             address := collectionAddr;
             name := orElse (base_lsp4TokenName b) "Unknown NFT";
             symbol := orElse (base_lsp4TokenSymbol b) "???";
             type := LSP8;
             balance := "1";
             decimals := 0;
             selected := true;
             iconUrl := firstIconSrc (base_icons b);
             tokenIds := Some [tokenId];
             transferAmount := "1"
           |} collections
  end.

(** The LSP8 part of [fetchTokensForAddress]: the values of the map built
    from the rows. *)
Definition lsp8Tokens (holds : list Lsp8Hold) : list TokenAsset :=
  Map_values (fold_left groupHold holds []).

Definition holdQuery (addr std : string) : IndexerQuery :=
  {| profile_id := addr; standard := std; limit := 100 |}.

(** [upAddress && sourceAddress
      ? upAddress.toLowerCase() === sourceAddress.toLowerCase() : false] *)
Definition isSameAddress (acct : Account) (app : AppState) : bool :=
  match sourceAddress acct app with
  | Some source =>
      if negb (String.eqb (upAddress app) "") && negb (String.eqb source "")
      then String.eqb (toLowerCase (upAddress app)) (toLowerCase source)
      else false
  | None => false
  end.

Section Page.

(** Library functions the page calls: the built-in [BigInt(string)], which
    throws on a string that is not an integer literal, and viem's
    [formatUnits] and [parseUnits] ([None] when [parseUnits] throws). *)
Variable BigInt : string -> Result Z.
Variable formatUnits : Z -> Z -> string.
Variable parseUnits : string -> Z -> option Z.

(** viem's [encodeFunctionData] throws when an argument does not fit its
    ABI type: an address viem does not accept, a token id that is not 32
    bytes long, an amount outside uint256.  [encodeError] gives the
    exception it throws on a call, [None] when the call encodes. *)
Variable encodeError :
  AbiFunction -> string -> list AbiValue -> option JsError.

Definition encodeFunctionData (abi : AbiFunction) (functionName : string)
    (args : list AbiValue) : Result Calldata :=
  match encodeError abi functionName args with
  | Some e => Throw e
  | None =>
      Ok {| cd_abi := abi; cd_functionName := functionName; cd_args := args |}
  end.

(** The loop over [lsp7Data.Hold]; [tokens] is the array built so far. *)
Fixpoint lsp7Tokens (holds : list Lsp7Hold) (tokens : list TokenAsset)
    : Result (list TokenAsset) :=
  match holds with
  | [] => Ok tokens
  | hold :: rest =>
      match asset hold with
      | None => lsp7Tokens rest tokens
      | Some a =>
          let decimals := match asset_decimals a with Some d => d | None => 18%Z end in
          match BigInt (hold7_balance hold) with
          | Throw e => Throw e
          | Ok raw =>
              lsp7Tokens rest (tokens ++ [ {|
                address := asset_id a;
                name := orElse (asset_lsp4TokenName a) "Unknown Token";
                symbol := orElse (asset_lsp4TokenSymbol a) "???";
                type := LSP7;
                balance := hold7_balance hold;
                decimals := decimals;
                selected := true;
                iconUrl := firstIconSrc (asset_icons a);
                tokenIds := None;
                transferAmount := formatUnits raw decimals
              |} ])
          end
      end
  end.

(** [fetchTokensForAddress]: the result (or the rejection) and the queries
    sent.  Both queries are started before either is awaited.  When both
    fail, [Promise.all] rejects with the failure that arrives first. *)
Definition fetchTokensForAddress (ix : Indexer) (address : string)
    : Result (list TokenAsset) * list IndexerQuery :=
  let addr := toLowerCase address in
  let q7 := holdQuery addr "LSP7DigitalAsset" in
  let q8 := holdQuery addr "LSP8IdentifiableDigitalAsset" in
  (match queryIndexer (fetchLsp7 ix) q7, queryIndexer (fetchLsp8 ix) q8 with
   | Throw e7, Throw e8 => Throw (if lsp8SettlesFirst ix then e8 else e7)
   | Throw e, Ok _ => Throw e
   | Ok _, Throw e => Throw e
   | Ok lsp7Data, Ok lsp8Data =>
       match lsp7Tokens lsp7Data [] with
       | Throw e => Throw e
       | Ok tokens => Ok (tokens ++ lsp8Tokens lsp8Data)
       end
   end, [q7; q8]).

(** [handleFindAssets]: the new state and the queries sent to the indexer. *)
Definition handleFindAssets (ix : Indexer) (acct : Account) (app : AppState)
    : AppState * list IndexerQuery :=
  match sourceAddress acct app with
  | None => (app, [])
  | Some source =>
      if String.eqb source "" || String.eqb (upAddress app) ""
      then (app, [])
      else if isSameAddress acct app
      then (setScanError
              "Source and destination addresses are the same. Please use different wallets."
              app, [])
      else
        let app1 := setScanError "" (setScanning true app) in
        match fetchTokensForAddress ix source with
        | (Ok tokens, queries) =>
            (setScanning false
               (setStep 3 (setTransferStatuses [] (setAssets tokens app1))),
             queries)
        | (Throw _, queries) =>
            (setScanning false
               (setScanError "Failed to scan assets. Please try again." app1),
             queries)
        end
  end.

(* ===================================================================== *)
(** ** Transfer Engine                                                    *)
(* ===================================================================== *)

(** The wallets behind the provider handles: the answer to a request depends
    on the state of the world, which the request may change.  The value a
    provider resolves [eth_sendTransaction] with is the transaction hash. *)
Variable World : Type.
Variable request :
  World -> EthereumProvider -> RpcRequest -> Result string * World.

(** The state a run of [handleTransferAll] threads through its loop: the
    [transferStatuses] cell, the world, and the requests sent so far, each
    with the provider it went to and the answer it got. *)
Record Run := {
  statuses : list TransferStatus;
  world : World;
  sent : list Exchange
}.

Definition txRequest (from to : string) (data : Calldata) : RpcRequest :=
  {| method := "eth_sendTransaction"; params := Some [TxParam from to data] |}.

Definition sendViaProvider (provider : EthereumProvider)
    (from to : string) (data : Calldata) (r : Run) : Result string * Run :=
  let req := txRequest from to data in
  let (txHash, w) := request (world r) provider req in
  (txHash, {| statuses := statuses r; world := w;
              sent := sent r ++ [ {| ex_provider := provider;
                                     ex_request := req;
                                     ex_answer := txHash |} ] |}).

(** [{ ...s, status: 'transferring' }] *)
Definition withTransferring (s : TransferStatus) : TransferStatus :=
  {| ts_address := ts_address s; ts_status := Transferring;
     ts_txHash := ts_txHash s; ts_error := ts_error s |}.

(** [{ ...s, status: 'error', error: msg }] *)
Definition withError (msg : string) (s : TransferStatus) : TransferStatus :=
  {| ts_address := ts_address s; ts_status := Error;
     ts_txHash := ts_txHash s; ts_error := Some msg |}.

(** [{ ...s, status: 'success', txHash }] *)
Definition withSuccess (txHash : string) (s : TransferStatus) : TransferStatus :=
  {| ts_address := ts_address s; ts_status := Success;
     ts_txHash := Some txHash; ts_error := ts_error s |}.

(** [prev.map(s => s.address === addr ? upd(s) : s)] *)
Definition mapStatus (addr : string) (upd : TransferStatus -> TransferStatus)
    (prev : list TransferStatus) : list TransferStatus :=
  map (fun s => if String.eqb (ts_address s) addr then upd s else s) prev.

(** [setTransferStatuses(prev => prev.map(...))] inside the run. *)
Definition updateStatus (addr : string)
    (upd : TransferStatus -> TransferStatus) (r : Run) : Run :=
  {| statuses := mapStatus addr upd (statuses r);
     world := world r; sent := sent r |}.

(** The loop over [asset.tokenIds]; [lastTxHash] is the variable of that
    name.  An exception of [encodeFunctionData] or a rejected request
    leaves the loop with the exception. *)
Fixpoint sendTokenIds (provider : EthereumProvider)
    (sourceAddress upAddress contract : string) (ids : list string)
    (lastTxHash : string) (r : Run) : Result string * Run :=
  match ids with
  | [] => (Ok lastTxHash, r)
  | tokenId :: rest =>
      match encodeFunctionData LSP8_TRANSFER_ABI "transfer"
              [VAddress sourceAddress; VAddress upAddress;
               VBytes32 tokenId; VBool true; VBytes "0x"] with
      | Throw e => (Throw e, r)
      | Ok data =>
          match sendViaProvider provider sourceAddress contract data r with
          | (Throw e, r') => (Throw e, r')
          | (Ok h, r') =>
              sendTokenIds provider sourceAddress upAddress contract rest h r'
          end
      end
  end.

(** The body of the [try] block for one asset.  [Ok tt] is a normal exit
    (the end of the block or one of its [continue]s), [Throw e] an exception
    for the [catch] clause. *)
Definition tryTransfer (provider : EthereumProvider)
    (sourceAddress upAddress : string) (asset : TokenAsset) (r : Run)
    : Result unit * Run :=
  match type asset with
  | LSP7 =>
      match parseUnits (transferAmount asset) (decimals asset) with
      | None =>
          (Ok tt, updateStatus (address asset) (withError "Invalid amount") r)
      | Some rawAmount =>
          if (rawAmount <=? 0)%Z
          then (Ok tt, updateStatus (address asset)
                         (withError "Amount must be greater than 0") r)
          else
            match BigInt (balance asset) with
            | Throw e => (Throw e, r)
            | Ok held =>
                if (rawAmount >? held)%Z
                then (Ok tt, updateStatus (address asset)
                               (withError "Amount exceeds balance") r)
                else
                  match encodeFunctionData LSP7_TRANSFER_ABI "transfer"
                          [VAddress sourceAddress; VAddress upAddress;
                           VUint rawAmount; VBool true; VBytes "0x"] with
                  | Throw e => (Throw e, r)
                  | Ok data =>
                      match sendViaProvider provider sourceAddress
                              (address asset) data r with
                      | (Throw e, r') => (Throw e, r')
                      | (Ok txHash, r') =>
                          (Ok tt, updateStatus (address asset)
                                    (withSuccess txHash) r')
                      end
                  end
            end
      end
  | LSP8 =>
      match tokenIds asset with
      | Some (tokenId :: rest) =>
          match sendTokenIds provider sourceAddress upAddress (address asset)
                  (tokenId :: rest) "" r with
          | (Throw e, r') => (Throw e, r')
          | (Ok lastTxHash, r') =>
              (Ok tt, updateStatus (address asset)
                        (withSuccess lastTxHash) r')
          end
      | _ => (Ok tt, r)
      end
  end.

(** [err.shortMessage || err.message || 'Transfer failed'] *)
Definition errorText (err : JsError) : string :=
  orElse (orOpt (shortMessage err) (message err)) "Transfer failed".

(** One iteration of [for (const asset of selectedAssets)]. *)
Definition transferAsset (provider : EthereumProvider)
    (sourceAddress upAddress : string) (r : Run) (asset : TokenAsset) : Run :=
  let r1 := updateStatus (address asset) withTransferring r in
  match tryTransfer provider sourceAddress upAddress asset r1 with
  | (Ok _, r2) => r2
  | (Throw err, r2) =>
      updateStatus (address asset) (withError (errorText err)) r2
  end.

(** [selectedAssets.map(a => ({ address: a.address, status: 'pending' }))] *)
Definition pendingStatus (a : TokenAsset) : TransferStatus :=
  {| ts_address := address a; ts_status := Pending;
     ts_txHash := None; ts_error := None |}.

Definition startRun (selectedAssets : list TokenAsset) (w : World) : Run :=
  {| statuses := map pendingStatus selectedAssets; world := w; sent := [] |}.

(** The whole [for] loop, from a given state of the run. *)
Definition transferLoop (provider : EthereumProvider)
    (sourceAddress upAddress : string) (selectedAssets : list TokenAsset)
    (r : Run) : Run :=
  fold_left (transferAsset provider sourceAddress upAddress) selectedAssets r.

(** The first lines of [handleTransferAll]: the provider it signs with (the
    pinned one, or the one the connector hands out, which is then pinned; an
    exception there is swallowed) and the state after that. *)
Definition resolveProvider (acct : Account) (app : AppState)
    : option EthereumProvider * AppState :=
  match sourceProvider app with
  | Some p => (Some p, app)
  | None =>
      match connector acct with
      | Some c =>
          match getProvider c with
          | Ok p => (p, setSourceProvider p app)
          | Throw _ => (None, app)
          end
      | None => (None, app)
      end
  end.

(** [handleTransferAll]: the new state of the component, the world after
    the run and the requests sent, in order. *)
Definition handleTransferAll (acct : Account) (app : AppState) (w : World)
    : AppState * World * list Exchange :=
  let (provider, app1) := resolveProvider acct app in
  match provider, sourceAddress acct app with
  | Some provider, Some source =>
      if String.eqb source "" || String.eqb (upAddress app) ""
      then (app1, w, [])
      else
        let selectedAssets := filter selected (assets app) in
        match selectedAssets with
        | [] => (app1, w, [])
        | _ :: _ =>
            let r := transferLoop provider source (upAddress app)
                       selectedAssets (startRun selectedAssets w) in
            (setIsTransferring false (setTransferStatuses (statuses r) app1),
             world r, sent r)
        end
  | _, _ => (app1, w, [])
  end.

End Page.

(* ===================================================================== *)
(** ** Session: network switch and destination profile                    *)
(* ===================================================================== *)

Section Session.

Variable World : Type.

(** The two global provider objects of the page, each given by its
    [request] method; [None] when the global is not defined.
    [window.ethereum] is asked to switch or add a chain (the value it
    resolves with is not used), [window.lukso] for the accounts. *)
Record Window := {
  ethereum : option (World -> RpcRequest -> Result unit * World);
  lukso : option (World -> RpcRequest -> Result (option (list string)) * World)
}.

Definition switchRequest : RpcRequest :=
  {| method := "wallet_switchEthereumChain";
     params := Some [ChainIdParam (chainId LUKSO_CHAIN_PARAMS)] |}.

Definition addRequest : RpcRequest :=
  {| method := "wallet_addEthereumChain";
     params := Some [ChainParam LUKSO_CHAIN_PARAMS] |}.

(** [handleSwitchToLukso]: the new state, the world and the requests made to
    [window.ethereum], in order.  An exception that reaches the outer
    [catch] is logged and dropped. *)
Definition handleSwitchToLukso (win : Window) (app : AppState) (w : World)
    : AppState * World * list RpcRequest :=
  let app1 := setSwitchingNetwork true app in
  match ethereum win with
  | None => (setSwitchingNetwork false app1, w, [])
  | Some request =>
      match request w switchRequest with
      | (Ok _, w1) => (setSwitchingNetwork false app1, w1, [switchRequest])
      | (Throw switchError, w1) =>
          if codeIs 4902 switchError
          then
            let (_, w2) := request w1 addRequest in
            (setSwitchingNetwork false app1, w2, [switchRequest; addRequest])
          else (setSwitchingNetwork false app1, w1, [switchRequest])
      end
  end.

Definition accountsRequest : RpcRequest :=
  {| method := "eth_requestAccounts"; params := None |}.

(** [handleConnectUPExtension]: the new state, the world and the requests
    made to [window.lukso]. *)
Definition handleConnectUPExtension (win : Window) (app : AppState) (w : World)
    : AppState * World * list RpcRequest :=
  let app1 := setUpError "" (setUpConnecting true app) in
  match lukso win with
  | None =>
      (setUpConnecting false
         (setUpError
            "UP Browser Extension not detected. Install it from the LUKSO website or enter your Universal Profile address manually below."
            app1), w, [])
  | Some request =>
      match request w accountsRequest with
      | (Throw _, w1) =>
          (setUpConnecting false
             (setUpError "Failed to connect. Please try again." app1),
           w1, [accountsRequest])
      | (Ok accounts, w1) =>
          match accounts with
          | Some (upAddr :: _) =>
              if String.eqb (toLowerCase upAddr)
                            (toLowerCase (savedSourceAddress app))
              then
                (setUpConnecting false
                   (setUpError
                      "This is the same address as your source wallet. Please connect a different Universal Profile."
                      app1), w1, [accountsRequest])
              else
                (setUpConnecting false
                   (setUpError ""
                      (setUpConnected true (setUpAddress upAddr app1))),
                 w1, [accountsRequest])
          | _ => (setUpConnecting false app1, w1, [accountsRequest])
          end
      end
  end.

End Session.

Arguments ethereum {World} _.
Arguments lukso {World} _.

Arguments statuses {World} _.
Arguments world {World} _.
Arguments sent {World} _.
Arguments Build_Run {World} _ _ _.
Arguments sendViaProvider {World} request provider from to data r.
Arguments updateStatus {World} addr upd r.
Arguments sendTokenIds encodeError {World} request provider sourceAddress upAddress
  contract ids lastTxHash r.
Arguments tryTransfer BigInt parseUnits encodeError {World} request provider
  sourceAddress upAddress asset r.
Arguments transferAsset BigInt parseUnits encodeError {World} request provider
  sourceAddress upAddress r asset.
Arguments startRun {World} selectedAssets w.
Arguments transferLoop BigInt parseUnits encodeError {World} request provider
  sourceAddress upAddress selectedAssets r.
Arguments handleTransferAll BigInt parseUnits encodeError {World} request acct app w.
Arguments handleSwitchToLukso {World} win app w.
Arguments handleConnectUPExtension {World} win app w.

(* ===================================================================== *)
(** ** Asset Ledger: selection, amounts, summary                          *)
(* ===================================================================== *)

(** [{ ...a, selected: v }] *)
Definition withSelected (v : bool) (a : TokenAsset) : TokenAsset := {|
  address := address a;
  name := name a;
  symbol := symbol a;
  type := type a;
  balance := balance a;
  decimals := decimals a;
  selected := v;
  iconUrl := iconUrl a;
  tokenIds := tokenIds a;
  transferAmount := transferAmount a
|}.

(** [{ ...a, transferAmount: amount }] *)
Definition withTransferAmount (amount : string) (a : TokenAsset) : TokenAsset := {|
  address := address a;
  name := name a;
  symbol := symbol a;
  type := type a;
  balance := balance a;
  decimals := decimals a;
  selected := selected a;
  iconUrl := iconUrl a;
  tokenIds := tokenIds a;
  transferAmount := amount
|}.

(** The updaters the ledger handlers pass to [setAssets], as functions of
    the previous list. *)
Definition toggleAsset (addr : string) (prev : list TokenAsset)
    : list TokenAsset :=
  map (fun a => if String.eqb (address a) addr
                then withSelected (negb (selected a)) a else a) prev.

Definition selectAll (prev : list TokenAsset) : list TokenAsset :=
  map (withSelected true) prev.

Definition deselectAll (prev : list TokenAsset) : list TokenAsset :=
  map (withSelected false) prev.

Definition updateTransferAmount (addr amount : string)
    (prev : list TokenAsset) : list TokenAsset :=
  map (fun a => if String.eqb (address a) addr
                then withTransferAmount amount a else a) prev.

(** [/^\d*\.?\d*$/.test(val)]: digits, at most one dot, digits. *)
Fixpoint dropDigits (s : string) : string :=
  match s with
  | EmptyString => EmptyString
  | String c r =>
      match digitOf c with
      | Some _ => dropDigits r
      | None => s
      end
  end.

Definition isDecimalText (val : string) : bool :=
  match dropDigits val with
  | EmptyString => true
  | String c r =>
      Ascii.eqb c "." && String.eqb (dropDigits r) ""
  end.

(** The [onChange] handler of the amount field:
    [if (val === '' || /^\d*\.?\d*$/.test(val)) updateTransferAmount(...)] *)
Definition amountChanged (addr val : string) (prev : list TokenAsset)
    : list TokenAsset :=
  if String.eqb val "" || isDecimalText val
  then updateTransferAmount addr val prev
  else prev.

(** [assets.filter(a => a.selected).length] *)
Definition selectedCount (ledger : list TokenAsset) : nat :=
  List.length (filter selected ledger).

Definition isSuccess (s : TransferStatus) : bool :=
  match ts_status s with Success => true | _ => false end.

Definition isError (s : TransferStatus) : bool :=
  match ts_status s with Error => true | _ => false end.

(** [transferStatuses.filter(s => s.status === 'success').length] *)
Definition completedTransfers (l : list TransferStatus) : nat :=
  List.length (filter isSuccess l).

(** [transferStatuses.filter(s => s.status === 'error').length] *)
Definition failedTransfers (l : list TransferStatus) : nat :=
  List.length (filter isError l).

(** [transferStatuses.find(s => s.address === asset.address)] *)
Definition statusFor (l : list TransferStatus) (addr : string)
    : option TransferStatus :=
  find (fun s => String.eqb (ts_address s) addr) l.

Section Amounts.

Variable BigInt : string -> Result Z.
Variable formatUnits : Z -> Z -> string.

(** [setMaxAmount]: the [map] stops with the exception when [BigInt]
    throws on the balance of a matching asset. *)
Fixpoint setMaxAmount (addr : string) (prev : list TokenAsset)
    : Result (list TokenAsset) :=
  match prev with
  | [] => Ok []
  | a :: rest =>
      if negb (String.eqb (address a) addr)
      then match setMaxAmount addr rest with
           | Ok rest' => Ok (a :: rest')
           | Throw e => Throw e
           end
      else
        match BigInt (balance a) with
        | Throw e => Throw e
        | Ok raw =>
            match setMaxAmount addr rest with
            | Ok rest' =>
                Ok (withTransferAmount (formatUnits raw (decimals a)) a
                    :: rest')
            | Throw e => Throw e
            end
        end
  end.

End Amounts.

(* ===================================================================== *)
(** ** Session: source wallet and steps                                   *)
(* ===================================================================== *)

Definition setSavedSourceAddress (v : string) (a : AppState) : AppState :=
  match a with Build_AppState st _ sp ua uc ug ast sc se ts it sn ue =>
    Build_AppState st v sp ua uc ug ast sc se ts it sn ue end.

(** [handleDisconnectSource], on the cells of the component (wagmi's
    [disconnect()] acts on the account, outside them). *)
Definition handleDisconnectSource (app : AppState) : AppState :=
  setSavedSourceAddress "" (setSourceProvider None app).

Definition handleDisconnectUP (app : AppState) : AppState :=
  setUpConnected false (setUpAddress "" app).

(** What [handleConnectWallet] hands to [injected({ target() {...} })]. *)
Record ConnectTarget := {
  target_id : string;
  target_name : string;
  target_provider : EthereumProvider
}.

(** [handleConnectWallet]: the new state and the target given to
    [connect]. *)
Definition handleConnectWallet (wallet : EIP6963ProviderDetail)
    (app : AppState) : AppState * ConnectTarget :=
  (setSourceProvider (Some (provider wallet)) app,
   {| target_id := rdns (info wallet);
      target_name := info_name (info wallet);
      target_provider := provider wallet |}).

(** [chainId === lukso.id]; the id of wagmi's [lukso] chain is 42, the
    number [LUKSO_CHAIN_PARAMS.chainId] writes as 0x2a. *)
Definition isOnLukso (acct : Account) : bool :=
  match account_chainId acct with
  | Some c => Z.eqb c 42
  | None => false
  end.

(** [isSourceConnected && connector
      ? isUPWallet(connector.id) || isUPWallet(connector.name ?? '')
      : false] *)
Definition isSourceUP (acct : Account) : bool :=
  if isSourceConnected acct
  then match connector acct with
       | Some c =>
           isUPWallet (connector_id c)
           || isUPWallet (match connector_name c with
                          | Some n => n
                          | None => ""
                          end)
       | None => false
       end
  else false.

(** The step-1 panel shows the "Continue to Step 2" button. *)
Definition continueOffered (acct : Account) (app : AppState) : bool :=
  (step app =? 1) && isSourceConnected acct && negb (isSourceUP acct)
  && isOnLukso acct.

(** The [onClick] of "Continue to Step 2": snapshot the live address, pin
    the connector's provider when none is pinned (as at the start of
    [handleTransferAll]; an exception is logged and dropped), go to step
    2. *)
Definition continueToStep2 (acct : Account) (app : AppState) : AppState :=
  let app1 := setSavedSourceAddress (orElse (liveAddress acct) "") app in
  let app2 :=
    match sourceProvider app, connector acct with
    | None, Some c =>
        match getProvider c with
        | Ok p => setSourceProvider p app1
        | Throw _ => app1
        end
    | _, _ => app1
    end in
  setStep 2 app2.

(** The [onClick] of "Back" at step 3. *)
Definition backToStep2 (app : AppState) : AppState :=
  setTransferStatuses [] (setStep 2 app).

(** The "Transfer" button is disabled:
    [selectedCount === 0 || isTransferring || assets.length === 0] *)
Definition transferDisabled (app : AppState) : bool :=
  (selectedCount (assets app) =? 0) || isTransferring app
  || (List.length (assets app) =? 0).

(** The "Find assets" button of step 2 is disabled:
    [!upAddress || scanning || isSameAddress] *)
Definition findDisabled (acct : Account) (app : AppState) : bool :=
  String.eqb (upAddress app) "" || scanning app || isSameAddress acct app.

(* ===================================================================== *)
(** ** Notions used in the statements                                     *)
(* ===================================================================== *)

(** [d] is the lower-case form of the capital letter [c]. *)
Definition lowerOfCapital (c d : ascii) : Prop :=
  65 <= nat_of_ascii c <= 90 /\ nat_of_ascii d = nat_of_ascii c + 32.

Definition sameLetter (c d : ascii) : Prop :=
  c = d \/ lowerOfCapital c d \/ lowerOfCapital d c.

(** Two strings that differ at most in the case of their letters. *)
Inductive sameIgnoringCase : string -> string -> Prop :=
| same_empty : sameIgnoringCase "" ""
| same_char c d s t :
    sameLetter c d -> sameIgnoringCase s t ->
    sameIgnoringCase (String c s) (String d t).

(** The uuids carried by a sequence of announcements, in order. *)
Definition announcedUuids (events : list AnnounceEvent) : list string :=
  flat_map (fun e => match detail e with
                     | Some d => [uuid (info d)]
                     | None => []
                     end) events.

(** The non-empty ones among them. *)
Definition nonEmptyUuids (events : list AnnounceEvent) : list string :=
  filter (fun u => negb (String.eqb u "")) (announcedUuids events).

(** The announcement [e] carries the uuid [u]. *)
Definition announces (u : string) (e : AnnounceEvent) : bool :=
  match detail e with
  | Some d => String.eqb (uuid (info d)) u
  | None => false
  end.

(** The number of different strings in a list. *)
Definition distinctCount (l : list string) : nat :=
  List.length (nodup string_dec l).

(** The number of requests with a given method in a trace. *)
Definition countMethod (m : string) (reqs : list RpcRequest) : nat :=
  List.length (filter (fun r => String.eqb (method r) m) reqs).

(** The rows of an LSP8 answer that belong to the collection [c]. *)
Definition inCollection (c : string) (hold : Lsp8Hold) : bool :=
  match baseAsset hold with
  | Some b => String.eqb (base_id b) c
  | None => false
  end.

Definition collectionRows (c : string) (holds : list Lsp8Hold) : list Lsp8Hold :=
  filter (inCollection c) holds.

Definition rowTokenId (hold : Lsp8Hold) : string :=
  extractTokenId (token_id hold).

(** What the map of collections holds once the rows [holds] are processed:
    one entry per collection that has a row, with that collection's token
    ids in row order and their count as the balance. *)
Definition Grouped (m : CollectionMap) (holds : list Lsp8Hold) : Prop :=
  NoDup (map fst m)
  /\ (forall c, In c (map fst m) <-> collectionRows c holds <> [])
  /\ (forall c t, In (c, t) m ->
        address t = c
        /\ type t = LSP8
        /\ tokenIds t = Some (map rowTokenId (collectionRows c holds))
        /\ balance t =
           String_ (Some (List.length (collectionRows c holds)))).

(** The precondition check of [handleTransferAll] passes: a provider is
    resolved and both addresses are set. *)
Definition Invokes (acct : Account) (app : AppState)
    (provider : EthereumProvider) (source : string) : Prop :=
  fst (resolveProvider acct app) = Some provider
  /\ sourceAddress acct app = Some source
  /\ source <> ""
  /\ upAddress app <> "".

(** No asset of [later] has the contract address of [a]. *)
Definition laterDiffer (a : TokenAsset) (later : list TokenAsset) : bool :=
  forallb (fun b => negb (String.eqb (address b) (address a))) later.

Definition answeredOk (x : Exchange) : bool :=
  match ex_answer x with
  | Ok _ => true
  | Throw _ => false
  end.

(** The arguments of the two transfer calls. *)
Definition lsp7Args (source up : string) (amount : Z) : list AbiValue :=
  [VAddress source; VAddress up; VUint amount; VBool true; VBytes "0x"].

Definition lsp8Args (source up tokenId : string) : list AbiValue :=
  [VAddress source; VAddress up; VBytes32 tokenId; VBool true; VBytes "0x"].

(** The exception [encodeFunctionData] throws on the LSP7 call with this
    amount, resp. on the LSP8 call with this token id, if it throws. *)
Definition lsp7Error
    (encodeError : AbiFunction -> string -> list AbiValue -> option JsError)
    (source up : string) (amount : Z) : option JsError :=
  encodeError LSP7_TRANSFER_ABI "transfer" (lsp7Args source up amount).

Definition lsp8Error
    (encodeError : AbiFunction -> string -> list AbiValue -> option JsError)
    (source up tokenId : string) : option JsError :=
  encodeError LSP8_TRANSFER_ABI "transfer" (lsp8Args source up tokenId).

(** The request that carries an LSP7 transfer of [amount]. *)
Definition lsp7Request (source up contract : string) (amount : Z) : RpcRequest :=
  {| method := "eth_sendTransaction";
     params := Some [TxParam source contract
       {| cd_abi := LSP7_TRANSFER_ABI; cd_functionName := "transfer";
          cd_args := [VAddress source; VAddress up; VUint amount;
                      VBool true; VBytes "0x"] |}] |}.

(** The request that carries the LSP8 transfer of one token id. *)
Definition lsp8Request (source up contract tokenId : string) : RpcRequest :=
  {| method := "eth_sendTransaction";
     params := Some [TxParam source contract
       {| cd_abi := LSP8_TRANSFER_ABI; cd_functionName := "transfer";
          cd_args := [VAddress source; VAddress up; VBytes32 tokenId;
                      VBool true; VBytes "0x"] |}] |}.

Section RunNotions.

Variable BigInt : string -> Result Z.
Variable parseUnits : string -> Z -> option Z.
Variable encodeError :
  AbiFunction -> string -> list AbiValue -> option JsError.
Variable World : Type.
Variable request :
  World -> EthereumProvider -> RpcRequest -> Result string * World.

(** The run when the loop reaches the [i]-th selected asset. *)
Definition reached (provider : EthereumProvider) (source up : string)
    (sel : list TokenAsset) (w : World) (i : nat) : Run World :=
  transferLoop BigInt parseUnits encodeError request provider source up
    (firstn i sel) (startRun sel w).

(** The requests made while the [i]-th selected asset is processed. *)
Definition ownExchanges (provider : EthereumProvider) (source up : string)
    (sel : list TokenAsset) (w : World) (i : nat) : list Exchange :=
  skipn (List.length (sent (reached provider source up sel w i)))
        (sent (reached provider source up sel w (S i))).

End RunNotions.

Arguments reached BigInt parseUnits encodeError {World} request provider source up sel w i.
Arguments ownExchanges BigInt parseUnits encodeError {World} request provider source up
  sel w i.

(** What the [i]-th record of [transferStatuses] shows. *)
Definition statusAt (l : list TransferStatus) (i : nat) : option Status :=
  option_map ts_status (nth_error l i).

Definition errorAt (l : list TransferStatus) (i : nat) : option string :=
  match nth_error l i with
  | Some s => ts_error s
  | None => None
  end.

Definition txHashAt (l : list TransferStatus) (i : nat) : option string :=
  match nth_error l i with
  | Some s => ts_txHash s
  | None => None
  end.


(** What the processing of one asset leaves in its record: an error
    message, a transaction hash, or nothing beyond ['transferring']. *)
Inductive Verdict :=
| VError (msg : string)
| VSuccess (txHash : string)
| VStuck.

Definition applyVerdict (v : Verdict) (s : TransferStatus) : TransferStatus :=
  match v with
  | VError msg => withError msg (withTransferring s)
  | VSuccess txHash => withSuccess txHash (withTransferring s)
  | VStuck => withTransferring s
  end.

(** The ways one iteration of the loop can go, by the requests it made and
    what it leaves in the record, for an asset that calls for [due]
    submissions: an exception before all of them were made (those made were
    answered), a rejected request, a failed check, nothing at all, or all
    requests answered. *)
Inductive StepOutcome (due : nat) : list Exchange -> Verdict -> Prop :=
| out_exception e front :
    Forall (fun y => answeredOk y = true) front ->
    List.length front < due ->
    StepOutcome due front (VError (errorText e))
| out_rejected e front x :
    ex_answer x = Throw e ->
    Forall (fun y => answeredOk y = true) front ->
    StepOutcome due (front ++ [x]) (VError (errorText e))
| out_invalid msg :
    StepOutcome due [] (VError msg)
| out_stuck :
    StepOutcome due [] VStuck
| out_sent h front x :
    ex_answer x = Ok h ->
    Forall (fun y => answeredOk y = true) front ->
    StepOutcome due (front ++ [x]) (VSuccess h).

(** An update that leaves the address of a record alone. *)
Definition keepsAddress (upd : TransferStatus -> TransferStatus) : Prop :=
  forall s, ts_address (upd s) = ts_address s.

Definition uuidOf (p : EIP6963ProviderDetail) : string := uuid (info p).

Definition isLSP8 (t : TokenAsset) : bool :=
  match type t with LSP8 => true | LSP7 => false end.

(** An LSP8 asset without token ids: [tokenIds] missing or empty. *)
Definition idless (a : TokenAsset) : Prop :=
  type a = LSP8 /\ (tokenIds a = None \/ tokenIds a = Some []).

(** The token ids an asset carries. *)
Definition idsOf (a : TokenAsset) : list string :=
  match tokenIds a with
  | Some ids => ids
  | None => []
  end.

(** The number of submissions the transfer of an asset calls for: one for
    an LSP7 asset, one per token id for an LSP8 asset. *)
Definition submissionsDue (a : TokenAsset) : nat :=
  match type a with
  | LSP7 => 1
  | LSP8 => List.length (idsOf a)
  end.

(** The LSP8 rows the grouping loop does not skip. *)
Definition hasBaseAsset (hold : Lsp8Hold) : bool :=
  match baseAsset hold with
  | Some _ => true
  | None => false
  end.

(** The LSP7 rows the conversion loop does not skip, with their asset. *)
Definition rowsWithAsset (holds : list Lsp7Hold)
    : list (Lsp7Hold * Lsp7Asset) :=
  flat_map (fun h => match asset h with
                     | Some a => [(h, a)]
                     | None => []
                     end) holds.

(** Some character of the string is a capital letter. *)
Fixpoint hasCapital (s : string) : bool :=
  match s with
  | EmptyString => false
  | String c r => isUpper c || hasCapital r
  end.

(** The character [c] occurs in the string. *)
Fixpoint occurs (c : ascii) (s : string) : bool :=
  match s with
  | EmptyString => false
  | String x r => Ascii.eqb x c || occurs c r
  end.

Section RunStatements.

Variable BigInt : string -> Result Z.
Variable parseUnits : string -> Z -> option Z.
Variable World : Type.
Variable request :
  World -> EthereumProvider -> RpcRequest -> Result string * World.

(** [x] is a transfer request for the asset [a]: through [provider], from
    [source] to the contract of [a], moving to [up] either the parsed
    amount (positive, at most the held balance) or one of the asset's token
    ids. *)
Definition exchangeFor (provider : EthereumProvider) (source up : string)
    (a : TokenAsset) (x : Exchange) : Prop :=
  ex_provider x = provider
  /\ match type a with
     | LSP7 =>
         exists n held,
           parseUnits (transferAmount a) (decimals a) = Some n
           /\ BigInt (balance a) = Ok held
           /\ (0 < n <= held)%Z
           /\ ex_request x = lsp7Request source up (address a) n
     | LSP8 =>
         exists id,
           In id (idsOf a)
           /\ ex_request x = lsp8Request source up (address a) id
     end.

(** The exchanges of [log] happened one after the other, from the world
    [w] to the world [w']: each request was put to the world left by the
    answer before it. *)
Inductive Replay : World -> list Exchange -> World -> Prop :=
| replay_done w : Replay w [] w
| replay_next w x w1 log w2 :
    request w (ex_provider x) (ex_request x) = (ex_answer x, w1) ->
    Replay w1 log w2 ->
    Replay w (x :: log) w2.

End RunStatements.

Arguments Replay {World} request _ _ _.

(** The amount field of the asset holds its whole balance, as [formatUnits]
    prints it. *)
Definition holdsMax (BigInt : string -> Result Z)
    (formatUnits : Z -> Z -> string) (t : TokenAsset) : Prop :=
  exists raw, BigInt (balance t) = Ok raw
              /\ transferAmount t = formatUnits raw (decimals t).

(** What the LSP7 loop makes of a row with its asset. *)
Definition tokenOfRow (BigInt : string -> Result Z)
    (formatUnits : Z -> Z -> string)
    (ha : Lsp7Hold * Lsp7Asset) (t : TokenAsset) : Prop :=
  address t = asset_id (snd ha)
  /\ name t = orElse (asset_lsp4TokenName (snd ha)) "Unknown Token"
  /\ symbol t = orElse (asset_lsp4TokenSymbol (snd ha)) "???"
  /\ type t = LSP7
  /\ balance t = hold7_balance (fst ha)
  /\ decimals t = match asset_decimals (snd ha) with
                  | Some d => d
                  | None => 18%Z
                  end
  /\ selected t = true
  /\ tokenIds t = None
  /\ holdsMax BigInt formatUnits t.

(** The asset [a] is the holding [t], whatever its selection and amount
    field. *)
Definition sameHolding (t a : TokenAsset) : Prop :=
  address a = address t /\ name a = name t /\ symbol a = symbol t
  /\ type a = type t /\ balance a = balance t /\ decimals a = decimals t
  /\ iconUrl a = iconUrl t /\ tokenIds a = tokenIds t.

Definition sameHoldings (l l' : list TokenAsset) : Prop :=
  Forall2 sameHolding l l'.

(** The [from] field of a transaction request. *)
Definition requestSender (req : RpcRequest) : option string :=
  match params req with
  | Some (TxParam from _ _ :: _) => Some from
  | _ => None
  end.

(* ===================================================================== *)
(** ** Sample data                                                        *)
(* ===================================================================== *)

(** An announcement whose [info.uuid] is the empty string. *)
Definition blankAnnouncement : AnnounceEvent :=
  {| detail := Some {| info := {| uuid := ""; info_name := "Wallet";
                                  icon := ""; rdns := "com.wallet" |};
                       provider := 0 |} |}.

(** Two announcements with one uuid and different names, and a third
    wallet. *)
Definition firstAnnouncement : AnnounceEvent :=
  {| detail := Some {| info := {| uuid := "350670db"; info_name := "MetaMask";
                                  icon := ""; rdns := "io.metamask" |};
                       provider := 1 |} |}.

Definition repeatedAnnouncement : AnnounceEvent :=
  {| detail := Some {| info := {| uuid := "350670db"; info_name := "Impostor";
                                  icon := ""; rdns := "io.other" |};
                       provider := 2 |} |}.

Definition upAnnouncement : AnnounceEvent :=
  {| detail := Some {| info := {| uuid := "7d1c2f00";
                                  info_name := "Universal Profiles";
                                  icon := ""; rdns := "io.lukso.up" |};
                       provider := 3 |} |}.

(** A wallet that does not know the chain, and one whose user refuses. *)
Definition unknownChainWindow : Window nat :=
  {| ethereum := Some (fun w req =>
       if String.eqb (method req) "wallet_switchEthereumChain"
       then (Throw {| code := Some 4902%Z; shortMessage := None;
                      message := Some "Unrecognized chain ID" |}, S w)
       else (Ok tt, S w));
     lukso := None |}.

Definition refusingWindow : Window nat :=
  {| ethereum := Some (fun w _ =>
       (Throw {| code := Some 4001%Z; shortMessage := None;
                 message := Some "User rejected the request." |}, S w));
     lukso := None |}.

(** A session at step 2: the source wallet is pinned, the destination typed
    in is the same address in capitals. *)
Definition sampleAccount : Account :=
  {| liveAddress := Some "0xabcdef0123"; isSourceConnected := true;
     account_chainId := Some 42%Z; connector := None |}.

Definition sampleSession : AppState :=
  {| step := 2; savedSourceAddress := "0xabcdef0123"; sourceProvider := Some 1;
     upAddress := "0xABCDEF0123"; upConnected := false; upConnecting := false;
     assets := []; scanning := false; scanError := "";
     transferStatuses := []; isTransferring := false;
     switchingNetwork := false; upError := "" |}.

(** A page without [window.ethereum] and without [window.lukso]. *)
Definition bareWindow : Window unit := {| ethereum := None; lukso := None |}.

(** A UP extension that hands out the source address in capitals. *)
Definition sameAccountWindow : Window unit :=
  {| ethereum := None;
     lukso := Some (fun w _ => (Ok (Some ["0xABCDEF0123"]), w)) |}.

(** An indexer whose LSP7 query answers an empty list and whose LSP8 query
    answers HTTP 500. *)
Definition failingIndexer : Indexer :=
  {| fetchLsp7 := fun _ => Response true 200 (Ok {| data := []; errors := None |});
     fetchLsp8 := fun _ => Response false 500 (Ok {| data := []; errors := None |});
     lsp8SettlesFirst := false |}.

(** An indexer whose LSP7 query answers a GraphQL error. *)
Definition gqlErrorIndexer : Indexer :=
  {| fetchLsp7 := fun _ =>
       Response true 200
         (Ok {| data := [];
                errors := Some [ {| gql_message := Some "field not found" |};
                                 {| gql_message := Some "second" |} ] |});
     fetchLsp8 := fun _ => Response true 200 (Ok {| data := []; errors := None |});
     lsp8SettlesFirst := false |}.

(** A stand-in for [parseUnits] on whole numbers: a non-empty string of
    digits is scaled by the decimals, anything else is rejected. *)
Fixpoint allDigits (s : string) : bool :=
  match s with
  | EmptyString => true
  | String c r =>
      match digitOf c with
      | Some _ => allDigits r
      | None => false
      end
  end.

Definition sampleParseUnits (value : string) (decimals : Z) : option Z :=
  if allDigits value
  then option_map (fun n => (Z.of_nat n * 10 ^ decimals)%Z) (parseInt value)
  else None.

(** A stand-in for [BigInt] on decimal literals (the empty string is 0,
    anything but digits throws) and a [formatUnits] that prints the raw
    integer, for the examples. *)
Definition sampleBigInt (s : string) : Result Z :=
  if String.eqb s "" then Ok 0%Z
  else if allDigits s
  then match parseInt s with
       | Some n => Ok (Z.of_nat n)
       | None => Throw (newError "Cannot convert to a BigInt")
       end
  else Throw (newError "Cannot convert to a BigInt").

Definition sampleFormatUnits (raw _ : Z) : string :=
  String_ (Some (Z.to_nat raw)).

(** A session at step 2 whose destination differs from the source. *)
Definition scanSession : AppState :=
  {| step := 2; savedSourceAddress := "0xabcdef0123"; sourceProvider := Some 1;
     upAddress := "0x9999"; upConnected := false; upConnecting := false;
     assets := []; scanning := false; scanError := "";
     transferStatuses := []; isTransferring := false;
     switchingNetwork := false; upError := "" |}.

(** An LSP8 answer with two tokens of one collection and one of another,
    and an LSP7 answer with one holding. *)
Definition punksBase : BaseAsset :=
  {| base_id := "0xc011"; base_lsp4TokenName := Some "Punks";
     base_lsp4TokenSymbol := None; base_icons := None |}.

Definition birdsBase : BaseAsset :=
  {| base_id := "0xb12d"; base_lsp4TokenName := None;
     base_lsp4TokenSymbol := Some "BRD"; base_icons := Some [] |}.

Definition nftRows : list Lsp8Hold :=
  [ {| hold8_balance := "1"; token_id := "0xc011-0x01";
       baseAsset_id := "0xc011"; baseAsset := Some punksBase |};
    {| hold8_balance := "1"; token_id := "0xb12d-0x07";
       baseAsset_id := "0xb12d"; baseAsset := Some birdsBase |};
    {| hold8_balance := "1"; token_id := "0xc011-0x02";
       baseAsset_id := "0xc011"; baseAsset := Some punksBase |} ].

Definition coinRows : list Lsp7Hold :=
  [ {| hold7_balance := "500";
       asset := Some {| asset_id := "0xc014"; asset_lsp4TokenName := Some "Coin";
                        asset_lsp4TokenSymbol := Some "CN";
                        asset_decimals := Some 0%Z; asset_icons := None |} |} ].

Definition nftIndexer : Indexer :=
  {| fetchLsp7 := fun _ =>
       Response true 200 (Ok {| data := coinRows; errors := None |});
     fetchLsp8 := fun _ =>
       Response true 200 (Ok {| data := nftRows; errors := None |});
     lsp8SettlesFirst := false |}.

Definition userRejected : JsError :=
  {| code := Some 4001%Z; shortMessage := None;
     message := Some "User rejected the request." |}.

(** The contract a request is sent to. *)
Definition requestTarget (req : RpcRequest) : string :=
  match params req with
  | Some (TxParam _ to _ :: _) => to
  | _ => ""
  end.

(** The addresses and token ids of the transfer examples: 20 and 32 bytes
    in lower-case hexadecimal. *)
Definition aliceAddress : string :=
  "0x1111111111111111111111111111111111111111".

Definition profileAddress : string :=
  "0x2222222222222222222222222222222222222222".

Definition coinAAddress : string :=
  "0xaaaaaaaaaaaaaaaaaaaaaaaaaaaaaaaaaaaaaaaa".

Definition refusedAddress : string :=
  "0xbadbadbadbadbadbadbadbadbadbadbadbadbadb".

Definition punksAddress : string :=
  "0xc011c011c011c011c011c011c011c011c011c011".

Definition birdsAddress : string :=
  "0xb12db12db12db12db12db12db12db12db12db12d".

Definition tokenOne : string :=
  "0x0000000000000000000000000000000000000000000000000000000000000001".

Definition tokenTwo : string :=
  "0x0000000000000000000000000000000000000000000000000000000000000002".

Definition tokenSeven : string :=
  "0x0000000000000000000000000000000000000000000000000000000000000007".

(** A stand-in for the argument check of viem's [encodeFunctionData]: it
    accepts an address of 20 bytes and a token id of 32 bytes written with
    the digits 0-9 and a-f after 0x, and an amount in the range of uint256,
    and rejects the first argument that is not so.  (viem also accepts an
    address with capital letters when they form its checksum; the examples
    have none.  The texts stand for those of viem's errors.) *)
Definition isHexDigit (c : ascii) : bool :=
  let n := nat_of_ascii c in
  ((48 <=? n) && (n <=? 57)) || ((97 <=? n) && (n <=? 102)).

Fixpoint allHex (s : string) : bool :=
  match s with
  | EmptyString => true
  | String c r => isHexDigit c && allHex r
  end.

Definition isHexOfBytes (k : nat) (s : string) : bool :=
  startsWith s "0x"
  && (String.length (dropChars 2 s) =? 2 * k)
  && allHex (dropChars 2 s).

Definition sampleValueError (v : AbiValue) : option JsError :=
  match v with
  | VAddress a =>
      if isHexOfBytes 20 a then None
      else Some {| code := None; shortMessage := Some "Address is invalid.";
                   message := Some "Address is invalid." |}
  | VBytes32 h =>
      if isHexOfBytes 32 h then None
      else Some {| code := None;
                   shortMessage := Some "Size of bytes does not match expected size (bytes32).";
                   message := Some "Size of bytes does not match expected size (bytes32)." |}
  | VUint n =>
      if ((0 <=? n) && (n <? 2 ^ 256))%Z then None
      else Some {| code := None;
                   shortMessage := Some "Number is not in safe 256-bit unsigned integer range.";
                   message := Some "Number is not in safe 256-bit unsigned integer range." |}
  | VBool _ => None
  | VBytes _ => None
  end.

Fixpoint firstError (args : list AbiValue) : option JsError :=
  match args with
  | [] => None
  | v :: rest =>
      match sampleValueError v with
      | Some e => Some e
      | None => firstError rest
      end
  end.

Definition sampleEncodeError (_ : AbiFunction) (_ : string)
    (args : list AbiValue) : option JsError :=
  firstError args.

(** A wallet that counts its requests: it rejects every transaction to the
    contract [refusedAddress] and answers the others with a hash made of the
    count. *)
Definition walletRequest (w : nat) (_ : EthereumProvider) (req : RpcRequest)
    : Result string * nat :=
  if String.eqb (requestTarget req) refusedAddress
  then (Throw userRejected, S w)
  else (Ok (String.append "0xhash" (String_ (Some w))), S w).

(** A wallet whose user rejects everything. *)
Definition rejectAll (w : nat) (_ : EthereumProvider) (_ : RpcRequest)
    : Result string * nat :=
  (Throw userRejected, S w).

Definition coinA : TokenAsset :=
  {| address := coinAAddress; name := "Coin A"; symbol := "CA"; type := LSP7;
     balance := "10"; decimals := 0; selected := true; iconUrl := None;
     tokenIds := None; transferAmount := "5" |}.

Definition coinBad : TokenAsset :=
  {| address := refusedAddress; name := "Coin B"; symbol := "CB";
     type := LSP7;
     balance := "10"; decimals := 0; selected := true; iconUrl := None;
     tokenIds := None; transferAmount := "1" |}.

Definition twoPunks : TokenAsset :=
  {| address := punksAddress; name := "Punks"; symbol := "???"; type := LSP8;
     balance := "2"; decimals := 0; selected := true; iconUrl := None;
     tokenIds := Some [tokenOne; tokenTwo]; transferAmount := "1" |}.

Definition noPunks : TokenAsset :=
  {| address := "0xe0e0e0e0e0e0e0e0e0e0e0e0e0e0e0e0e0e0e0e0"; name := "Gone";
     symbol := "???"; type := LSP8;
     balance := "0"; decimals := 0; selected := true; iconUrl := None;
     tokenIds := Some []; transferAmount := "1" |}.

Definition unselectedCoin : TokenAsset :=
  {| address := "0xdddddddddddddddddddddddddddddddddddddddd"; name := "Coin D";
     symbol := "CD"; type := LSP7;
     balance := "7"; decimals := 0; selected := false; iconUrl := None;
     tokenIds := None; transferAmount := "7" |}.

(** A session at step 3 with the given ledger. *)
Definition transferSession (ledger : list TokenAsset) : AppState :=
  {| step := 3; savedSourceAddress := aliceAddress; sourceProvider := Some 1;
     upAddress := profileAddress; upConnected := false; upConnecting := false;
     assets := ledger; scanning := false; scanError := "";
     transferStatuses := []; isTransferring := false;
     switchingNetwork := false; upError := "" |}.

Definition threeAssets : AppState :=
  transferSession [coinA; unselectedCoin; coinBad; twoPunks].

Definition zeroCoin : TokenAsset :=
  {| address := "0xf0f0f0f0f0f0f0f0f0f0f0f0f0f0f0f0f0f0f0f0"; name := "Zero";
     symbol := "Z"; type := LSP7;
     balance := "10"; decimals := 0; selected := true; iconUrl := None;
     tokenIds := None; transferAmount := "0" |}.

Definition junkCoin : TokenAsset :=
  {| address := "0xf1f1f1f1f1f1f1f1f1f1f1f1f1f1f1f1f1f1f1f1"; name := "Junk";
     symbol := "J"; type := LSP7;
     balance := "10"; decimals := 0; selected := true; iconUrl := None;
     tokenIds := None; transferAmount := "abc" |}.

Definition greedyCoin : TokenAsset :=
  {| address := "0xf2f2f2f2f2f2f2f2f2f2f2f2f2f2f2f2f2f2f2f2"; name := "Greedy";
     symbol := "G"; type := LSP7;
     balance := "10"; decimals := 0; selected := true; iconUrl := None;
     tokenIds := None; transferAmount := "11" |}.

Definition validationSession : AppState :=
  transferSession [zeroCoin; junkCoin; greedyCoin; coinA].

Definition stuckSession : AppState := transferSession [noPunks; coinA].

Definition punksSession : AppState := transferSession [twoPunks].

(** A session whose destination was typed with digits missing: no address
    for viem. *)
Definition typoSession : AppState :=
  {| step := 3; savedSourceAddress := aliceAddress; sourceProvider := Some 1;
     upAddress := "0x2222"; upConnected := false; upConnecting := false;
     assets := [coinA]; scanning := false; scanError := "";
     transferStatuses := []; isTransferring := false;
     switchingNetwork := false; upError := "" |}.



(** A collection whose second token id is one byte long. *)
Definition shortIdPunks : TokenAsset :=
  {| address := punksAddress; name := "Punks"; symbol := "???"; type := LSP8;
     balance := "2"; decimals := 0; selected := true; iconUrl := None;
     tokenIds := Some [tokenOne; "0x02"]; transferAmount := "1" |}.

Definition shortIdSession : AppState := transferSession [shortIdPunks].

(** An indexer that answers with well-formed contract addresses and token
    ids. *)
Definition tidyIndexer : Indexer :=
  {| fetchLsp7 := fun _ =>
       Response true 200
         (Ok {| data :=
                  [ {| hold7_balance := "500";
                       asset := Some {| asset_id := coinAAddress;
                                        asset_lsp4TokenName := Some "Coin";
                                        asset_lsp4TokenSymbol := Some "CN";
                                        asset_decimals := Some 0%Z;
                                        asset_icons := None |} |} ];
                errors := None |});
     fetchLsp8 := fun _ =>
       Response true 200
         (Ok {| data :=
                  [ {| hold8_balance := "1";
                       token_id := String.append punksAddress
                                     (String "-" tokenOne);
                       baseAsset_id := punksAddress;
                       baseAsset := Some {| base_id := punksAddress;
                                            base_lsp4TokenName := Some "Punks";
                                            base_lsp4TokenSymbol := None;
                                            base_icons := None |} |};
                    {| hold8_balance := "1";
                       token_id := String.append birdsAddress
                                     (String "-" tokenSeven);
                       baseAsset_id := birdsAddress;
                       baseAsset := Some {| base_id := birdsAddress;
                                            base_lsp4TokenName := None;
                                            base_lsp4TokenSymbol := Some "BRD";
                                            base_icons := Some [] |} |};
                    {| hold8_balance := "1";
                       token_id := String.append punksAddress
                                     (String "-" tokenTwo);
                       baseAsset_id := punksAddress;
                       baseAsset := Some {| base_id := punksAddress;
                                            base_lsp4TokenName := Some "Punks";
                                            base_lsp4TokenSymbol := None;
                                            base_icons := None |} |} ];
                errors := None |});
     lsp8SettlesFirst := false |}.

(** The ledger of [coinA] after MAX. *)
Definition maxedCoin : TokenAsset := withTransferAmount "10" coinA.

Definition maxedSession : AppState := transferSession [maxedCoin].

(** A UP extension that hands out two accounts. *)
Definition upWindow : Window unit :=
  {| ethereum := None;
     lukso := Some (fun w _ => (Ok (Some ["0x7777"; "0x8888"]), w)) |}.

(** The page as it opens, and an account connected through MetaMask on
    LUKSO. *)
Definition freshSession : AppState :=
  {| step := 1; savedSourceAddress := ""; sourceProvider := None;
     upAddress := ""; upConnected := false; upConnecting := false;
     assets := []; scanning := false; scanError := "";
     transferStatuses := []; isTransferring := false;
     switchingNetwork := false; upError := "" |}.

Definition metamaskWallet : EIP6963ProviderDetail :=
  {| info := {| uuid := "350670db"; info_name := "MetaMask";
                icon := ""; rdns := "io.metamask" |};
     provider := 1 |}.

Definition metamaskAccount : Account :=
  {| liveAddress := Some "0xabcdef0123"; isSourceConnected := true;
     account_chainId := Some 42%Z;
     connector := Some {| connector_id := "io.metamask";
                          connector_name := Some "MetaMask";
                          getProvider := Ok (Some 1) |} |}.

(** The same wallet after its user moved to another account and chain. *)
Definition movedAccount : Account :=
  {| liveAddress := Some "0x5555"; isSourceConnected := true;
     account_chainId := Some 1%Z;
     connector := Some {| connector_id := "io.lukso.up";
                          connector_name := Some "Universal Profiles";
                          getProvider := Ok (Some 3) |} |}.

(** What the scan of the sample indexer returns. *)
Definition scannedTokens : list TokenAsset :=
  match fst (fetchTokensForAddress sampleBigInt sampleFormatUnits nftIndexer
               "0xabcdef0123") with
  | Ok tokens => tokens
  | Throw _ => []
  end.

(** What the scan of the indexer with well-formed addresses returns, and a
    session at step 3 whose ledger is that list with the second collection
    deselected. *)
Definition tidyTokens : list TokenAsset :=
  match fst (fetchTokensForAddress sampleBigInt sampleFormatUnits tidyIndexer
               aliceAddress) with
  | Ok tokens => tokens
  | Throw _ => []
  end.

Definition scannedSession : AppState :=
  transferSession (toggleAsset birdsAddress tidyTokens).

(* ===================================================================== *)
(** * Properties                                                          *)
(* ===================================================================== *)

(** ** Strings *)

Lemma startsWith_iff (s f : string) :
  startsWith s f = true <-> exists post, s = String.append f post.
Proof.
  revert s. induction f as [|d f IH]; intros s; simpl.
  - split; [intros _; now exists s | reflexivity].
  - destruct s as [|c s].
    + split; [discriminate | intros [post H]; discriminate].
    + rewrite andb_true_iff, Ascii.eqb_eq, IH. split.
      * intros [-> [post ->]]. now exists post.
      * intros [post H]. injection H as -> ->. split; [reflexivity | now exists post].
Qed.

Lemma includes_iff (s f : string) :
  includes s f = true <->
  exists pre post, s = String.append pre (String.append f post).
Proof.
  induction s as [|c s IH].
  - simpl. rewrite orb_false_r, startsWith_iff. split.
    + intros [post H]. now exists "", post.
    + intros [pre [post H]]. destruct pre; [now exists post | discriminate].
  - cbn [includes]. rewrite orb_true_iff, startsWith_iff, IH. split.
    + intros [[post H] | [pre [post H]]].
      * now exists "", post.
      * exists (String c pre), post. simpl. now rewrite H.
    + intros [pre [post H]]. destruct pre as [|c' pre].
      * left. now exists post.
      * right. simpl in H. injection H as _ H. now exists pre, post.
Qed.

Lemma isUpper_range (c : ascii) :
  isUpper c = true <-> 65 <= nat_of_ascii c <= 90.
Proof.
  unfold isUpper. rewrite andb_true_iff, !Nat.leb_le. reflexivity.
Qed.

Lemma lowerChar_capital (c : ascii) :
  isUpper c = true -> nat_of_ascii (lowerChar c) = nat_of_ascii c + 32.
Proof.
  intros H. unfold lowerChar. rewrite H.
  apply isUpper_range in H. apply nat_ascii_embedding. lia.
Qed.

Lemma lowerChar_other (c : ascii) : isUpper c = false -> lowerChar c = c.
Proof. intros H. unfold lowerChar. now rewrite H. Qed.

Lemma nat_of_ascii_inj (c d : ascii) :
  nat_of_ascii c = nat_of_ascii d -> c = d.
Proof.
  intros H. rewrite <- (ascii_nat_embedding c), <- (ascii_nat_embedding d).
  now rewrite H.
Qed.

Lemma not_upper_range (c : ascii) :
  isUpper c = false <-> ~ (65 <= nat_of_ascii c <= 90).
Proof.
  rewrite <- isUpper_range. destruct (isUpper c); split; congruence.
Qed.

Lemma lowerChar_eq_iff (c d : ascii) :
  lowerChar c = lowerChar d <-> sameLetter c d.
Proof.
  unfold sameLetter, lowerOfCapital. split.
  - intros H. apply (f_equal nat_of_ascii) in H.
    destruct (isUpper c) eqn:Hc, (isUpper d) eqn:Hd.
    + rewrite !lowerChar_capital in H by assumption.
      left. apply nat_of_ascii_inj. lia.
    + rewrite lowerChar_capital, (lowerChar_other d) in H by assumption.
      apply isUpper_range in Hc. right; left. lia.
    + rewrite (lowerChar_other c), lowerChar_capital in H by assumption.
      apply isUpper_range in Hd. right; right. lia.
    + rewrite !lowerChar_other in H by assumption.
      left. now apply nat_of_ascii_inj.
  - intros [-> | [[Hr He] | [Hr He]]]; [reflexivity | |]; apply nat_of_ascii_inj.
    + assert (Hc : isUpper c = true) by now apply isUpper_range.
      assert (Hd : isUpper d = false) by (apply not_upper_range; lia).
      rewrite lowerChar_capital, (lowerChar_other d) by assumption. lia.
    + assert (Hd : isUpper d = true) by now apply isUpper_range.
      assert (Hc : isUpper c = false) by (apply not_upper_range; lia).
      rewrite (lowerChar_other c), lowerChar_capital by assumption. lia.
Qed.

Lemma toLowerCase_eq_iff (s t : string) :
  toLowerCase s = toLowerCase t <-> sameIgnoringCase s t.
Proof.
  split.
  - revert t. induction s as [|c s IH]; intros [|d t] H; simpl in H;
      try discriminate.
    + constructor.
    + injection H as Hc Hs. constructor; [now apply lowerChar_eq_iff | now apply IH].
  - induction 1 as [|c d s t Hcd _ IH]; simpl; [reflexivity|].
    apply lowerChar_eq_iff in Hcd. now rewrite Hcd, IH.
Qed.

(** ** Provider Registry *)

(** C9: [isUPWallet] is true exactly when the lower-cased string contains
    one of the four configured tokens, so it does not depend on the case of
    its argument; a provider is missing from [legacyWallets] exactly when
    its rdns or its name is classified; ["io.lukso.up"] is classified and
    ["io.metamask"] is not. *)
Theorem isUPWallet_classification :
  UP_FILTERS = ["universalprofile"; "lukso"; "universal profile"; "universal-profile"]
  /\ (forall value : string,
        isUPWallet value = true <->
        exists f pre post,
          In f UP_FILTERS /\
          toLowerCase value = String.append pre (String.append f post))
  /\ (forall v w : string,
        sameIgnoringCase v w -> isUPWallet v = isUPWallet w)
  /\ (forall (allProviders : list EIP6963ProviderDetail) p,
        In p allProviders ->
        (~ In p (legacyWallets allProviders) <->
         isUPWallet (rdns (info p)) = true \/
         isUPWallet (info_name (info p)) = true))
  /\ (forall allProviders p,
        In p (legacyWallets allProviders) -> In p allProviders)
  /\ isUPWallet "io.lukso.up" = true
  /\ isUPWallet "io.metamask" = false.
Proof.
  split; [reflexivity|]. split; [|split; [|split; [|split; [|split]]]].
  - intros value. unfold isUPWallet. rewrite existsb_exists. split.
    + intros [f [Hin Hf]]. apply includes_iff in Hf as [pre [post H]].
      now exists f, pre, post.
    + intros [f [pre [post [Hin H]]]]. exists f. split; [assumption|].
      apply includes_iff. now exists pre, post.
  - intros v w H. apply toLowerCase_eq_iff in H. unfold isUPWallet.
    now rewrite H.
  - intros allProviders p Hin. unfold legacyWallets. rewrite filter_In.
    destruct (isUPWallet (rdns (info p))), (isUPWallet (info_name (info p)));
      simpl; split; intros H;
      try (now left); try (now right);
      try (intros [_ Hf]; discriminate).
    + exfalso. apply H. now split.
    + destruct H; discriminate.
  - intros allProviders p H. unfold legacyWallets in H.
    now apply filter_In in H.
  - reflexivity.
  - reflexivity.
Qed.

Lemma existsb_uuid (u : string) (prev : list EIP6963ProviderDetail) :
  existsb (fun p => String.eqb (uuid (info p)) u) prev = true <->
  In u (map uuidOf prev).
Proof.
  rewrite existsb_exists, in_map_iff. unfold uuidOf.
  split; intros [p [H1 H2]]; exists p.
  - apply String.eqb_eq in H2. now split.
  - split; [assumption | now apply String.eqb_eq].
Qed.

Lemma handleAnnouncement_known prev e d :
  detail e = Some d -> In (uuidOf d) (map uuidOf prev) ->
  handleAnnouncement prev e = prev.
Proof.
  intros Hd Hin. unfold handleAnnouncement. rewrite Hd.
  destruct (String.eqb (uuid (info d)) ""); [reflexivity|].
  apply existsb_uuid in Hin. unfold uuidOf in Hin. now rewrite Hin.
Qed.

Lemma nonEmptyUuids_cons e events :
  nonEmptyUuids (e :: events) =
  match detail e with
  | Some d => if String.eqb (uuidOf d) "" then nonEmptyUuids events
              else uuidOf d :: nonEmptyUuids events
  | None => nonEmptyUuids events
  end.
Proof.
  unfold nonEmptyUuids, announcedUuids, uuidOf. simpl.
  destruct (detail e) as [d|]; simpl; [|reflexivity].
  now destruct (String.eqb (uuid (info d)) "").
Qed.

(** The registry reached from [prev]: no uuid twice, and exactly the uuids
    of [prev] and the non-empty ones announced. *)
Lemma registry_fold (events : list AnnounceEvent) :
  forall prev,
    NoDup (map uuidOf prev) ->
    NoDup (map uuidOf (fold_left handleAnnouncement events prev)) /\
    (forall u, In u (map uuidOf (fold_left handleAnnouncement events prev)) <->
               In u (map uuidOf prev) \/ In u (nonEmptyUuids events)).
Proof.
  induction events as [|e events IH]; intros prev Hnd.
  - simpl. split; [assumption | intros u; tauto].
  - cbn [fold_left]. rewrite nonEmptyUuids_cons.
    unfold handleAnnouncement at 2 4.
    destruct (detail e) as [d|]; [|now apply IH].
    fold (uuidOf d). destruct (String.eqb (uuidOf d) "") eqn:Hblank;
      [now apply IH|].
    destruct (existsb _ prev) eqn:Hex.
    + apply existsb_uuid in Hex. destruct (IH prev Hnd) as [H1 H2].
      split; [assumption|]. intros u. rewrite H2. simpl.
      split; [tauto|]. intros [H | [<- | H]]; tauto.
    + assert (Hnew : ~ In (uuidOf d) (map uuidOf prev)).
      { intros Hin. apply existsb_uuid in Hin. congruence. }
      assert (Hnd' : NoDup (map uuidOf (prev ++ [d]))).
      { rewrite map_app. simpl. apply NoDup_app; [assumption | | ].
        - constructor; [intros [] | constructor].
        - intros u Hu [<- | []]. contradiction. }
      destruct (IH (prev ++ [d]) Hnd') as [H1 H2].
      split; [assumption|]. intros u. rewrite H2, map_app, in_app_iff. simpl.
      tauto.
Qed.

(** Every provider of the registry reached from [prev] was in [prev] or is
    the detail of the first announcement with its uuid. *)
Lemma registry_first (events : list AnnounceEvent) :
  forall prev d,
    In d (fold_left handleAnnouncement events prev) ->
    In d prev
    \/ (uuidOf d <> ""
        /\ ~ In (uuidOf d) (map uuidOf prev)
        /\ exists e, find (announces (uuidOf d)) events = Some e
                     /\ detail e = Some d).
Proof.
  induction events as [|e events IH]; intros prev d Hd; [now left|].
  cbn [fold_left] in Hd. apply IH in Hd.
  unfold handleAnnouncement in Hd. cbn [find]. unfold announces at 1.
  destruct (detail e) as [d0|] eqn:Hd0; [|exact Hd].
  fold (uuidOf d0) in Hd |- *.
  destruct (String.eqb_spec (uuidOf d0) "") as [Hblank | Hfull].
  - destruct Hd as [Hd | [Hne [Hnew Hfirst]]]; [now left|]. right.
    destruct (String.eqb_spec (uuidOf d0) (uuidOf d)) as [Heq | _];
      [congruence | now repeat split].
  - destruct (existsb _ prev) eqn:Hex.
    + apply existsb_uuid in Hex.
      destruct Hd as [Hd | [Hne [Hnew Hfirst]]]; [now left|]. right.
      destruct (String.eqb_spec (uuidOf d0) (uuidOf d)) as [Heq | _];
        [exfalso; apply Hnew; now rewrite <- Heq | now repeat split].
    + assert (Hfresh : ~ In (uuidOf d0) (map uuidOf prev)).
      { intros Hin. apply existsb_uuid in Hin. congruence. }
      destruct Hd as [Hd | [Hne [Hnew Hfirst]]].
      * apply in_app_iff in Hd as [Hd | [<- | []]]; [now left|]. right.
        rewrite String.eqb_refl. split; [assumption|].
        split; [assumption|]. now exists e.
      * right. rewrite map_app, in_app_iff in Hnew.
        destruct (String.eqb_spec (uuidOf d0) (uuidOf d)) as [Heq | _].
        -- exfalso. apply Hnew. right. left. exact Heq.
        -- split; [assumption|]. split; [tauto | assumption].
Qed.

(** C8, amended: an announcement whose uuid is already recorded leaves the
    registry as it is, one that carries no uuid or an empty one is ignored,
    no uuid is recorded twice, every recorded provider is the first one
    announced with its uuid, and the size of the registry is the number of
    distinct non-empty uuids announced. *)
Theorem registry_deduplicates (events : list AnnounceEvent) :
  (forall prev e d,
      detail e = Some d -> In (uuidOf d) (map uuidOf prev) ->
      handleAnnouncement prev e = prev)
  /\ (forall prev e,
        detail e = None \/ (exists d, detail e = Some d /\ uuidOf d = "") ->
        handleAnnouncement prev e = prev)
  /\ NoDup (map uuidOf (useEIP6963Providers events))
  /\ (forall u, In u (map uuidOf (useEIP6963Providers events)) <->
                In u (nonEmptyUuids events))
  /\ (forall d, In d (useEIP6963Providers events) ->
        exists e, find (announces (uuidOf d)) events = Some e
                  /\ detail e = Some d)
  /\ List.length (useEIP6963Providers events) =
     distinctCount (nonEmptyUuids events).
Proof.
  destruct (registry_fold events [] (NoDup_nil _)) as [Hnd Hin].
  fold (useEIP6963Providers events) in Hnd, Hin.
  assert (Hmem : forall u, In u (map uuidOf (useEIP6963Providers events)) <->
                           In u (nonEmptyUuids events)).
  { intros u. rewrite Hin. simpl. tauto. }
  repeat split.
  - intros prev e d. apply handleAnnouncement_known.
  - intros prev e [Hn | [d [Hd Hu]]]; unfold handleAnnouncement.
    + now rewrite Hn.
    + rewrite Hd. unfold uuidOf in Hu. now rewrite Hu.
  - assumption.
  - apply Hmem.
  - apply Hmem.
  - intros d Hd. unfold useEIP6963Providers in Hd.
    destruct (registry_first events [] d Hd) as [[] | [_ [_ H]]]. exact H.
  - unfold distinctCount.
    rewrite <- (length_map uuidOf (useEIP6963Providers events)).
    apply Permutation.Permutation_length, Permutation.NoDup_Permutation.
    + assumption.
    + apply NoDup_nodup.
    + intros u. rewrite Hmem, nodup_In. tauto.
Qed.

(** Two announcements with one uuid: the first is kept, the second
    dropped. *)
Example registry_first_wins_example :
  map (fun p => (uuidOf p, info_name (info p)))
      (useEIP6963Providers
         [firstAnnouncement; upAnnouncement; repeatedAnnouncement;
          blankAnnouncement])
  = [("350670db", "MetaMask"); ("7d1c2f00", "Universal Profiles")]
  /\ map uuidOf
       (legacyWallets
          (useEIP6963Providers
             [firstAnnouncement; upAnnouncement; repeatedAnnouncement]))
     = ["350670db"].
Proof. split; reflexivity. Qed.

(** C8 as stated fails: an announcement with an empty uuid is dropped by the
    guard of the listener, so one uuid was seen and none is recorded. *)
Lemma registry_size_counterexample :
  List.length (useEIP6963Providers [blankAnnouncement]) = 0
  /\ distinctCount (announcedUuids [blankAnnouncement]) = 1
  /\ ~ (forall events,
          List.length (useEIP6963Providers events) =
          distinctCount (announcedUuids events)).
Proof.
  split; [reflexivity|]. split; [reflexivity|].
  intros H. specialize (H [blankAnnouncement]). discriminate H.
Qed.

(** ** Session *)

Lemma eqb_empty_false (s : string) : s <> "" -> String.eqb s "" = false.
Proof. intros H. now apply String.eqb_neq. Qed.

Lemma isSameAddress_iff acct app source :
  sourceAddress acct app = Some source -> source <> "" -> upAddress app <> "" ->
  (isSameAddress acct app = true <-> sameIgnoringCase (upAddress app) source).
Proof.
  intros Hs Hne Hup. unfold isSameAddress. rewrite Hs.
  rewrite (eqb_empty_false _ Hne), (eqb_empty_false _ Hup). simpl.
  now rewrite String.eqb_eq, toLowerCase_eq_iff.
Qed.

(** C7: with both addresses set, [isSameAddress] holds exactly when they
    differ at most in the case of their letters; a UP extension account that
    equals the saved source address up to case is refused with an error and
    is not bound; [handleFindAssets] with equal addresses sets an error,
    sends no query and keeps the step. *)
Theorem same_address_blocks :
  (forall acct app source,
      sourceAddress acct app = Some source -> source <> "" ->
      upAddress app <> "" ->
      (isSameAddress acct app = true <->
       sameIgnoringCase (upAddress app) source))
  /\ (forall (World : Type) (win : Window World) app w request upAddr rest w1,
        lukso win = Some request ->
        request w accountsRequest = (Ok (Some (upAddr :: rest)), w1) ->
        sameIgnoringCase upAddr (savedSourceAddress app) ->
        let app' := fst (fst (handleConnectUPExtension win app w)) in
        upError app' =
          "This is the same address as your source wallet. Please connect a different Universal Profile."
        /\ upAddress app' = upAddress app
        /\ upConnected app' = upConnected app
        /\ step app' = step app)
  /\ (forall BigInt formatUnits ix acct app source,
        sourceAddress acct app = Some source -> source <> "" ->
        upAddress app <> "" ->
        sameIgnoringCase (upAddress app) source ->
        let app' := fst (handleFindAssets BigInt formatUnits ix acct app) in
        snd (handleFindAssets BigInt formatUnits ix acct app) = []
        /\ scanError app' =
             "Source and destination addresses are the same. Please use different wallets."
        /\ step app' = step app
        /\ assets app' = assets app)
  /\ isSameAddress sampleAccount sampleSession = true
  /\ upAddress sampleSession <> savedSourceAddress sampleSession
  /\ upConnected
       (fst (fst (handleConnectUPExtension sameAccountWindow sampleSession tt)))
     = false
  /\ handleFindAssets sampleBigInt sampleFormatUnits failingIndexer
       sampleAccount sampleSession
     = (setScanError
          "Source and destination addresses are the same. Please use different wallets."
          sampleSession, []).
Proof.
  split; [exact isSameAddress_iff|].
  split; [|split; [|repeat split; try reflexivity; discriminate]].
  - intros World win app w request upAddr rest w1 Hl Hr Hsame.
    apply toLowerCase_eq_iff in Hsame.
    unfold handleConnectUPExtension. rewrite Hl, Hr, Hsame, String.eqb_refl.
    destruct app; simpl. repeat split.
  - intros BigInt formatUnits ix acct app source Hs Hne Hup Hsame.
    assert (Hsa : isSameAddress acct app = true)
      by now apply (isSameAddress_iff acct app source).
    unfold handleFindAssets. rewrite Hs, Hsa.
    rewrite (eqb_empty_false _ Hne), (eqb_empty_false _ Hup). simpl.
    destruct app; simpl. repeat split.
Qed.

(** Closes one direction of an equivalence whose two sides are already
    known to hold or to fail. *)
Ltac settle_iff :=
  intros;
  first [ reflexivity | assumption | contradiction
        | match goal with H : _ = _ |- _ => vm_compute in H; discriminate H end ].

(** C6, amended: without [window.ethereum], [handleSwitchToLukso] makes no
    request and leaves the world as it was.  With it, the handler first
    sends [wallet_switchEthereumChain] for chain 0x2a; it then sends
    [wallet_addEthereumChain] with the whole LUKSO descriptor, once, exactly
    when the switch was rejected with code 4902, and nothing more
    otherwise.  Either way [switchingNetwork] is off at the end. *)
Theorem switch_falls_back_to_add (World : Type) (win : Window World)
    (app : AppState) (w : World) :
  let out := handleSwitchToLukso win app w in
  let requests := snd out in
  (ethereum win = None -> requests = [] /\ snd (fst out) = w)
  /\ (forall request,
        ethereum win = Some request ->
        let unrecognized :=
          exists e, fst (request w switchRequest) = Throw e
                    /\ code e = Some 4902%Z in
        (exists rest, requests = switchRequest :: rest)
        /\ (unrecognized <-> requests = [switchRequest; addRequest])
        /\ (~ unrecognized <-> requests = [switchRequest])
        /\ (unrecognized <->
            countMethod "wallet_addEthereumChain" requests = 1)
        /\ (~ unrecognized <->
            countMethod "wallet_addEthereumChain" requests = 0))
  /\ switchingNetwork (fst (fst out)) = false
  /\ switchRequest =
       {| method := "wallet_switchEthereumChain";
          params := Some [ChainIdParam "0x2a"] |}
  /\ addRequest =
       {| method := "wallet_addEthereumChain";
          params := Some [ChainParam
            {| chainId := "0x2a";
               chainName := "LUKSO Mainnet";
               nativeCurrency := {| currency_name := "LUKSO";
                                    currency_symbol := "LYX";
                                    currency_decimals := 18 |};
               rpcUrls := ["https://rpc.mainnet.lukso.network"];
               blockExplorerUrls :=
                 ["https://explorer.execution.mainnet.lukso.network"] |}] |}.
Proof.
  cbv zeta. unfold handleSwitchToLukso.
  destruct (ethereum win) as [request|] eqn:Hwin.
  2:{ split; [intros _; now split|]. split; [intros request H; discriminate|].
      split; [now destruct app|]. now split. }
  split; [intros H; discriminate|].
  assert (Hflag :
    switchingNetwork
      (fst (fst
         (match request w switchRequest with
          | (Ok _, w1) =>
              (setSwitchingNetwork false (setSwitchingNetwork true app), w1,
               [switchRequest])
          | (Throw switchError, w1) =>
              if codeIs 4902 switchError
              then
                let (_, w2) := request w1 addRequest in
                (setSwitchingNetwork false (setSwitchingNetwork true app),
                 w2, [switchRequest; addRequest])
              else
                (setSwitchingNetwork false (setSwitchingNetwork true app),
                 w1, [switchRequest])
          end))) = false).
  { destruct (request w switchRequest) as [[u | e] w1].
    - now destruct app.
    - destruct (codeIs 4902 e); [|now destruct app].
      destruct (request w1 addRequest). now destruct app. }
  split; [|split; [exact Hflag | now split]].
  intros request' Heq. injection Heq as <-.
  destruct (request w switchRequest) as [[u | e] w1] eqn:Hreq; cbn [fst snd].
  - assert (Hno : ~ (exists e, @Ok unit u = Throw e /\ code e = Some 4902%Z))
      by (intros [e [He _]]; discriminate).
    split; [now exists [] |].
    repeat split; settle_iff.
  - destruct (codeIs 4902 e) eqn:Hcode.
    + assert (Hyes : exists e0, @Throw unit e = Throw e0 /\ code e0 = Some 4902%Z).
      { exists e. split; [reflexivity|]. unfold codeIs in Hcode.
        destruct (code e) as [n|]; [|discriminate].
        apply Z.eqb_eq in Hcode. now subst. }
      destruct (request w1 addRequest) as [r2 w2]. cbn [snd].
      split; [now exists [addRequest] |].
      repeat split; settle_iff.
    + assert (Hno : ~ (exists e0, @Throw unit e = Throw e0
                                  /\ code e0 = Some 4902%Z)).
      { intros [e0 [He0 Hc0]]. injection He0 as <-. unfold codeIs in Hcode.
        rewrite Hc0 in Hcode. discriminate. }
      cbn [snd].
      split; [now exists [] |].
      repeat split; settle_iff.
Qed.

(** A switch rejected with 4902 is followed by one add request; a switch
    rejected with another code is not. *)
Example switch_fallback_example :
  snd (handleSwitchToLukso unknownChainWindow sampleSession 0)
  = [switchRequest; addRequest]
  /\ snd (handleSwitchToLukso refusingWindow sampleSession 0)
     = [switchRequest]
  /\ switchingNetwork
       (fst (fst (handleSwitchToLukso refusingWindow sampleSession 0)))
     = false.
Proof. repeat split; reflexivity. Qed.

(** C6 as stated fails: without [window.ethereum] the handler returns before
    any request, so no switch request is issued. *)
Lemma switch_without_provider_counterexample :
  snd (handleSwitchToLukso bareWindow sampleSession tt) = []
  /\ ~ (forall (win : Window unit) app w,
          exists rest,
            snd (handleSwitchToLukso win app w) = switchRequest :: rest).
Proof.
  split; [reflexivity|].
  intros H. destruct (H bareWindow sampleSession tt) as [rest Hr].
  discriminate Hr.
Qed.

(** ** Indexer Client *)

Lemma queryIndexer_not_ok {D : Type} (fetch : IndexerQuery -> FetchResult D)
    q status json :
  fetch q = Response false status json ->
  queryIndexer fetch q =
  Throw (newError (String.append "Indexer request failed: "
                                 (String_ (Some status)))).
Proof. intros H. unfold queryIndexer. now rewrite H. Qed.

Lemma queryIndexer_errors {D : Type} (fetch : IndexerQuery -> FetchResult D)
    q status j errs :
  fetch q = Response true status (Ok j) -> errors j = Some errs ->
  queryIndexer fetch q =
  Throw (newError (orElse (match errs with
                           | e0 :: _ => gql_message e0
                           | [] => None
                           end) "GraphQL error")).
Proof. intros H He. unfold queryIndexer. now rewrite H, He. Qed.

Lemma fetchTokens_fails BigInt formatUnits ix source :
  (exists e, queryIndexer (fetchLsp7 ix)
               (holdQuery (toLowerCase source) "LSP7DigitalAsset") = Throw e)
  \/ (exists e, queryIndexer (fetchLsp8 ix)
                  (holdQuery (toLowerCase source) "LSP8IdentifiableDigitalAsset")
                = Throw e) ->
  exists e, fst (fetchTokensForAddress BigInt formatUnits ix source) = Throw e.
Proof.
  unfold fetchTokensForAddress. cbn [fst].
  intros [[e H] | [e H]]; rewrite H.
  - destruct (queryIndexer (fetchLsp8 ix) _) as [d | e']; eauto.
  - destruct (queryIndexer (fetchLsp7 ix) _) as [d | e']; eauto.
Qed.

Lemma handleFindAssets_failed BigInt formatUnits ix acct app source e :
  sourceAddress acct app = Some source ->
  fst (fetchTokensForAddress BigInt formatUnits ix source) = Throw e ->
  let app' := fst (handleFindAssets BigInt formatUnits ix acct app) in
  assets app' = assets app /\ step app' = step app
  /\ transferStatuses app' = transferStatuses app
  /\ (source <> "" -> upAddress app <> "" -> isSameAddress acct app = false ->
      scanError app' = "Failed to scan assets. Please try again."
      /\ scanning app' = false
      /\ snd (handleFindAssets BigInt formatUnits ix acct app) =
         [holdQuery (toLowerCase source) "LSP7DigitalAsset";
          holdQuery (toLowerCase source) "LSP8IdentifiableDigitalAsset"]).
Proof.
  intros Hs Hf. unfold handleFindAssets. rewrite Hs.
  destruct (fetchTokensForAddress BigInt formatUnits ix source)
    as [res queries] eqn:Hfetch.
  cbn [fst] in Hf. subst res.
  assert (Hq : queries =
               [holdQuery (toLowerCase source) "LSP7DigitalAsset";
                holdQuery (toLowerCase source) "LSP8IdentifiableDigitalAsset"]).
  { unfold fetchTokensForAddress in Hfetch. now injection Hfetch as _ <-. }
  destruct (String.eqb source "" || String.eqb (upAddress app) "")
    eqn:Hguard.
  - cbn [fst snd]. do 3 (split; [reflexivity|]).
    intros Hne Hup _.
    rewrite (eqb_empty_false _ Hne), (eqb_empty_false _ Hup) in Hguard.
    discriminate.
  - destruct (isSameAddress acct app) eqn:Hsame; cbn [fst snd].
    + destruct app; simpl. do 3 (split; [reflexivity|]).
      intros _ _ Hc. discriminate.
    + destruct app; simpl. do 3 (split; [reflexivity|]).
      intros _ _ _. split; [reflexivity|]. split; [reflexivity | exact Hq].
Qed.

(** C5: a response whose status is not a success makes [queryIndexer] throw
    "Indexer request failed: <status>"; an [errors] array in a successful
    response makes it throw the first error's message (or "GraphQL error"
    when that error has none); when either of the two queries throws,
    [fetchTokensForAddress] throws, so no token list comes back, and
    [handleFindAssets] leaves [assets] and [step] as they were. *)
Theorem scan_failure_is_atomic :
  (forall (D : Type) (fetch : IndexerQuery -> FetchResult D) q status json,
      fetch q = Response false status json ->
      queryIndexer fetch q =
      Throw (newError (String.append "Indexer request failed: "
                                     (String_ (Some status)))))
  /\ (forall (D : Type) (fetch : IndexerQuery -> FetchResult D) q status j errs,
        fetch q = Response true status (Ok j) -> errors j = Some errs ->
        (exists msg, queryIndexer fetch q = Throw (newError msg)) /\
        (forall m rest,
            errs = {| gql_message := Some m |} :: rest -> m <> "" ->
            queryIndexer fetch q = Throw (newError m)) /\
        ((forall m rest, errs = {| gql_message := Some m |} :: rest -> m = "") ->
         queryIndexer fetch q = Throw (newError "GraphQL error")))
  /\ (forall BigInt formatUnits ix acct app source,
        sourceAddress acct app = Some source ->
        (exists e, queryIndexer (fetchLsp7 ix)
                     (holdQuery (toLowerCase source) "LSP7DigitalAsset")
                   = Throw e)
        \/ (exists e, queryIndexer (fetchLsp8 ix)
                        (holdQuery (toLowerCase source)
                                   "LSP8IdentifiableDigitalAsset")
                      = Throw e) ->
        let app' := fst (handleFindAssets BigInt formatUnits ix acct app) in
        (exists e,
            fst (fetchTokensForAddress BigInt formatUnits ix source) = Throw e)
        /\ assets app' = assets app
        /\ step app' = step app
        /\ (source <> "" -> upAddress app <> "" ->
            isSameAddress acct app = false ->
            scanError app' = "Failed to scan assets. Please try again."
            /\ scanning app' = false))
  /\ handleFindAssets sampleBigInt sampleFormatUnits failingIndexer
       sampleAccount scanSession
     = (setScanError "Failed to scan assets. Please try again." scanSession,
        [holdQuery "0xabcdef0123" "LSP7DigitalAsset";
         holdQuery "0xabcdef0123" "LSP8IdentifiableDigitalAsset"])
  /\ fst (fetchTokensForAddress sampleBigInt sampleFormatUnits
            gqlErrorIndexer "0xABCDEF0123")
     = Throw (newError "field not found")
  /\ fst (fetchTokensForAddress sampleBigInt sampleFormatUnits
            failingIndexer "0xABCDEF0123")
     = Throw (newError "Indexer request failed: 500").
Proof.
  split; [intros D fetch q status json H; now apply (queryIndexer_not_ok fetch q status json)|].
  split; [|split; [|repeat split; reflexivity]].
  - intros D fetch q status j errs Hf He.
    rewrite (queryIndexer_errors fetch q status j errs Hf He).
    split; [now eexists|]. split.
    + intros m rest -> Hm. simpl. now rewrite (eqb_empty_false _ Hm).
    + intros H. destruct errs as [|[[m|]] rest]; try reflexivity.
      rewrite (H m rest eq_refl). reflexivity.
  - intros BigInt formatUnits ix acct app source Hs Hfail app'.
    destruct (fetchTokens_fails BigInt formatUnits ix source Hfail) as [e He].
    destruct (handleFindAssets_failed BigInt formatUnits ix acct app source e
                Hs He) as [Ha [Hst [_ Hrest]]].
    split; [now exists e|]. split; [exact Ha|]. split; [exact Hst|].
    intros H1 H2 H3. destruct (Hrest H1 H2 H3) as [Hx [Hy _]]. now split.
Qed.

(** *** Decimal strings: [parseInt] reads back what [String] prints *)

(** Evaluates [digitOf] on the character literal it is applied to. *)
Ltac eval_digit :=
  match goal with
  | |- context [digitOf ?c] =>
      let v := eval vm_compute in (digitOf c) in
      change (digitOf c) with v; cbv iota
  end.

Lemma parseDigits_of_uint (d : Decimal.uint) :
  forall acc,
    parseDigits (NilEmpty.string_of_uint d) acc = Nat.of_uint_acc d acc.
Proof.
  induction d; intros acc; cbn [NilEmpty.string_of_uint Nat.of_uint_acc];
    [reflexivity | ..];
    cbn [parseDigits]; eval_digit;
    rewrite IHd; f_equal; rewrite Nat.tail_mul_spec; lia.
Qed.

Lemma to_uint_not_Nil (n : nat) : Nat.to_uint n <> Decimal.Nil.
Proof.
  intros H. pose proof (DecimalNat.Unsigned.of_to n) as Hn.
  rewrite H in Hn. cbn in Hn. subst n. discriminate H.
Qed.

Lemma parseInt_String (n : nat) : parseInt (String_ (Some n)) = Some n.
Proof.
  unfold String_. pose proof (DecimalNat.Unsigned.of_to n) as Hn.
  pose proof (to_uint_not_Nil n) as Hnil.
  destruct (Nat.to_uint n) as [|d|d|d|d|d|d|d|d|d|d]; [congruence | ..];
    unfold Nat.of_uint in Hn; cbn [Nat.of_uint_acc] in Hn;
    cbn [NilEmpty.string_of_uint parseInt]; eval_digit;
    rewrite parseDigits_of_uint; f_equal; rewrite <- Hn; f_equal.
Qed.

(** *** Grouping of the LSP8 rows *)

Lemma Map_has_iff (k : string) (m : CollectionMap) :
  Map_has k m = true <-> In k (map fst m).
Proof.
  unfold Map_has. rewrite existsb_exists, in_map_iff.
  split; intros [kv [H1 H2]]; exists kv.
  - apply String.eqb_eq in H2. now split.
  - split; [assumption | now apply String.eqb_eq].
Qed.

Lemma Map_mutate_keys k f (m : CollectionMap) :
  map fst (Map_mutate k f m) = map fst m.
Proof.
  unfold Map_mutate. rewrite map_map. apply map_ext.
  intros [c t]. simpl. now destruct (String.eqb c k).
Qed.

Lemma Map_mutate_In k f (m : CollectionMap) c t' :
  In (c, t') (Map_mutate k f m) ->
  exists t, In (c, t) m /\ t' = if String.eqb c k then f t else t.
Proof.
  unfold Map_mutate. rewrite in_map_iff. intros [[c1 t1] [Heq Hin]].
  simpl in Heq. destruct (String.eqb c1 k) eqn:Hk;
    injection Heq as -> <-; exists t1; rewrite Hk; now split.
Qed.

Lemma collectionRows_snoc c holds h :
  collectionRows c (holds ++ [h]) =
  collectionRows c holds ++ (if inCollection c h then [h] else []).
Proof. unfold collectionRows. rewrite filter_app. reflexivity. Qed.

Lemma collectionRows_nonempty c holds :
  collectionRows c holds <> [] <->
  exists h b, In h holds /\ baseAsset h = Some b /\ base_id b = c.
Proof.
  unfold collectionRows. split.
  - intros H. destruct (filter (inCollection c) holds) as [|h l] eqn:Hf;
      [congruence|].
    assert (Hin : In h (filter (inCollection c) holds))
      by (rewrite Hf; now left).
    apply filter_In in Hin as [Hin Hc]. unfold inCollection in Hc.
    destruct (baseAsset h) as [b|] eqn:Hb; [|discriminate].
    apply String.eqb_eq in Hc. now exists h, b.
  - intros [h [b [Hin [Hb Hc]]]] Hnil.
    assert (Hf : In h (filter (inCollection c) holds)).
    { apply filter_In. split; [assumption|]. unfold inCollection.
      rewrite Hb. now apply String.eqb_eq. }
    rewrite Hnil in Hf. contradiction.
Qed.

Lemma Grouped_step m holds h :
  Grouped m holds -> Grouped (groupHold m h) (holds ++ [h]).
Proof.
  intros [Hnd [Hkeys Hent]]. unfold groupHold.
  destruct (baseAsset h) as [b|] eqn:Hb.
  2:{ assert (Hrows : forall c, collectionRows c (holds ++ [h])
                                = collectionRows c holds).
      { intros c. rewrite collectionRows_snoc. unfold inCollection.
        rewrite Hb. apply app_nil_r. }
      split; [assumption|]. split.
      - intros c. rewrite Hrows. apply Hkeys.
      - intros c t Hin. rewrite Hrows. now apply Hent. }
  assert (Hrows : forall c, collectionRows c (holds ++ [h]) =
                            collectionRows c holds ++
                            (if String.eqb (base_id b) c then [h] else [])).
  { intros c. rewrite collectionRows_snoc. unfold inCollection. now rewrite Hb. }
  destruct (Map_has (base_id b) m) eqn:Hhas.
  - apply Map_has_iff in Hhas. split; [now rewrite Map_mutate_keys|]. split.
    + intros c. rewrite Map_mutate_keys, Hrows.
      destruct (String.eqb_spec (base_id b) c) as [<- | Hne].
      * split; [intros _ Hnil; now apply app_eq_nil in Hnil as [_ Hnil]
               | intros _; assumption].
      * rewrite app_nil_r. apply Hkeys.
    + intros c t' Hin. apply Map_mutate_In in Hin as [t [Hin ->]].
      destruct (Hent c t Hin) as [Ha [Hty [Hids Hbal]]]. rewrite Hrows.
      rewrite String.eqb_sym.
      destruct (String.eqb (base_id b) c).
      * cbn [addToken address type tokenIds balance].
        rewrite Hids, Hbal, parseInt_String, map_app, length_app.
        cbn [option_map plus1 map List.length]. rewrite Nat.add_1_r.
        repeat split; assumption.
      * rewrite app_nil_r. repeat split; assumption.
  - assert (Hnew : ~ In (base_id b) (map fst m)).
    { intros Hin. apply Map_has_iff in Hin. congruence. }
    assert (Hnone : collectionRows (base_id b) holds = []).
    { destruct (collectionRows (base_id b) holds) as [|x l] eqn:Hr;
        [reflexivity|].
      exfalso. apply Hnew, Hkeys. rewrite Hr. discriminate. }
    unfold Map_set_new. split; [|split].
    + rewrite map_app. apply NoDup_app; [assumption | |].
      * constructor; [intros [] | constructor].
      * intros c Hc [<- | []]. contradiction.
    + intros c. rewrite map_app, in_app_iff, Hrows. cbn [map fst In].
      destruct (String.eqb_spec (base_id b) c) as [<- | Hne].
      * split; [intros _ Hnil; now apply app_eq_nil in Hnil as [_ Hnil]
               | intros _; right; now left].
      * rewrite app_nil_r, <- Hkeys. split; [|tauto].
        intros [H | [H | []]]; [assumption | contradiction].
    + intros c t Hin. apply in_app_iff in Hin as [Hin | [Heq | []]].
      * assert (Hc : base_id b <> c).
        { intros <-. apply Hnew. apply in_map_iff. now exists (base_id b, t). }
        rewrite Hrows. apply String.eqb_neq in Hc. rewrite Hc, app_nil_r.
        now apply Hent.
      * injection Heq as <- <-. rewrite Hrows, Hnone, String.eqb_refl.
        cbn. repeat split.
Qed.

Lemma Grouped_fold (holds : list Lsp8Hold) :
  Grouped (fold_left groupHold holds []) holds.
Proof.
  induction holds as [|h holds IH] using rev_ind.
  - split; [constructor|]. split.
    + intros c. simpl. split; [intros [] | intros H; now apply H].
    + intros c t [].
  - rewrite fold_left_app. cbn [fold_left]. now apply Grouped_step.
Qed.

Lemma lsp7Tokens_types BigInt formatUnits (holds : list Lsp7Hold) :
  forall tokens out,
    Forall (fun t => isLSP8 t = false) tokens ->
    lsp7Tokens BigInt formatUnits holds tokens = Ok out ->
    Forall (fun t => isLSP8 t = false) out.
Proof.
  induction holds as [|hold rest IH]; intros tokens out Hall Hrun;
    cbn [lsp7Tokens] in Hrun.
  - now injection Hrun as <-.
  - destruct (asset hold) as [a|]; [|now apply (IH tokens)].
    destruct (BigInt (hold7_balance hold)) as [raw|e]; [|discriminate].
    eapply IH; [|exact Hrun].
    apply Forall_app. split; [assumption|]. now repeat constructor.
Qed.

Lemma filter_none {A : Type} (f : A -> bool) (l : list A) :
  Forall (fun x => f x = false) l -> filter f l = [].
Proof.
  induction 1 as [|x l Hx _ IH]; simpl; [reflexivity|]. now rewrite Hx.
Qed.

Lemma filter_all {A : Type} (f : A -> bool) (l : list A) :
  Forall (fun x => f x = true) l -> filter f l = l.
Proof.
  induction 1 as [|x l Hx _ IH]; simpl; [reflexivity|]. now rewrite Hx, IH.
Qed.

Lemma lsp8Tokens_entries (holds : list Lsp8Hold) (t : TokenAsset) :
  In t (lsp8Tokens holds) ->
  In (address t, t) (fold_left groupHold holds []).
Proof.
  unfold lsp8Tokens, Map_values. rewrite in_map_iff.
  intros [[c t'] [Heq Hin]]. simpl in Heq. subst t'.
  destruct (Grouped_fold holds) as [_ [_ Hent]].
  destruct (Hent c t Hin) as [Ha _]. now rewrite Ha.
Qed.

Lemma lsp8Tokens_addresses (holds : list Lsp8Hold) :
  map address (lsp8Tokens holds) = map fst (fold_left groupHold holds []).
Proof.
  unfold lsp8Tokens, Map_values. rewrite map_map.
  destruct (Grouped_fold holds) as [_ [_ Hent]].
  revert Hent. generalize (fold_left groupHold holds []) as m.
  induction m as [|[c t] m IH]; intros Hent; [reflexivity|].
  cbn [map fst snd]. f_equal.
  - now destruct (Hent c t (or_introl eq_refl)) as [Ha _].
  - apply IH. intros c' t' Hin. apply Hent. now right.
Qed.

(** C3: when both queries answer and the LSP7 rows convert,
    [fetchTokensForAddress] returns the LSP7 tokens followed by the LSP8
    ones, and the LSP8 ones are: one per collection address that has a row,
    no address twice, each with the token ids of its rows in row order and
    with the decimal count of those rows as balance, so that the balance
    parses to the number of token ids; two rows of one collection give one
    token with both ids in order and balance "2". *)
Theorem lsp8_grouping BigInt formatUnits (ix : Indexer) (address_ : string)
    (rows7 : list Lsp7Hold) (rows8 : list Lsp8Hold)
    (tokens7 : list TokenAsset) :
  queryIndexer (fetchLsp7 ix)
    (holdQuery (toLowerCase address_) "LSP7DigitalAsset") = Ok rows7 ->
  queryIndexer (fetchLsp8 ix)
    (holdQuery (toLowerCase address_) "LSP8IdentifiableDigitalAsset")
    = Ok rows8 ->
  lsp7Tokens BigInt formatUnits rows7 [] = Ok tokens7 ->
  exists lsp8,
    fst (fetchTokensForAddress BigInt formatUnits ix address_)
    = Ok (tokens7 ++ lsp8)
    /\ filter isLSP8 (tokens7 ++ lsp8) = lsp8
    /\ NoDup (map address lsp8)
    /\ (forall c, In c (map address lsp8) <->
                  exists h b, In h rows8 /\ baseAsset h = Some b
                              /\ base_id b = c)
    /\ (forall t, In t lsp8 ->
          let rows := collectionRows (address t) rows8 in
          type t = LSP8
          /\ tokenIds t = Some (map rowTokenId rows)
          /\ balance t = String_ (Some (List.length rows))
          /\ parseInt (balance t) = Some (List.length (map rowTokenId rows)))
    /\ (forall h1 h2 b1 b2,
          rows8 = [h1; h2] -> baseAsset h1 = Some b1 ->
          baseAsset h2 = Some b2 -> base_id b1 = base_id b2 ->
          exists t,
            lsp8 = [t] /\ address t = base_id b1
            /\ tokenIds t = Some [rowTokenId h1; rowTokenId h2]
            /\ balance t = "2").
Proof.
  intros H7 H8 Hconv. exists (lsp8Tokens rows8).
  destruct (Grouped_fold rows8) as [Hnd [Hkeys Hent]].
  assert (Hfacts : forall t, In t (lsp8Tokens rows8) ->
            type t = LSP8
            /\ tokenIds t =
               Some (map rowTokenId (collectionRows (address t) rows8))
            /\ balance t =
               String_ (Some (List.length (collectionRows (address t) rows8)))).
  { intros t Hin. apply lsp8Tokens_entries in Hin.
    now destruct (Hent _ _ Hin) as [_ H]. }
  split; [|split; [|split; [|split; [|split]]]].
  - unfold fetchTokensForAddress. cbn [fst]. now rewrite H7, H8, Hconv.
  - rewrite filter_app, filter_none, filter_all; [reflexivity | |].
    + apply Forall_forall. intros t Hin.
      destruct (Hfacts t Hin) as [Hty _]. unfold isLSP8. now rewrite Hty.
    + now apply (lsp7Tokens_types BigInt formatUnits rows7 []).
  - now rewrite lsp8Tokens_addresses.
  - intros c. rewrite lsp8Tokens_addresses, Hkeys.
    apply collectionRows_nonempty.
  - intros t Hin rows. subst rows. destruct (Hfacts t Hin) as [Hty [Hids Hbal]].
    repeat split; try assumption.
    rewrite Hbal, parseInt_String, length_map. reflexivity.
  - intros h1 h2 b1 b2 -> Hb1 Hb2 Hsame.
    unfold lsp8Tokens, Map_values. cbn [fold_left].
    unfold groupHold at 2. rewrite Hb1. cbn [Map_has existsb Map_set_new app].
    unfold groupHold. rewrite Hb2, <- Hsame.
    cbn [Map_has existsb fst]. rewrite String.eqb_refl.
    cbn [orb Map_mutate map fst snd]. rewrite String.eqb_refl.
    eexists. split; [reflexivity|]. cbn. repeat split.
Qed.

(** C3 at the sample indexer: three rows, two of them of one collection. *)
Lemma lsp8_grouping_witness :
  exists lsp8,
    fst (fetchTokensForAddress sampleBigInt sampleFormatUnits nftIndexer
           "0xABCDEF0123")
    = Ok (match lsp7Tokens sampleBigInt sampleFormatUnits coinRows [] with
          | Ok l => l
          | Throw _ => []
          end ++ lsp8)
    /\ map (fun t => (address t, tokenIds t, balance t)) lsp8
       = [("0xc011", Some ["0x01"; "0x02"], "2");
          ("0xb12d", Some ["0x07"], "1")].
Proof.
  destruct (lsp8_grouping sampleBigInt sampleFormatUnits nftIndexer
              "0xABCDEF0123" coinRows nftRows
              (match lsp7Tokens sampleBigInt sampleFormatUnits coinRows [] with
               | Ok l => l
               | Throw _ => []
               end) eq_refl eq_refl eq_refl) as [lsp8 [Hres _]].
  exists lsp8. split; [exact Hres|].
  vm_compute in Hres. injection Hres as <-. reflexivity.
Defined.

(** ** Transfer Engine *)

Lemma skipn_length_app {A : Type} (l l' : list A) :
  skipn (List.length l) (l ++ l') = l'.
Proof. induction l; simpl; [reflexivity | assumption]. Qed.

Lemma firstn_snoc_nth {A : Type} (l : list A) :
  forall i a, nth_error l i = Some a -> firstn (S i) l = firstn i l ++ [a].
Proof.
  induction l as [|x l IH]; intros [|i] a H; simpl in H; try discriminate.
  - now injection H as ->.
  - change (x :: firstn (S i) l = x :: (firstn i l ++ [a])).
    f_equal. now apply IH.
Qed.

Lemma mapStatus_nth addr upd l j :
  nth_error (mapStatus addr upd l) j =
  option_map (fun s => if String.eqb (ts_address s) addr then upd s else s)
             (nth_error l j).
Proof. unfold mapStatus. apply nth_error_map. Qed.

Lemma mapStatus_compose addr f g l :
  keepsAddress g ->
  mapStatus addr f (mapStatus addr g l) = mapStatus addr (fun s => f (g s)) l.
Proof.
  intros Hg. unfold mapStatus. rewrite map_map. apply map_ext. intros s.
  destruct (String.eqb (ts_address s) addr) eqn:Hs.
  - now rewrite Hg, Hs.
  - now rewrite Hs.
Qed.

Lemma mapStatus_addresses addr upd l :
  keepsAddress upd -> map ts_address (mapStatus addr upd l) = map ts_address l.
Proof.
  intros Hk. unfold mapStatus. rewrite map_map. apply map_ext. intros s.
  destruct (String.eqb (ts_address s) addr); [apply Hk | reflexivity].
Qed.

Lemma keeps_withTransferring : keepsAddress withTransferring.
Proof. intros s. reflexivity. Qed.

Lemma keeps_withError msg : keepsAddress (withError msg).
Proof. intros s. reflexivity. Qed.

Lemma keeps_withSuccess h : keepsAddress (withSuccess h).
Proof. intros s. reflexivity. Qed.

Lemma keeps_compose f g :
  keepsAddress f -> keepsAddress g -> keepsAddress (fun s => f (g s)).
Proof. intros Hf Hg s. now rewrite Hf, Hg. Qed.

Create HintDb engine.

#[local] Hint Resolve keeps_withTransferring keeps_withError keeps_withSuccess
  keeps_compose : engine.

Lemma last_default {A : Type} (l : list A) (x d d' : A) :
  last (x :: l) d = last (x :: l) d'.
Proof.
  revert x. induction l as [|y l IH]; intros x; [reflexivity|].
  change (last (y :: l) d = last (y :: l) d'). apply IH.
Qed.

Lemma Forall_answeredOk_last front x :
  Forall (fun y => answeredOk y = true) (front ++ [x]) ->
  exists h, ex_answer x = Ok h.
Proof.
  intros H. apply Forall_app in H as [_ H]. inversion H as [|? ? Hx _]; subst.
  unfold answeredOk in Hx. destruct (ex_answer x) as [h|e]; [now exists h|].
  discriminate.
Qed.

Section EngineFacts.

Variable BigInt : string -> Result Z.
Variable parseUnits : string -> Z -> option Z.
Variable encodeError :
  AbiFunction -> string -> list AbiValue -> option JsError.
Variable World : Type.
Variable request :
  World -> EthereumProvider -> RpcRequest -> Result string * World.

Lemma sendViaProvider_spec provider from to data (r : Run World) :
  let out := sendViaProvider request provider from to data r in
  statuses (snd out) = statuses r
  /\ sent (snd out) =
     sent r ++ [ {| ex_provider := provider;
                    ex_request := txRequest from to data;
                    ex_answer := fst out |} ]
  /\ request (world r) provider (txRequest from to data)
     = (fst out, world (snd out)).
Proof.
  unfold sendViaProvider.
  destruct (request (world r) provider (txRequest from to data)) as [ans w'].
  cbn. repeat split.
Qed.

(** The loop over the token ids: the requests go out in list order, to one
    contract, each for an id whose call could be encoded, and stop at the
    first id whose call cannot be encoded or whose request is rejected. *)
Lemma sendTokenIds_spec provider source up contract (ids : list string) :
  forall lastTxHash (r : Run World),
    let out := sendTokenIds encodeError request provider source up contract ids
                 lastTxHash r in
    statuses (snd out) = statuses r
    /\ exists log,
         sent (snd out) = sent r ++ log
         /\ Forall (fun x => ex_provider x = provider) log
         /\ map ex_request log
            = map (lsp8Request source up contract)
                  (firstn (List.length log) ids)
         /\ List.length log <= List.length ids
         /\ Forall (fun id => lsp8Error encodeError source up id = None)
                   (firstn (List.length log) ids)
         /\ Forall (fun y => answeredOk y = true) (removelast log)
         /\ match fst out with
            | Ok h =>
                List.length log = List.length ids
                /\ Forall (fun x => answeredOk x = true) log
                /\ last (map ex_answer log) (Ok lastTxHash) = Ok h
            | Throw e =>
                (exists front x, log = front ++ [x] /\ ex_answer x = Throw e)
                \/ (exists id,
                      nth_error ids (List.length log) = Some id
                      /\ lsp8Error encodeError source up id = Some e
                      /\ Forall (fun x => answeredOk x = true) log)
            end.
Proof.
  induction ids as [|tokenId rest IH]; intros lastTxHash r.
  - cbn. split; [reflexivity|]. exists []. rewrite app_nil_r. cbn.
    repeat split; constructor.
  - cbn [sendTokenIds]. unfold encodeFunctionData.
    change (encodeError LSP8_TRANSFER_ABI "transfer"
              [VAddress source; VAddress up; VBytes32 tokenId; VBool true;
               VBytes "0x"])
      with (lsp8Error encodeError source up tokenId).
    destruct (lsp8Error encodeError source up tokenId) as [e|] eqn:Henc.
    { cbn [fst snd]. split; [reflexivity|]. exists [].
      rewrite app_nil_r. cbn [List.length firstn map removelast].
      split; [reflexivity|]. split; [constructor|]. split; [reflexivity|].
      split; [lia|]. split; [constructor|]. split; [constructor|].
      right. exists tokenId. repeat split; [assumption | constructor]. }
    match goal with
    | |- context [sendViaProvider request provider source contract ?d r] =>
        pose proof (sendViaProvider_spec provider source contract d r)
          as Hsend;
        destruct (sendViaProvider request provider source contract d r)
          as [[h|e] r1] eqn:Hone
    end; cbn [fst snd] in Hsend; destruct Hsend as [Hst [Hlog _]].
    + specialize (IH h r1). cbv zeta in IH |- *.
      destruct (sendTokenIds encodeError request provider source up contract
                  rest h r1) as [res r2].
      cbn [fst snd] in IH |- *.
      destruct IH as [Hst2 [log [Hlog2 [Hprov [Hreq [Hlen [Henc2 [Hfront
                        Hres]]]]]]]].
      split; [congruence|].
      exists ({| ex_provider := provider;
                 ex_request := lsp8Request source up contract tokenId;
                 ex_answer := Ok h |} :: log).
      split; [rewrite Hlog2, Hlog, <- app_assoc; reflexivity|].
      split; [now constructor|].
      cbn [List.length firstn map ex_request].
      split; [now rewrite Hreq|]. split; [lia|].
      split; [now constructor|]. split.
      { destruct log as [|y log']; [constructor|].
        change (Forall (fun y0 => answeredOk y0 = true)
                  ({| ex_provider := provider;
                      ex_request := lsp8Request source up contract tokenId;
                      ex_answer := Ok h |} :: removelast (y :: log'))).
        now constructor. }
      destruct res as [h'|e].
      * destruct Hres as [Hn [Hok Hlast]]. split; [lia|].
        split; [now constructor|].
        cbn [map ex_answer]. destruct log as [|y log']; [exact Hlast|].
        cbn [map] in Hlast |- *.
        change (last (ex_answer y :: map ex_answer log') (Ok lastTxHash)
                = Ok h').
        rewrite (last_default _ _ _ (Ok h)). exact Hlast.
      * destruct Hres as [[front [x [-> Hx]]] | [id [Hid [Hide Hok]]]].
        -- left. exists ({| ex_provider := provider;
                            ex_request := lsp8Request source up contract
                                            tokenId;
                            ex_answer := Ok h |} :: front), x.
           now split.
        -- right. exists id. cbn [nth_error]. repeat split;
             [assumption | assumption | now constructor].
    + cbn [fst snd]. split; [assumption|].
      exists [ {| ex_provider := provider;
                  ex_request := lsp8Request source up contract tokenId;
                  ex_answer := Throw e |} ].
      split; [exact Hlog|]. split; [now repeat constructor|].
      cbn [List.length firstn map ex_request removelast].
      split; [reflexivity|]. split; [lia|].
      split; [now repeat constructor|]. split; [constructor|].
      left. now exists [], {| ex_provider := provider;
                              ex_request := lsp8Request source up contract
                                              tokenId;
                              ex_answer := Throw e |}.
Qed.



Lemma applyVerdict_keeps v : keepsAddress (applyVerdict v).
Proof. destruct v; intros s; reflexivity. Qed.

(** One iteration of the loop: the requests it adds to the trace, all to
    the pinned provider, and the one update it makes to the records that
    carry the asset's address. *)
Lemma transferAsset_outcome provider source up (r : Run World) asset :
  let r' := transferAsset BigInt parseUnits encodeError request provider
              source up r asset in
  exists log v,
    sent r' = sent r ++ log
    /\ statuses r' = mapStatus (address asset) (applyVerdict v) (statuses r)
    /\ StepOutcome (submissionsDue asset) log v
    /\ Forall (fun x => ex_provider x = provider) log.
Proof.
  unfold transferAsset, tryTransfer, submissionsDue, idsOf.
  set (r1 := updateStatus (address asset) withTransferring r).
  assert (Hs1 : statuses r1 =
                mapStatus (address asset) withTransferring (statuses r))
    by reflexivity.
  assert (Hl1 : sent r1 = sent r) by reflexivity.
  destruct (type asset).
  - destruct (parseUnits (transferAmount asset) (decimals asset))
      as [rawAmount|].
    2:{ exists [], (VError "Invalid amount"). cbn [statuses sent updateStatus].
        rewrite app_nil_r, Hs1, mapStatus_compose by auto with engine.
        repeat split; constructor. }
    destruct (rawAmount <=? 0)%Z.
    { exists [], (VError "Amount must be greater than 0").
      cbn [statuses sent updateStatus].
      rewrite app_nil_r, Hs1, mapStatus_compose by auto with engine.
      repeat split; constructor. }
    destruct (BigInt (balance asset)) as [held|e].
    2:{ exists [], (VError (errorText e)). cbn [statuses sent updateStatus].
        rewrite app_nil_r, Hs1, mapStatus_compose by auto with engine.
        split; [reflexivity|]. split; [reflexivity|].
        split; [|constructor].
        apply out_exception; [constructor | cbn [List.length]; lia]. }
    destruct (rawAmount >? held)%Z.
    { exists [], (VError "Amount exceeds balance").
      cbn [statuses sent updateStatus].
      rewrite app_nil_r, Hs1, mapStatus_compose by auto with engine.
      repeat split; constructor. }
    unfold encodeFunctionData.
    destruct (encodeError LSP7_TRANSFER_ABI "transfer" _) as [e|].
    { exists [], (VError (errorText e)). cbn [statuses sent updateStatus].
      rewrite app_nil_r, Hs1, mapStatus_compose by auto with engine.
      split; [reflexivity|]. split; [reflexivity|].
      split; [|constructor].
      apply out_exception; [constructor | cbn [List.length]; lia]. }
    match goal with
    | |- context [sendViaProvider request provider source ?c ?d r1] =>
        pose proof (sendViaProvider_spec provider source c d r1) as Hsend;
        destruct (sendViaProvider request provider source c d r1)
          as [[h|e] r2]
    end; cbn [fst snd] in Hsend; destruct Hsend as [Hst [Hlog _]].
    + eexists [_], (VSuccess h). cbn [statuses sent updateStatus].
      rewrite Hlog, Hst, Hl1, Hs1, mapStatus_compose by auto with engine.
      split; [reflexivity|]. split; [reflexivity|].
      split; [|now repeat constructor].
      apply (out_sent 1 h []); [reflexivity | constructor].
    + eexists [_], (VError (errorText e)). cbn [statuses sent updateStatus].
      rewrite Hlog, Hst, Hl1, Hs1, mapStatus_compose by auto with engine.
      split; [reflexivity|]. split; [reflexivity|].
      split; [|now repeat constructor].
      apply (out_rejected 1 e []); [reflexivity | constructor].
  - destruct (tokenIds asset) as [[|tokenId rest]|].
    1,3: exists [], VStuck; rewrite app_nil_r, Hs1;
         repeat split; constructor.
    pose proof (sendTokenIds_spec provider source up (address asset)
                  (tokenId :: rest) "" r1) as Hloop.
    cbv zeta in Hloop.
    destruct (sendTokenIds encodeError request provider source up
                (address asset) (tokenId :: rest) "" r1) as [[h|e] r2];
      cbn [fst snd] in Hloop;
      destruct Hloop as [Hst [log [Hlog [Hprov [_ [_ [_ [Hfront Hres]]]]]]]].
    + destruct Hres as [Hn [Hok Hlast]].
      assert (Hne : log <> []).
      { intros ->. discriminate Hn. }
      destruct (exists_last Hne) as [front [x ->]].
      rewrite map_app in Hlast. cbn [map] in Hlast.
      rewrite last_last in Hlast.
      exists (front ++ [x]), (VSuccess h). cbn [statuses sent updateStatus].
      rewrite Hlog, Hst, Hl1, Hs1, mapStatus_compose by auto with engine.
      split; [reflexivity|]. split; [reflexivity|]. split; [|assumption].
      apply out_sent; [assumption|]. now apply Forall_app in Hok as [Hok _].
    + exists log, (VError (errorText e)).
      cbn [statuses sent updateStatus].
      rewrite Hlog, Hst, Hl1, Hs1, mapStatus_compose by auto with engine.
      split; [reflexivity|]. split; [reflexivity|]. split; [|assumption].
      destruct Hres as [[front [x [-> Hx]]] | [id [Hid [_ Hok]]]].
      * rewrite removelast_last in Hfront. now apply out_rejected.
      * apply out_exception; [assumption|].
        apply nth_error_Some. now rewrite Hid.
Qed.

Lemma transferAsset_addresses provider source up (r : Run World) asset :
  map ts_address
    (statuses (transferAsset BigInt parseUnits encodeError request provider source up
                 r asset))
  = map ts_address (statuses r).
Proof.
  destruct (transferAsset_outcome provider source up r asset)
    as [log [v [_ [Hst _]]]].
  rewrite Hst. apply mapStatus_addresses, applyVerdict_keeps.
Qed.

Lemma transferLoop_addresses provider source up (l : list TokenAsset) :
  forall r : Run World,
    map ts_address
      (statuses (transferLoop BigInt parseUnits encodeError request provider source up l r))
    = map ts_address (statuses r).
Proof.
  induction l as [|a l IH]; intros r; [reflexivity|].
  cbn [transferLoop fold_left]. unfold transferLoop in IH. rewrite IH.
  apply transferAsset_addresses.
Qed.

(** A record with another address is not touched by the iteration. *)
Lemma transferAsset_frame provider source up (r : Run World) asset j s :
  nth_error (statuses r) j = Some s ->
  ts_address s <> address asset ->
  nth_error (statuses (transferAsset BigInt parseUnits encodeError request provider
                         source up r asset)) j = Some s.
Proof.
  intros Hj Hne.
  destruct (transferAsset_outcome provider source up r asset)
    as [log [v [_ [Hst _]]]].
  rewrite Hst, mapStatus_nth, Hj. cbn [option_map].
  apply String.eqb_neq in Hne. now rewrite Hne.
Qed.

(** The records of an asset stay as they are while assets with other
    addresses are processed. *)
Lemma transferLoop_frame provider source up (later : list TokenAsset) a :
  laterDiffer a later = true ->
  forall (r : Run World) j s,
    nth_error (statuses r) j = Some s -> ts_address s = address a ->
    nth_error
      (statuses (transferLoop BigInt parseUnits encodeError request provider source up
                   later r)) j = Some s.
Proof.
  induction later as [|b later IH]; intros Hd r j s Hj Ha; [exact Hj|].
  cbn [laterDiffer forallb] in Hd. apply andb_true_iff in Hd as [Hb Hd].
  cbn [transferLoop fold_left]. apply (IH Hd); [|assumption].
  apply transferAsset_frame; [assumption|].
  rewrite Ha. intros Heq. rewrite Heq, String.eqb_refl in Hb. discriminate.
Qed.

(** *** The run, asset by asset *)

Lemma reached_step provider source up sel (w : World) i a :
  nth_error sel i = Some a ->
  reached BigInt parseUnits encodeError request provider source up sel w (S i)
  = transferAsset BigInt parseUnits encodeError request provider source up
      (reached BigInt parseUnits encodeError request provider source up sel w i) a.
Proof.
  intros H. unfold reached, transferLoop.
  rewrite (firstn_snoc_nth _ _ _ H), fold_left_app. reflexivity.
Qed.

Lemma reached_record provider source up sel (w : World) i a :
  nth_error sel i = Some a ->
  exists s,
    nth_error
      (statuses (reached BigInt parseUnits encodeError request provider source up sel w i))
      i = Some s
    /\ ts_address s = address a.
Proof.
  intros H.
  assert (Haddr :
    map ts_address
      (statuses (reached BigInt parseUnits encodeError request provider source up sel w i))
    = map address sel).
  { unfold reached. rewrite transferLoop_addresses. cbn [startRun statuses].
    rewrite map_map. reflexivity. }
  assert (Hn : nth_error (map address sel) i = Some (address a))
    by (rewrite nth_error_map, H; reflexivity).
  rewrite <- Haddr, nth_error_map in Hn.
  destruct (nth_error (statuses _) i) as [s|]; [|discriminate].
  exists s. split; [reflexivity|]. now injection Hn.
Qed.

Lemma loop_from_reached provider source up sel (w : World) i :
  transferLoop BigInt parseUnits encodeError request provider source up sel
    (startRun sel w)
  = transferLoop BigInt parseUnits encodeError request provider source up (skipn i sel)
      (reached BigInt parseUnits encodeError request provider source up sel w i).
Proof.
  unfold reached, transferLoop.
  rewrite <- fold_left_app, firstn_skipn. reflexivity.
Qed.

(** The facts about the [i]-th iteration that the claims share. *)
Lemma iteration_at provider source up sel (w : World) i a :
  nth_error sel i = Some a ->
  let before := reached BigInt parseUnits encodeError request provider source up sel w i in
  let after :=
    reached BigInt parseUnits encodeError request provider source up sel w (S i) in
  let own := ownExchanges BigInt parseUnits encodeError request provider source up sel w i in
  exists s v,
    nth_error (statuses before) i = Some s
    /\ ts_address s = address a
    /\ sent after = sent before ++ own
    /\ statuses after = mapStatus (address a) (applyVerdict v) (statuses before)
    /\ nth_error (statuses after) i = Some (applyVerdict v s)
    /\ StepOutcome (submissionsDue a) own v
    /\ Forall (fun x => ex_provider x = provider) own.
Proof.
  intros H before after own. subst before after own. unfold ownExchanges.
  destruct (reached_record provider source up sel w i a H) as [s [Hs Ha]].
  rewrite (reached_step provider source up sel w i a H).
  destruct (transferAsset_outcome provider source up
              (reached BigInt parseUnits encodeError request provider source up sel w i) a)
    as [log [v [Hlog [Hst [Hout Hprov]]]]].
  cbv zeta in Hlog, Hst. rewrite Hlog, skipn_length_app.
  exists s, v. repeat split; try assumption.
  rewrite Hst, mapStatus_nth, Hs. cbn [option_map].
  now rewrite Ha, String.eqb_refl.
Qed.

Lemma final_record provider source up sel (w : World) i a :
  nth_error sel i = Some a ->
  laterDiffer a (skipn (S i) sel) = true ->
  nth_error
    (statuses (transferLoop BigInt parseUnits encodeError request provider source up sel
                 (startRun sel w))) i
  = nth_error
      (statuses (reached BigInt parseUnits encodeError request provider source up sel w
                   (S i))) i.
Proof.
  intros H Hd. rewrite (loop_from_reached provider source up sel w (S i)).
  destruct (iteration_at provider source up sel w i a H)
    as [s [v [_ [Ha [_ [_ [Hafter _]]]]]]].
  rewrite Hafter. apply (transferLoop_frame provider source up _ a Hd);
    [assumption|].
  rewrite applyVerdict_keeps. exact Ha.
Qed.

Lemma transferStatuses_set x b app :
  transferStatuses (setIsTransferring b (setTransferStatuses x app)) = x.
Proof. now destruct app. Qed.

(** When the precondition check passes and something is selected,
    [handleTransferAll] is the loop from the all-pending records. *)
Lemma handleTransferAll_run acct app (w : World) provider source :
  Invokes acct app provider source ->
  filter selected (assets app) <> [] ->
  let run := transferLoop BigInt parseUnits encodeError request provider source
               (upAddress app) (filter selected (assets app))
               (startRun (filter selected (assets app)) w) in
  transferStatuses
    (fst (fst (handleTransferAll BigInt parseUnits encodeError request acct app w)))
  = statuses run
  /\ snd (fst (handleTransferAll BigInt parseUnits encodeError request acct app w))
     = world run
  /\ snd (handleTransferAll BigInt parseUnits encodeError request acct app w) = sent run
  /\ isTransferring
       (fst (fst (handleTransferAll BigInt parseUnits encodeError request acct app w)))
     = false.
Proof.
  intros [Hp [Hs [Hne Hup]]] Hsel run. subst run.
  unfold handleTransferAll.
  destruct (resolveProvider acct app) as [p app1]. cbn [fst] in Hp.
  rewrite Hp, Hs.
  rewrite (eqb_empty_false _ Hne), (eqb_empty_false _ Hup). cbn [orb].
  destruct (filter selected (assets app)) as [|a0 sel]; [congruence|].
  cbn [fst snd]. rewrite transferStatuses_set.
  repeat split.
  match goal with |- isTransferring (setIsTransferring _ ?x) = _ =>
    now destruct x end.
Qed.

Lemma nth_error_nonempty {A : Type} (l : list A) i a :
  nth_error l i = Some a -> l <> [].
Proof. intros H ->. now destruct i. Qed.




(** *** The cases of one iteration *)

Lemma record_after l i s addr f g :
  nth_error l i = Some s -> ts_address s = addr -> keepsAddress g ->
  nth_error (mapStatus addr f (mapStatus addr g l)) i = Some (f (g s)).
Proof.
  intros Hs Ha Hg. rewrite !mapStatus_nth, Hs. cbn [option_map].
  rewrite Ha, String.eqb_refl, Hg, Ha, String.eqb_refl. reflexivity.
Qed.

Lemma skipn_length_self {A : Type} (l : list A) : skipn (List.length l) l = [].
Proof. apply skipn_all. Qed.

Lemma transferAsset_lsp7 provider source up (r : Run World) a :
  type a = LSP7 ->
  let marked := mapStatus (address a) withTransferring (statuses r) in
  let refused msg :=
    {| statuses := mapStatus (address a) (withError msg) marked;
       world := world r; sent := sent r |} in
  transferAsset BigInt parseUnits encodeError request provider source up r a =
  match parseUnits (transferAmount a) (decimals a) with
  | None => refused "Invalid amount"
  | Some n =>
      if (n <=? 0)%Z then refused "Amount must be greater than 0"
      else
        match BigInt (balance a) with
        | Throw e => refused (errorText e)
        | Ok held =>
            if (n >? held)%Z then refused "Amount exceeds balance"
            else
              match lsp7Error encodeError source up n with
              | Some e => refused (errorText e)
              | None =>
                  let req := lsp7Request source up (address a) n in
                  let (answer, w') := request (world r) provider req in
                  {| statuses :=
                       mapStatus (address a)
                         (match answer with
                          | Ok h => withSuccess h
                          | Throw e => withError (errorText e)
                          end) marked;
                     world := w';
                     sent := sent r ++ [ {| ex_provider := provider;
                                            ex_request := req;
                                            ex_answer := answer |} ] |}
              end
        end
  end.
Proof.
  intros Hty marked refused. subst marked refused.
  unfold transferAsset, tryTransfer. rewrite Hty.
  destruct (parseUnits (transferAmount a) (decimals a)) as [n|];
    [|reflexivity].
  destruct (n <=? 0)%Z; [reflexivity|].
  destruct (BigInt (balance a)) as [held|e]; [|reflexivity].
  destruct (n >? held)%Z; [reflexivity|].
  unfold encodeFunctionData, lsp7Error, lsp7Args.
  destruct (encodeError LSP7_TRANSFER_ABI "transfer" _) as [e|];
    [reflexivity|].
  unfold sendViaProvider, txRequest, lsp7Request.
  cbn [world updateStatus].
  destruct (request (world r) provider _) as [[h|e] w']; reflexivity.
Qed.

Lemma transferAsset_lsp8 provider source up (r : Run World) a tokenId rest :
  type a = LSP8 -> tokenIds a = Some (tokenId :: rest) ->
  transferAsset BigInt parseUnits encodeError request provider source up r a =
  match sendTokenIds encodeError request provider source up (address a)
          (tokenId :: rest) ""
          (updateStatus (address a) withTransferring r) with
  | (Ok h, r2) => updateStatus (address a) (withSuccess h) r2
  | (Throw e, r2) => updateStatus (address a) (withError (errorText e)) r2
  end.
Proof.
  intros Hty Hids. unfold transferAsset, tryTransfer. rewrite Hty, Hids.
  destruct (sendTokenIds encodeError request provider source up (address a)
              (tokenId :: rest) "" _) as [[h|e] r2]; reflexivity.
Qed.

Lemma transferAsset_lsp8_empty provider source up (r : Run World) a :
  type a = LSP8 -> tokenIds a = None \/ tokenIds a = Some [] ->
  transferAsset BigInt parseUnits encodeError request provider source up r a =
  updateStatus (address a) withTransferring r.
Proof.
  intros Hty [Hids | Hids]; unfold transferAsset, tryTransfer;
    now rewrite Hty, Hids.
Qed.



(** C2, amended: for the [i]-th selected asset, of type LSP7, a
    [transferAmount] that [parseUnits] rejects gives Error "Invalid amount";
    a parsed amount that is not positive gives Error "Amount must be greater
    than 0"; a positive one above the held balance gives Error "Amount
    exceeds balance"; a call that [encodeFunctionData] refuses to encode
    gives Error with the encoder's message; none of these sends a request.
    Otherwise exactly one [eth_sendTransaction] goes to the pinned provider,
    from the source to the asset's contract, carrying transfer(source,
    destination, amount, true, 0x) with the parsed amount, and the record
    shows Success with the returned hash, or Error when the request is
    rejected.  What the record shows stays to the end of the run unless a
    later selected asset has the same address. *)
Theorem lsp7_amount_validation acct app (w : World) provider source i a :
  Invokes acct app provider source ->
  nth_error (filter selected (assets app)) i = Some a ->
  type a = LSP7 ->
  let sel := filter selected (assets app) in
  let up := upAddress app in
  let after :=
    statuses (reached BigInt parseUnits encodeError request provider source up
                sel w (S i)) in
  let own :=
    ownExchanges BigInt parseUnits encodeError request provider source up
      sel w i in
  let final :=
    transferStatuses
      (fst (fst (handleTransferAll BigInt parseUnits encodeError request
                   acct app w))) in
  let amount := parseUnits (transferAmount a) (decimals a) in
  (amount = None ->
     statusAt after i = Some Error
     /\ errorAt after i = Some "Invalid amount" /\ own = [])
  /\ (forall n, amount = Some n -> (n <= 0)%Z ->
        statusAt after i = Some Error
        /\ errorAt after i = Some "Amount must be greater than 0"
        /\ own = [])
  /\ (forall n held,
        amount = Some n -> (0 < n)%Z -> BigInt (balance a) = Ok held ->
        (held < n)%Z ->
        statusAt after i = Some Error
        /\ errorAt after i = Some "Amount exceeds balance" /\ own = [])
  /\ (forall n held e,
        amount = Some n -> (0 < n)%Z -> BigInt (balance a) = Ok held ->
        (n <= held)%Z ->
        lsp7Error encodeError source up n = Some e ->
        statusAt after i = Some Error
        /\ errorAt after i = Some (errorText e) /\ own = [])
  /\ (forall n held,
        amount = Some n -> (0 < n)%Z -> BigInt (balance a) = Ok held ->
        (n <= held)%Z ->
        lsp7Error encodeError source up n = None ->
        exists answer,
          own = [ {| ex_provider := provider;
                     ex_request := lsp7Request source up (address a) n;
                     ex_answer := answer |} ]
          /\ (forall h, answer = Ok h ->
                statusAt after i = Some Success
                /\ txHashAt after i = Some h)
          /\ (forall e, answer = Throw e ->
                statusAt after i = Some Error
                /\ errorAt after i = Some (errorText e)))
  /\ (laterDiffer a (skipn (S i) sel) = true ->
      nth_error final i = nth_error after i).
Proof.
  intros Hinv Hi Hty sel up after own final amount.
  destruct (handleTransferAll_run acct app w provider source Hinv
              (nth_error_nonempty _ _ _ Hi)) as [Hfinal _].
  cbv zeta in Hfinal. fold sel up in Hfinal. fold final in Hfinal.
  destruct (reached_record provider source up sel w i a Hi) as [s [Hs Ha]].
  pose proof (reached_step provider source up sel w i a Hi) as Hstep.
  rewrite (transferAsset_lsp7 provider source up _ a Hty) in Hstep.
  cbv zeta in Hstep. fold amount in Hstep.
  subst after own. unfold ownExchanges, statusAt, errorAt, txHashAt.
  split; [|split; [|split; [|split; [|split]]]].
  - intros Hnone. rewrite Hnone in Hstep. rewrite Hstep.
    cbn [statuses sent].
    rewrite (record_after _ i s _ _ _ Hs Ha keeps_withTransferring).
    rewrite skipn_length_self. now repeat split.
  - intros n Hn Hle. rewrite Hn in Hstep.
    apply Z.leb_le in Hle. rewrite Hle in Hstep. rewrite Hstep.
    cbn [statuses sent].
    rewrite (record_after _ i s _ _ _ Hs Ha keeps_withTransferring).
    rewrite skipn_length_self. now repeat split.
  - intros n held Hn Hpos Hheld Hlt. rewrite Hn, Hheld in Hstep.
    assert (Hle : (n <=? 0)%Z = false) by (apply Z.leb_gt; lia).
    assert (Hgt : (n >? held)%Z = true) by (apply Z.gtb_lt; lia).
    rewrite Hle, Hgt in Hstep. rewrite Hstep. cbn [statuses sent].
    rewrite (record_after _ i s _ _ _ Hs Ha keeps_withTransferring).
    rewrite skipn_length_self. now repeat split.
  - intros n held e Hn Hpos Hheld Hle' Henc.
    rewrite Hn, Hheld, Henc in Hstep.
    assert (Hle : (n <=? 0)%Z = false) by (apply Z.leb_gt; lia).
    assert (Hgt : (n >? held)%Z = false).
    { rewrite Z.gtb_ltb. apply Z.ltb_ge. lia. }
    rewrite Hle, Hgt in Hstep. rewrite Hstep. cbn [statuses sent].
    rewrite (record_after _ i s _ _ _ Hs Ha keeps_withTransferring).
    rewrite skipn_length_self. now repeat split.
  - intros n held Hn Hpos Hheld Hle' Henc.
    rewrite Hn, Hheld, Henc in Hstep.
    assert (Hle : (n <=? 0)%Z = false) by (apply Z.leb_gt; lia).
    assert (Hgt : (n >? held)%Z = false).
    { rewrite Z.gtb_ltb. apply Z.ltb_ge. lia. }
    rewrite Hle, Hgt in Hstep.
    destruct (request _ provider (lsp7Request source up (address a) n))
      as [answer w'].
    exists answer. rewrite Hstep. cbn [statuses sent].
    rewrite (record_after _ i s _ _ _ Hs Ha keeps_withTransferring).
    rewrite skipn_length_app. split; [reflexivity|].
    split; [intros h -> | intros e ->]; now split.
  - intros Hd. rewrite Hfinal.
    now apply (final_record provider source up sel w i a).
Qed.


Lemma Forall_prefix {A : Type} (P : A -> Prop) (l : list A) (k : nat) :
  Forall P l -> Forall P (firstn k l).
Proof.
  intros H. rewrite <- (firstn_skipn k l) in H.
  now apply Forall_app in H as [H _].
Qed.

Lemma trace_by_asset provider source up sel (w : World) :
  forall n, n <= List.length sel ->
    sent (reached BigInt parseUnits encodeError request provider source up
            sel w n)
    = List.concat (map (ownExchanges BigInt parseUnits encodeError request
                          provider source up sel w) (seq 0 n)).
Proof.
  induction n as [|n IH]; intros Hn; [reflexivity|].
  destruct (nth_error sel n) as [a|] eqn:Ha.
  2:{ apply nth_error_None in Ha. lia. }
  destruct (iteration_at provider source up sel w n a Ha)
    as [s [v [_ [_ [Hsent _]]]]].
  rewrite Hsent, IH by lia.
  rewrite seq_S, map_app, concat_app. cbn [map List.concat Nat.add].
  now rewrite app_nil_r.
Qed.

(** C4, amended: a run of [handleTransferAll] starts from one pending record
    per selected asset, in selection order, and keeps that list of
    addresses; the requests of the run are those of the first selected
    asset, then those of the second, and so on.  For a selected LSP8 asset
    with token ids [ids], the requests are transfer(source, destination, id,
    true, 0x) calls to its contract through the pinned provider, for the
    first ids of the list in order; all of them but possibly the last were
    answered.  The loop stops at the first id whose call cannot be encoded,
    which gets no request, or whose request is rejected; either way the
    record shows Error.  When every call encodes there is at least one
    request, and when moreover every request is answered there is one
    request per id; with one answered request per id the record shows
    Success and its txHash is the hash returned for the last id. *)
Theorem lsp8_fan_out acct app (w : World) provider source :
  Invokes acct app provider source ->
  filter selected (assets app) <> [] ->
  let sel := filter selected (assets app) in
  let up := upAddress app in
  let final :=
    transferStatuses
      (fst (fst (handleTransferAll BigInt parseUnits encodeError request
                   acct app w))) in
  let trace :=
    snd (handleTransferAll BigInt parseUnits encodeError request acct app w) in
  let own :=
    ownExchanges BigInt parseUnits encodeError request provider source up
      sel w in
  statuses (reached BigInt parseUnits encodeError request provider source up
              sel w 0)
  = map pendingStatus sel
  /\ map ts_address final = map address sel
  /\ trace = List.concat (map own (seq 0 (List.length sel)))
  /\ (forall i a ids,
        nth_error sel i = Some a -> type a = LSP8 ->
        tokenIds a = Some ids -> ids <> [] ->
        let after :=
          statuses (reached BigInt parseUnits encodeError request provider
                      source up sel w (S i)) in
        let k := List.length (own i) in
        Forall (fun x => ex_provider x = provider) (own i)
        /\ k <= List.length ids
        /\ map ex_request (own i)
           = map (lsp8Request source up (address a)) (firstn k ids)
        /\ Forall (fun id => lsp8Error encodeError source up id = None)
                  (firstn k ids)
        /\ Forall (fun x => answeredOk x = true) (removelast (own i))
        /\ (Forall (fun x => answeredOk x = true) (own i) ->
            k = List.length ids ->
            statusAt after i = Some Success
            /\ exists h,
                 last (map ex_answer (own i)) (Ok "") = Ok h
                 /\ txHashAt after i = Some h)
        /\ (Forall (fun x => answeredOk x = true) (own i) ->
            k < List.length ids ->
            exists id e,
              nth_error ids k = Some id
              /\ lsp8Error encodeError source up id = Some e
              /\ statusAt after i = Some Error
              /\ errorAt after i = Some (errorText e))
        /\ (forall front x e,
              own i = front ++ [x] -> ex_answer x = Throw e ->
              statusAt after i = Some Error
              /\ errorAt after i = Some (errorText e))
        /\ (Forall (fun id => lsp8Error encodeError source up id = None) ids ->
            own i <> []
            /\ (Forall (fun x => answeredOk x = true) (own i) ->
                k = List.length ids))
        /\ (laterDiffer a (skipn (S i) sel) = true ->
            nth_error final i = nth_error after i)).
Proof.
  intros Hinv Hsel sel up final trace own.
  destruct (handleTransferAll_run acct app w provider source Hinv Hsel)
    as [Hfinal [_ [Htrace _]]].
  cbv zeta in Hfinal, Htrace. fold sel up in Hfinal, Htrace.
  fold final in Hfinal. fold trace in Htrace.
  split; [reflexivity|]. split; [|split].
  - rewrite Hfinal, transferLoop_addresses. cbn [startRun statuses].
    now rewrite map_map.
  - rewrite Htrace. subst own.
    rewrite <- (trace_by_asset provider source up sel w (List.length sel))
      by lia.
    unfold reached. now rewrite firstn_all.
  - intros i a ids Hi Hty Hids Hne after k.
    destruct ids as [|tokenId rest]; [congruence|].
    destruct (reached_record provider source up sel w i a Hi) as [s [Hs Ha]].
    pose proof (reached_step provider source up sel w i a Hi) as Hstep.
    rewrite (transferAsset_lsp8 provider source up _ a tokenId rest Hty Hids)
      in Hstep.
    pose proof (sendTokenIds_spec provider source up (address a)
                  (tokenId :: rest) ""
                  (updateStatus (address a) withTransferring
                     (reached BigInt parseUnits encodeError request provider
                        source up sel w i))) as Hloop.
    cbv zeta in Hloop.
    destruct (sendTokenIds encodeError request provider source up (address a)
                (tokenId :: rest) "" _) as [res r2].
    cbn [fst snd] in Hloop.
    destruct Hloop as [Hst [log [Hlog [Hprov [Hreq [Hlen [Henc [Hfront
                        Hres]]]]]]]].
    cbn [sent statuses updateStatus] in Hlog, Hst.
    assert (Hown : own i = log).
    { subst own. unfold ownExchanges.
      destruct res; rewrite Hstep; cbn [sent updateStatus]; rewrite Hlog;
        apply skipn_length_app. }
    subst k. rewrite Hown.
    do 5 (split; [assumption|]).
    assert (Hlast : laterDiffer a (skipn (S i) sel) = true ->
                    nth_error final i = nth_error after i).
    { intros Hd. rewrite Hfinal.
      now apply (final_record provider source up sel w i a). }
    destruct res as [h|e].
    + destruct Hres as [Hn [Hok Hlastok]].
      assert (Hrec : nth_error after i
                     = Some (withSuccess h (withTransferring s))).
      { subst after. rewrite Hstep. cbn [statuses updateStatus]. rewrite Hst.
        now apply record_after; auto with engine. }
      split; [|split; [|split; [|split]]].
      * intros _ _. unfold statusAt, txHashAt. rewrite Hrec.
        split; [reflexivity|]. now exists h.
      * intros _ Hlt. lia.
      * intros front x e Hfx Hx. rewrite Hfx in Hok.
        apply Forall_answeredOk_last in Hok as [h' Hh']. congruence.
      * intros _. split; [|intros _; exact Hn].
        intros ->. discriminate Hn.
      * exact Hlast.
    + assert (Hrec : nth_error after i
                     = Some (withError (errorText e) (withTransferring s))).
      { subst after. rewrite Hstep. cbn [statuses updateStatus]. rewrite Hst.
        now apply record_after; auto with engine. }
      destruct Hres as [[front [x [Hfx Hx]]] | [id [Hid [Hide Hok]]]].
      * split; [|split; [|split; [|split]]].
        -- intros Hall. rewrite Hfx in Hall.
           apply Forall_answeredOk_last in Hall as [h Hh]. congruence.
        -- intros Hall. rewrite Hfx in Hall.
           apply Forall_answeredOk_last in Hall as [h Hh]. congruence.
        -- intros front' x' e' Hfx' Hx'. rewrite Hfx in Hfx'.
           apply app_inj_tail in Hfx' as [_ <-].
           assert (e' = e) by congruence. subst e'.
           unfold statusAt, errorAt. rewrite Hrec. now split.
        -- intros _. split.
           ++ rewrite Hfx. intros Hnil. symmetry in Hnil.
              now apply app_cons_not_nil in Hnil.
           ++ intros Hall. rewrite Hfx in Hall.
              apply Forall_answeredOk_last in Hall as [h Hh]. congruence.
        -- exact Hlast.
      * assert (Hlt : List.length log < List.length (tokenId :: rest)).
        { apply nth_error_Some. now rewrite Hid. }
        split; [|split; [|split; [|split]]].
        -- intros _ Heq. lia.
        -- intros _ _. exists id, e. unfold statusAt, errorAt. rewrite Hrec.
           now repeat split.
        -- intros front x e' Hfx Hx. rewrite Hfx in Hok.
           apply Forall_answeredOk_last in Hok as [h Hh]. congruence.
        -- intros Hall. exfalso. rewrite Forall_forall in Hall.
           apply nth_error_In in Hid. rewrite (Hall id Hid) in Hide.
           discriminate.
        -- exact Hlast.
Qed.

End EngineFacts.

(** *** The run at the sample session *)

Lemma threeAssets_invokes :
  Invokes sampleAccount threeAssets 1 aliceAddress.
Proof. repeat split; discriminate. Defined.


Lemma validationSession_invokes :
  Invokes sampleAccount validationSession 1 aliceAddress.
Proof. repeat split; discriminate. Defined.

(** C2, amended, at four LSP7 assets with the amounts "0", "abc", "11" and
    "5" against a balance of 10: only the last one is sent. *)
Lemma lsp7_amount_validation_witness :
  let final :=
    transferStatuses
      (fst (fst (handleTransferAll sampleBigInt sampleParseUnits
                   sampleEncodeError walletRequest sampleAccount
                   validationSession 0))) in
  (exists answer,
      ownExchanges sampleBigInt sampleParseUnits sampleEncodeError
        walletRequest 1 aliceAddress profileAddress
        [zeroCoin; junkCoin; greedyCoin; coinA] 0 3
      = [ {| ex_provider := 1;
             ex_request := lsp7Request aliceAddress profileAddress
                             coinAAddress 5;
             ex_answer := answer |} ])
  /\ errorAt
       (statuses (reached sampleBigInt sampleParseUnits sampleEncodeError
                    walletRequest 1 aliceAddress profileAddress
                    [zeroCoin; junkCoin; greedyCoin; coinA] 0 3)) 2
     = Some "Amount exceeds balance"
  /\ map (fun s => (ts_status s, ts_txHash s, ts_error s)) final
     = [(Error, None, Some "Amount must be greater than 0");
        (Error, None, Some "Invalid amount");
        (Error, None, Some "Amount exceeds balance");
        (Success, Some "0xhash0", None)]
  /\ map ex_request
       (snd (handleTransferAll sampleBigInt sampleParseUnits sampleEncodeError
               walletRequest sampleAccount validationSession 0))
     = [lsp7Request aliceAddress profileAddress coinAAddress 5].
Proof.
  pose proof (lsp7_amount_validation sampleBigInt sampleParseUnits
                sampleEncodeError nat walletRequest sampleAccount
                validationSession 0 1 aliceAddress 3 coinA
                validationSession_invokes eq_refl eq_refl) as Hsent.
  pose proof (lsp7_amount_validation sampleBigInt sampleParseUnits
                sampleEncodeError nat walletRequest sampleAccount
                validationSession 0 1 aliceAddress 2 greedyCoin
                validationSession_invokes eq_refl eq_refl) as Hgreedy.
  cbv zeta in Hsent, Hgreedy.
  destruct Hsent as [_ [_ [_ [_ [Hsent _]]]]].
  destruct Hgreedy as [_ [_ [Hgreedy _]]].
  destruct (Hsent 5%Z 10%Z eq_refl eq_refl eq_refl) as [answer [Hown _]];
    [discriminate | reflexivity |].
  destruct (Hgreedy 11%Z 10%Z eq_refl eq_refl eq_refl eq_refl)
    as [_ [Herr _]].
  split; [now exists answer|]. split; [exact Herr|].
  split; reflexivity.
Defined.

(** C2 as stated fails: with an amount within the balance and a destination
    that is no address for the encoder, [encodeFunctionData] throws inside
    the [try] block, so no transaction is submitted and the record shows
    Error. *)
Lemma lsp7_amount_validation_counterexample :
  sampleParseUnits (transferAmount coinA) (decimals coinA) = Some 5%Z
  /\ sampleBigInt (balance coinA) = Ok 10%Z
  /\ upAddress typoSession = "0x2222"
  /\ snd (handleTransferAll sampleBigInt sampleParseUnits sampleEncodeError
            walletRequest sampleAccount typoSession 0) = []
  /\ map ts_status
       (transferStatuses
          (fst (fst (handleTransferAll sampleBigInt sampleParseUnits
                       sampleEncodeError walletRequest sampleAccount
                       typoSession 0))))
     = [Error]
  /\ ~ (forall (encodeError : AbiFunction -> string -> list AbiValue ->
                              option JsError)
               (request : nat -> EthereumProvider -> RpcRequest ->
                          Result string * nat)
               acct app w provider source i a n held,
          Invokes acct app provider source ->
          nth_error (filter selected (assets app)) i = Some a ->
          type a = LSP7 ->
          sampleParseUnits (transferAmount a) (decimals a) = Some n ->
          sampleBigInt (balance a) = Ok held -> (0 < n <= held)%Z ->
          List.length
            (ownExchanges sampleBigInt sampleParseUnits encodeError request
               provider source (upAddress app)
               (filter selected (assets app)) w i)
          = 1).
Proof.
  split; [reflexivity|]. split; [reflexivity|]. split; [reflexivity|].
  split; [reflexivity|]. split; [reflexivity|].
  intros H.
  assert (Hinv : Invokes sampleAccount typoSession 1 aliceAddress)
    by (repeat split; discriminate).
  specialize (H sampleEncodeError walletRequest sampleAccount typoSession 0 1
                aliceAddress 0 coinA 5%Z 10%Z Hinv eq_refl eq_refl eq_refl
                eq_refl).
  assert (Hrange : (0 < 5 <= 10)%Z) by lia.
  specialize (H Hrange). vm_compute in H. discriminate H.
Qed.

Lemma stuckSession_invokes :
  Invokes sampleAccount stuckSession 1 aliceAddress.
Proof. repeat split; discriminate. Defined.



(** C4, amended, at the three selected assets: the two token ids of the
    LSP8 asset go out in order and the hash of the second is recorded; and
    at a collection whose second id is one byte long: the first id goes
    out, the second cannot be encoded, and the record shows Error. *)
Lemma lsp8_fan_out_witness :
  map ex_request
    (ownExchanges sampleBigInt sampleParseUnits sampleEncodeError
       walletRequest 1 aliceAddress profileAddress
       [coinA; coinBad; twoPunks] 0 2)
  = [lsp8Request aliceAddress profileAddress punksAddress tokenOne;
     lsp8Request aliceAddress profileAddress punksAddress tokenTwo]
  /\ txHashAt
       (statuses (reached sampleBigInt sampleParseUnits sampleEncodeError
                    walletRequest 1 aliceAddress profileAddress
                    [coinA; coinBad; twoPunks] 0 3)) 2
     = Some "0xhash3"
  /\ map ex_request
       (snd (handleTransferAll sampleBigInt sampleParseUnits sampleEncodeError
               walletRequest sampleAccount threeAssets 0))
     = [lsp7Request aliceAddress profileAddress coinAAddress 5;
        lsp7Request aliceAddress profileAddress refusedAddress 1;
        lsp8Request aliceAddress profileAddress punksAddress tokenOne;
        lsp8Request aliceAddress profileAddress punksAddress tokenTwo]
  /\ map ex_request
       (snd (handleTransferAll sampleBigInt sampleParseUnits sampleEncodeError
               walletRequest sampleAccount shortIdSession 0))
     = [lsp8Request aliceAddress profileAddress punksAddress tokenOne]
  /\ map ts_status
       (transferStatuses
          (fst (fst (handleTransferAll sampleBigInt sampleParseUnits
                       sampleEncodeError walletRequest sampleAccount
                       shortIdSession 0))))
     = [Error].
Proof.
  assert (Hsel : filter selected (assets threeAssets) <> [])
    by discriminate.
  pose proof (lsp8_fan_out sampleBigInt sampleParseUnits sampleEncodeError nat
                walletRequest sampleAccount threeAssets 0 1 aliceAddress
                threeAssets_invokes Hsel) as H.
  cbv zeta in H. destruct H as [_ [_ [_ Hlsp8]]].
  destruct (Hlsp8 2 twoPunks [tokenOne; tokenTwo] eq_refl eq_refl eq_refl)
    as [_ [_ [Hreq [_ [_ [Hall _]]]]]]; [discriminate|].
  destruct Hall as [_ [h [Hlast Hhash]]];
    [repeat constructor | reflexivity |].
  split; [exact Hreq|]. split; [|repeat split; reflexivity].
  etransitivity; [exact Hhash|]. f_equal.
  vm_compute in Hlast. now injection Hlast.
Defined.

(** C4 as stated fails: when the wallet rejects the first of two token ids,
    the loop over the ids ends there, and one request was made, not two. *)
Lemma lsp8_fan_out_counterexample :
  tokenIds twoPunks = Some [tokenOne; tokenTwo]
  /\ map ex_request
       (snd (handleTransferAll sampleBigInt sampleParseUnits sampleEncodeError
               rejectAll sampleAccount punksSession 0))
     = [lsp8Request aliceAddress profileAddress punksAddress tokenOne]
  /\ map ts_status
       (transferStatuses
          (fst (fst (handleTransferAll sampleBigInt sampleParseUnits
                       sampleEncodeError rejectAll sampleAccount punksSession
                       0))))
     = [Error]
  /\ ~ (forall (request : nat -> EthereumProvider -> RpcRequest ->
                          Result string * nat)
               acct app w provider source i a ids,
          Invokes acct app provider source ->
          nth_error (filter selected (assets app)) i = Some a ->
          type a = LSP8 -> tokenIds a = Some ids ->
          List.length
            (ownExchanges sampleBigInt sampleParseUnits sampleEncodeError
               request provider source (upAddress app)
               (filter selected (assets app)) w i)
          = List.length ids).
Proof.
  split; [reflexivity|]. split; [reflexivity|]. split; [reflexivity|].
  intros H.
  specialize (H rejectAll sampleAccount punksSession 0 1 aliceAddress 0
                twoPunks [tokenOne; tokenTwo]).
  assert (Hinv : Invokes sampleAccount punksSession 1 aliceAddress)
    by (repeat split; discriminate).
  specialize (H Hinv eq_refl eq_refl eq_refl). vm_compute in H.
  discriminate H.
Qed.


(* ===================================================================== *)
(** * Further properties of the page                                      *)
(* ===================================================================== *)

(** ** The requests of a run *)

Section EngineTrace.

Variable BigInt : string -> Result Z.
Variable parseUnits : string -> Z -> option Z.
Variable encodeError :
  AbiFunction -> string -> list AbiValue -> option JsError.
Variable World : Type.
Variable request :
  World -> EthereumProvider -> RpcRequest -> Result string * World.

Lemma replay_app (w w1 w2 : World) l1 l2 :
  Replay request w l1 w1 -> Replay request w1 l2 w2 ->
  Replay request w (l1 ++ l2) w2.
Proof.
  induction 1 as [w | w x w1 log w1' Hx _ IH]; intros H2; [exact H2|].
  cbn [app]. econstructor; [exact Hx | now apply IH].
Qed.

Lemma sendTokenIds_replay provider source up contract (ids : list string) :
  forall lastTxHash (r : Run World),
    let out := sendTokenIds encodeError request provider source up contract ids
                 lastTxHash r in
    exists log,
      sent (snd out) = sent r ++ log
      /\ Replay request (world r) log (world (snd out))
      /\ Forall (fun x =>
                   ex_provider x = provider
                   /\ exists id, In id ids
                        /\ ex_request x = lsp8Request source up contract id)
                log.
Proof.
  induction ids as [|tokenId rest IH]; intros lastTxHash r.
  - exists []. cbn. rewrite app_nil_r.
    split; [reflexivity|]. split; constructor.
  - cbn [sendTokenIds]. unfold encodeFunctionData.
    destruct (encodeError LSP8_TRANSFER_ABI "transfer" _) as [e|].
    { exists []. cbn [fst snd]. rewrite app_nil_r.
      split; [reflexivity|]. split; constructor. }
    unfold sendViaProvider.
    change (txRequest source contract
              {| cd_abi := LSP8_TRANSFER_ABI; cd_functionName := "transfer";
                 cd_args := [VAddress source; VAddress up; VBytes32 tokenId;
                             VBool true; VBytes "0x"] |})
      with (lsp8Request source up contract tokenId).
    destruct (request (world r) provider
                (lsp8Request source up contract tokenId))
      as [[h|e] w1] eqn:Hreq.
    + specialize (IH h {| statuses := statuses r; world := w1;
                          sent := sent r ++
                            [ {| ex_provider := provider;
                                 ex_request :=
                                   lsp8Request source up contract tokenId;
                                 ex_answer := Ok h |} ] |}).
      cbv zeta in IH |- *.
      destruct IH as [log [Hlog [Hrep Hall]]].
      cbn [sent world] in Hlog, Hrep.
      eexists (_ :: log). split; [|split].
      * rewrite Hlog, <- app_assoc. reflexivity.
      * econstructor; [exact Hreq | exact Hrep].
      * constructor.
        -- split; [reflexivity|]. exists tokenId. split; [now left|].
           reflexivity.
        -- eapply Forall_impl; [|exact Hall].
           intros x [Hp [id [Hin Hx]]]. split; [assumption|].
           exists id. split; [now right | assumption].
    + cbn [fst snd sent world]. eexists [_]. split; [reflexivity|].
      split.
      * econstructor; [exact Hreq | constructor].
      * constructor; [|constructor]. split; [reflexivity|].
        exists tokenId. split; [now left | reflexivity].
Qed.

(** One iteration, seen from outside: the exchanges it adds are transfer
    requests for this asset, made one after the other on the world; the
    records with the asset's address get one update, and that update leaves
    ['transferring'] only for an LSP8 asset without token ids. *)
Lemma transferAsset_summary provider source up (r : Run World) a :
  let r' := transferAsset BigInt parseUnits encodeError request provider source up r a in
  exists log v,
    sent r' = sent r ++ log
    /\ statuses r' = mapStatus (address a) (applyVerdict v) (statuses r)
    /\ Replay request (world r) log (world r')
    /\ Forall (exchangeFor BigInt parseUnits provider source up a) log
    /\ (v = VStuck -> idless a).
Proof.
  cbv zeta. destruct (type a) eqn:Hty.
  - rewrite (transferAsset_lsp7 BigInt parseUnits encodeError World request provider
               source up r a Hty). cbv zeta.
    assert (Hrefused : forall msg,
      exists log v,
        sent r = sent r ++ log
        /\ mapStatus (address a) (withError msg)
             (mapStatus (address a) withTransferring (statuses r))
           = mapStatus (address a) (applyVerdict v) (statuses r)
        /\ Replay request (world r) log (world r)
        /\ Forall (exchangeFor BigInt parseUnits provider source up a) log
        /\ (v = VStuck -> idless a)).
    { intros msg. exists [], (VError msg). rewrite app_nil_r.
      rewrite mapStatus_compose by auto with engine.
      split; [reflexivity|]. split; [reflexivity|].
      split; [constructor|]. split; [constructor | discriminate]. }
    destruct (parseUnits (transferAmount a) (decimals a)) as [n|] eqn:Hn;
      [|apply Hrefused].
    destruct (n <=? 0)%Z eqn:Hle; [apply Hrefused|].
    destruct (BigInt (balance a)) as [held|e] eqn:Hheld; [|apply Hrefused].
    destruct (n >? held)%Z eqn:Hgt; [apply Hrefused|].
    destruct (lsp7Error encodeError source up n) as [e|]; [apply Hrefused|].
    destruct (request (world r) provider
                (lsp7Request source up (address a) n)) as [answer w'] eqn:Hreq.
    cbn [sent statuses world].
    eexists [_], (match answer with
                  | Ok h => VSuccess h
                  | Throw e => VError (errorText e)
                  end).
    split; [reflexivity|]. split; [|split; [|split]].
    + destruct answer; rewrite mapStatus_compose by auto with engine;
        reflexivity.
    + econstructor; [exact Hreq | constructor].
    + constructor; [|constructor]. split; [reflexivity|].
      unfold exchangeFor. rewrite Hty. exists n, held.
      apply Z.leb_gt in Hle. rewrite Z.gtb_ltb in Hgt.
      apply Z.ltb_ge in Hgt. repeat split; try assumption; lia.
    + destruct answer; discriminate.
  - destruct (tokenIds a) as [[|tokenId rest]|] eqn:Hids.
    1,3: rewrite (transferAsset_lsp8_empty BigInt parseUnits encodeError World request
                    provider source up r a Hty) by (now right) || (now left);
         exists [], VStuck; cbn [sent statuses world updateStatus];
         rewrite app_nil_r;
         (split; [reflexivity|]); (split; [reflexivity|]);
         (split; [constructor|]); (split; [constructor|]);
         intros _; (split; [assumption|]); (now right) || (now left).
    rewrite (transferAsset_lsp8 BigInt parseUnits encodeError World request provider
               source up r a tokenId rest Hty Hids).
    pose proof (sendTokenIds_replay provider source up (address a)
                  (tokenId :: rest) ""
                  (updateStatus (address a) withTransferring r)) as Hrep.
    pose proof (sendTokenIds_spec encodeError World request provider
                  source up
                  (address a) (tokenId :: rest) ""
                  (updateStatus (address a) withTransferring r)) as Hspec.
    cbv zeta in Hrep, Hspec.
    destruct (sendTokenIds encodeError request provider source up (address a)
                (tokenId :: rest) "" _) as [res r2].
    cbn [fst snd] in Hrep, Hspec.
    destruct Hrep as [log [Hlog [Hreplay Hall]]].
    destruct Hspec as [Hst _].
    cbn [sent statuses world updateStatus] in Hlog, Hreplay, Hst.
    exists log, (match res with
                 | Ok h => VSuccess h
                 | Throw e => VError (errorText e)
                 end).
    assert (Hfor : Forall (exchangeFor BigInt parseUnits provider source up a)
                          log).
    { eapply Forall_impl; [|exact Hall].
      intros x [Hp [id [Hin Hx]]]. split; [assumption|]. rewrite Hty.
      exists id. unfold idsOf. rewrite Hids. now split. }
    destruct res as [h|e]; cbn [sent statuses world updateStatus];
      rewrite Hst, mapStatus_compose by auto with engine;
      (split; [assumption|]); (split; [reflexivity|]);
      (split; [assumption|]); (split; [assumption | discriminate]).
Qed.

(** The whole loop: its exchanges replay on the world in order, and each
    is a transfer request for one of the assets of the list. *)
Lemma transferLoop_summary provider source up (l : list TokenAsset) :
  forall r : Run World,
    let r' := transferLoop BigInt parseUnits encodeError request provider source up l r in
    exists log,
      sent r' = sent r ++ log
      /\ Replay request (world r) log (world r')
      /\ Forall (fun x =>
                   exists a, In a l
                     /\ exchangeFor BigInt parseUnits provider source up a x)
                log.
Proof.
  induction l as [|a l IH]; intros r.
  - exists []. cbn. rewrite app_nil_r.
    split; [reflexivity|]. split; constructor.
  - cbn [transferLoop fold_left].
    destruct (transferAsset_summary provider source up r a)
      as [log1 [v [Hlog1 [_ [Hrep1 [Hfor1 _]]]]]].
    destruct (IH (transferAsset BigInt parseUnits encodeError request provider source up
                    r a)) as [log2 [Hlog2 [Hrep2 Hfor2]]].
    cbv zeta in Hlog1, Hrep1, Hlog2, Hrep2. unfold transferLoop in Hlog2, Hrep2.
    exists (log1 ++ log2). split; [|split].
    + rewrite Hlog2, Hlog1, app_assoc. reflexivity.
    + now apply (replay_app _ _ _ _ _ Hrep1).
    + apply Forall_app. split.
      * eapply Forall_impl; [|exact Hfor1]. intros x Hx. exists a.
        split; [now left | assumption].
      * eapply Forall_impl; [|exact Hfor2]. intros x [b [Hb Hx]]. exists b.
        split; [now right | assumption].
Qed.

(** [handleTransferAll] either returns before the loop, with nothing sent
    and the world as it was, or passes its checks with something selected. *)
Lemma handleTransferAll_cases acct app (w : World) :
  handleTransferAll BigInt parseUnits encodeError request acct app w
  = (snd (resolveProvider acct app), w, [])
  \/ exists provider source,
       Invokes acct app provider source
       /\ filter selected (assets app) <> [].
Proof.
  unfold handleTransferAll, Invokes.
  destruct (resolveProvider acct app) as [[p|] app1]; cbn [fst snd];
    [|now left].
  destruct (sourceAddress acct app) as [source|]; [|now left].
  destruct (String.eqb_spec source "") as [-> | Hs]; [now left|].
  destruct (String.eqb_spec (upAddress app) "") as [Hu | Hu].
  { left. reflexivity. }
  cbn [orb].
  destruct (filter selected (assets app)) as [|a0 sel] eqn:Hsel; [now left|].
  right. exists p, source. repeat split; try assumption. discriminate.
Qed.

Lemma handleTransferAll_trace acct app (w : World) provider source :
  Invokes acct app provider source ->
  filter selected (assets app) <> [] ->
  let out := handleTransferAll BigInt parseUnits encodeError request acct app w in
  Replay request w (snd out) (snd (fst out))
  /\ Forall (fun x =>
               exists a, In a (filter selected (assets app))
                 /\ exchangeFor BigInt parseUnits provider source
                      (upAddress app) a x) (snd out).
Proof.
  intros Hinv Hsel out. subst out.
  destruct (handleTransferAll_run BigInt parseUnits encodeError World request acct app w
              provider source Hinv Hsel) as [_ [Hworld [Htrace _]]].
  cbv zeta in Hworld, Htrace. rewrite Hworld, Htrace.
  destruct (transferLoop_summary provider source (upAddress app)
              (filter selected (assets app))
              (startRun (filter selected (assets app)) w))
    as [log [Hlog [Hrep Hfor]]].
  cbv zeta in Hlog, Hrep. cbn [startRun sent world List.app] in Hlog, Hrep.
  rewrite Hlog. now split.
Qed.

(** X1: every request of [handleTransferAll] goes through the provider the
    handler resolved, from the source address, to the contract of an asset
    of the ledger that is selected, and moves to the destination either
    that asset's parsed amount, which is positive and at most its balance,
    or one of that asset's token ids. *)
Theorem transfers_only_for_selected_assets acct app (w : World) x :
  In x (snd (handleTransferAll BigInt parseUnits encodeError request acct app w)) ->
  exists provider source a,
    fst (resolveProvider acct app) = Some provider
    /\ sourceAddress acct app = Some source
    /\ In a (assets app)
    /\ selected a = true
    /\ exchangeFor BigInt parseUnits provider source (upAddress app) a x.
Proof.
  intros Hx. destruct (handleTransferAll_cases acct app w)
    as [Hnoop | [provider [source [Hinv Hsel]]]].
  - rewrite Hnoop in Hx. destruct Hx.
  - destruct (handleTransferAll_trace acct app w provider source Hinv Hsel)
      as [_ Hfor].
    rewrite Forall_forall in Hfor. destruct (Hfor x Hx) as [a [Ha Hfor_a]].
    apply filter_In in Ha as [Ha Hsel_a]. destruct Hinv as [Hp [Hs _]].
    now exists provider, source, a.
Qed.

(** X2: the requests of [handleTransferAll] are made one after the other:
    each is put to the world left by the answer to the one before, and the
    world the handler ends with is the world after the last answer. *)
Theorem requests_are_sequential acct app (w : World) :
  let out := handleTransferAll BigInt parseUnits encodeError request acct app w in
  Replay request w (snd out) (snd (fst out)).
Proof.
  cbv zeta. destruct (handleTransferAll_cases acct app w)
    as [Hnoop | [provider [source [Hinv Hsel]]]].
  - rewrite Hnoop. constructor.
  - now destruct (handleTransferAll_trace acct app w provider source Hinv Hsel).
Qed.

Lemma resolveProvider_keeps acct app :
  let app' := snd (resolveProvider acct app) in
  transferStatuses app' = transferStatuses app
  /\ assets app' = assets app
  /\ isTransferring app' = isTransferring app
  /\ step app' = step app
  /\ upAddress app' = upAddress app
  /\ savedSourceAddress app' = savedSourceAddress app.
Proof.
  unfold resolveProvider. destruct (sourceProvider app); [now repeat split|].
  destruct (connector acct) as [c|]; [|now repeat split].
  destruct (getProvider c); [|now repeat split].
  destruct app; now repeat split.
Qed.

Lemma selectedCount_deselectAll l : selectedCount (deselectAll l) = 0.
Proof.
  unfold selectedCount, deselectAll.
  induction l as [|a l IH]; [reflexivity | exact IH].
Qed.

Lemma selectedCount_zero l : selectedCount l = 0 -> filter selected l = [].
Proof.
  unfold selectedCount. now destruct (filter selected l).
Qed.

(** X3: [handleTransferAll] does nothing when no provider can be resolved,
    when the source or the destination address is missing, or when nothing
    is selected: no request, the world and the status records as they were,
    [isTransferring] untouched.  In particular it does nothing right after
    [deselectAll]. *)
Theorem transfer_does_nothing_unless_ready :
  (forall acct app (w : World),
      fst (resolveProvider acct app) = None
      \/ truthy (sourceAddress acct app) = false
      \/ upAddress app = ""
      \/ selectedCount (assets app) = 0 ->
      let out := handleTransferAll BigInt parseUnits encodeError request acct app w in
      snd out = [] /\ snd (fst out) = w
      /\ transferStatuses (fst (fst out)) = transferStatuses app
      /\ isTransferring (fst (fst out)) = isTransferring app
      /\ assets (fst (fst out)) = assets app
      /\ step (fst (fst out)) = step app)
  /\ (forall acct app (w : World),
        let out :=
          handleTransferAll BigInt parseUnits encodeError request acct
            (setAssets (deselectAll (assets app)) app) w in
        snd out = [] /\ snd (fst out) = w
        /\ transferStatuses (fst (fst out)) = transferStatuses app).
Proof.
  assert (Hmain : forall acct app (w : World),
      fst (resolveProvider acct app) = None
      \/ truthy (sourceAddress acct app) = false
      \/ upAddress app = ""
      \/ selectedCount (assets app) = 0 ->
      handleTransferAll BigInt parseUnits encodeError request acct app w
      = (snd (resolveProvider acct app), w, [])).
  { intros acct app w Hguard.
    destruct (handleTransferAll_cases acct app w)
      as [Hnoop | [provider [source [[Hp [Hs [Hne Hup]]] Hsel]]]];
      [exact Hnoop|].
    exfalso. destruct Hguard as [H | [H | [H | H]]].
    - congruence.
    - rewrite Hs in H. cbn [truthy] in H.
      rewrite (eqb_empty_false _ Hne) in H. discriminate.
    - contradiction.
    - now apply selectedCount_zero in H. }
  split.
  - intros acct app w Hguard out. subst out.
    rewrite (Hmain acct app w Hguard). cbn [fst snd].
    destruct (resolveProvider_keeps acct app) as [H1 [H2 [H3 [H4 _]]]].
    now repeat split.
  - intros acct app w out. subst out.
    rewrite (Hmain acct _ w).
    + cbn [fst snd].
      destruct (resolveProvider_keeps acct
                  (setAssets (deselectAll (assets app)) app)) as [H1 _].
      rewrite H1. split; [reflexivity|]. split; [reflexivity|].
      now destruct app.
    + right; right; right.
      replace (assets (setAssets (deselectAll (assets app)) app))
        with (deselectAll (assets app)) by now destruct app.
      apply selectedCount_deselectAll.
Qed.

(** ** The records at the end of a run *)

Lemma transferLoop_settles provider source up (l : list TokenAsset) :
  forall (done : list TokenAsset) (r : Run World),
    (forall s, In s (statuses r) ->
       (ts_status s = Pending -> ~ In (ts_address s) (map address done))
       /\ (ts_status s = Transferring ->
           exists b, In b done /\ address b = ts_address s /\ idless b)) ->
    forall s,
      In s (statuses (transferLoop BigInt parseUnits encodeError request provider source
                        up l r)) ->
      (ts_status s = Pending -> ~ In (ts_address s) (map address (done ++ l)))
      /\ (ts_status s = Transferring ->
          exists b, In b (done ++ l) /\ address b = ts_address s /\ idless b).
Proof.
  induction l as [|a l IH]; intros done r Hinv.
  - cbn [transferLoop fold_left]. rewrite app_nil_r. exact Hinv.
  - cbn [transferLoop fold_left].
    replace (done ++ a :: l) with ((done ++ [a]) ++ l)
      by (rewrite <- app_assoc; reflexivity).
    apply IH. intros s' Hs'.
    destruct (transferAsset_summary provider source up r a)
      as [log [v [_ [Hst [_ [_ Hstuck]]]]]].
    cbv zeta in Hst. rewrite Hst in Hs'. unfold mapStatus in Hs'.
    apply in_map_iff in Hs' as [s [Heq Hs]].
    destruct (Hinv s Hs) as [Hpend Htrans].
    destruct (String.eqb_spec (ts_address s) (address a)) as [Ha | Ha].
    + subst s'. rewrite applyVerdict_keeps. split.
      * destruct v; discriminate.
      * intros Hv. exists a. split; [apply in_or_app; right; now left|].
        split; [now symmetry|]. apply Hstuck.
        destruct v; [discriminate | discriminate | reflexivity].
    + subst s'. split.
      * intros Hp Hin. rewrite map_app, in_app_iff in Hin.
        destruct Hin as [Hin | [Hin | []]]; [now apply (Hpend Hp)|].
        now apply Ha.
      * intros Ht. destruct (Htrans Ht) as [b [Hb Hrest]]. exists b.
        split; [apply in_or_app; now left | exact Hrest].
Qed.

Lemma final_statuses_facts acct app (w : World) provider source :
  Invokes acct app provider source ->
  filter selected (assets app) <> [] ->
  let final :=
    transferStatuses
      (fst (fst (handleTransferAll BigInt parseUnits encodeError request acct app w))) in
  map ts_address final = map address (filter selected (assets app))
  /\ forall s, In s final ->
       ts_status s <> Pending
       /\ (ts_status s = Transferring ->
           exists b, In b (filter selected (assets app))
                     /\ address b = ts_address s /\ idless b).
Proof.
  intros Hinv Hsel final. subst final.
  destruct (handleTransferAll_run BigInt parseUnits encodeError World request acct app w
              provider source Hinv Hsel) as [Hfinal _].
  cbv zeta in Hfinal. rewrite Hfinal.
  assert (Haddr :
    map ts_address
      (statuses (transferLoop BigInt parseUnits encodeError request provider source
                   (upAddress app) (filter selected (assets app))
                   (startRun (filter selected (assets app)) w)))
    = map address (filter selected (assets app))).
  { rewrite transferLoop_addresses. cbn [startRun statuses].
    now rewrite map_map. }
  split; [exact Haddr|]. intros s Hs.
  destruct (transferLoop_settles provider source (upAddress app)
              (filter selected (assets app)) []
              (startRun (filter selected (assets app)) w)) with (s := s)
    as [Hpend Htrans]; [|exact Hs|].
  - intros s0 Hs0. cbn [startRun statuses] in Hs0.
    apply in_map_iff in Hs0 as [b [<- _]]. cbn [pendingStatus ts_status].
    split; [intros _ [] | discriminate].
  - cbn [List.app] in Hpend, Htrans. split; [|exact Htrans].
    intros Hp. apply (Hpend Hp). rewrite <- Haddr. now apply in_map.
Qed.

(** X4: at the end of a run of [handleTransferAll] no record is left
    ['pending'], and a record is left ['transferring'] only if a selected
    asset with its address is an LSP8 asset without token ids: every other
    record shows ['success'] or ['error']. *)
Theorem run_leaves_no_record_pending acct app (w : World) provider source :
  Invokes acct app provider source ->
  filter selected (assets app) <> [] ->
  forall s,
    In s (transferStatuses
            (fst (fst (handleTransferAll BigInt parseUnits encodeError request
                         acct app w)))) ->
    ts_status s <> Pending
    /\ (ts_status s = Transferring ->
        exists b, In b (assets app) /\ selected b = true
                  /\ address b = ts_address s /\ idless b)
    /\ (ts_status s = Success \/ ts_status s = Error
        \/ ts_status s = Transferring).
Proof.
  intros Hinv Hsel s Hs.
  destruct (final_statuses_facts acct app w provider source Hinv Hsel)
    as [_ Hfacts].
  destruct (Hfacts s Hs) as [Hpend Htrans]. split; [exact Hpend|]. split.
  - intros Ht. destruct (Htrans Ht) as [b [Hb [Ha Hidless]]].
    apply filter_In in Hb as [Hb Hsel_b]. now exists b.
  - destruct (ts_status s); tauto.
Qed.

Lemma count_terminal (l : list TransferStatus) :
  completedTransfers l + failedTransfers l <= List.length l
  /\ (Forall (fun s => ts_status s = Success \/ ts_status s = Error) l ->
      completedTransfers l + failedTransfers l = List.length l).
Proof.
  unfold completedTransfers, failedTransfers, isSuccess, isError.
  induction l as [|s l [IHle IHeq]];
    [split; [apply le_n | intros _; reflexivity]|].
  cbn [filter List.length]. split.
  - destruct (ts_status s); cbn [List.length]; lia.
  - intros Hall. inversion Hall as [|? ? Hs Hl]; subst.
    specialize (IHeq Hl).
    destruct Hs as [Hs | Hs]; rewrite Hs; cbn [List.length]; lia.
Qed.

(** X5: the summary under the asset list adds up: completed plus failed
    transfers never exceed the number of records, and after a run in which
    every selected asset is an LSP7 asset or has at least one token id,
    completed plus failed is the number of selected assets. *)
Theorem summary_counts_add_up acct app (w : World) provider source :
  Invokes acct app provider source ->
  filter selected (assets app) <> [] ->
  let final :=
    transferStatuses
      (fst (fst (handleTransferAll BigInt parseUnits encodeError request acct app w))) in
  List.length final = selectedCount (assets app)
  /\ completedTransfers final + failedTransfers final
     <= selectedCount (assets app)
  /\ ((forall a, In a (assets app) -> selected a = true -> ~ idless a) ->
      completedTransfers final + failedTransfers final
      = selectedCount (assets app)).
Proof.
  intros Hinv Hsel final.
  destruct (final_statuses_facts acct app w provider source Hinv Hsel)
    as [Haddr Hfacts]. fold final in Haddr, Hfacts.
  assert (Hlen : List.length final = selectedCount (assets app)).
  { unfold selectedCount.
    rewrite <- (length_map ts_address final), Haddr. apply length_map. }
  destruct (count_terminal final) as [Hle Heq].
  split; [exact Hlen|]. split; [now rewrite <- Hlen|].
  intros Hids. rewrite <- Hlen. apply Heq. apply Forall_forall. intros s Hs.
  destruct (Hfacts s Hs) as [Hpend Htrans].
  destruct (ts_status s) eqn:Hst; try tauto.
  destruct (Htrans eq_refl) as [b [Hb [_ Hidless]]].
  apply filter_In in Hb as [Hb Hsel_b]. now destruct (Hids b Hb Hsel_b).
Qed.

Lemma find_by_address (l : list TransferStatus) (addr : string) :
  (In addr (map ts_address l) ->
   exists s, statusFor l addr = Some s /\ ts_address s = addr /\ In s l)
  /\ (~ In addr (map ts_address l) -> statusFor l addr = None).
Proof.
  unfold statusFor. induction l as [|s l [IHin IHout]].
  - split; [intros [] | reflexivity].
  - cbn [find map]. destruct (String.eqb_spec (ts_address s) addr) as [He | He].
    + split; [|intros H; exfalso; apply H; now left].
      intros _. exists s. repeat split; [assumption | now left].
    + split.
      * intros [H | H]; [contradiction|].
        destruct (IHin H) as [s' [Hf [Ha Hs']]]. exists s'.
        repeat split; [assumption | assumption | now right].
      * intros H. apply IHout. intros Hin. apply H. now right.
Qed.

(** X6: after a run, the status shown beside an asset
    ([transferStatuses.find] by address) exists for every selected asset and
    carries its address, and there is none for an asset whose address is
    not the address of a selected asset. *)
Theorem status_shown_exactly_for_selected acct app (w : World) provider source :
  Invokes acct app provider source ->
  filter selected (assets app) <> [] ->
  let final :=
    transferStatuses
      (fst (fst (handleTransferAll BigInt parseUnits encodeError request acct app w))) in
  (forall a, In a (assets app) -> selected a = true ->
     exists s, statusFor final (address a) = Some s
               /\ ts_address s = address a /\ ts_status s <> Pending)
  /\ (forall addr,
        ~ In addr (map address (filter selected (assets app))) ->
        statusFor final addr = None).
Proof.
  intros Hinv Hsel final.
  destruct (final_statuses_facts acct app w provider source Hinv Hsel)
    as [Haddr Hfacts]. fold final in Haddr, Hfacts.
  split.
  - intros a Ha Hsel_a.
    destruct (find_by_address final (address a)) as [Hfound _].
    destruct Hfound as [s [Hf [Hs Hin]]].
    { rewrite Haddr. apply in_map. apply filter_In. now split. }
    exists s. repeat split; try assumption. now apply Hfacts.
  - intros addr Hno. apply find_by_address. now rewrite Haddr.
Qed.

End EngineTrace.

(** X1 at the run of the three selected assets: the first request. *)
Lemma transfers_only_for_selected_assets_witness :
  exists provider source a,
    fst (resolveProvider sampleAccount threeAssets) = Some provider
    /\ sourceAddress sampleAccount threeAssets = Some source
    /\ In a (assets threeAssets)
    /\ selected a = true
    /\ exchangeFor sampleBigInt sampleParseUnits provider source
         (upAddress threeAssets) a
         {| ex_provider := 1;
            ex_request := lsp7Request aliceAddress profileAddress
                            coinAAddress 5;
            ex_answer := Ok "0xhash0" |}.
Proof.
  apply (transfers_only_for_selected_assets sampleBigInt sampleParseUnits
           sampleEncodeError nat
           walletRequest sampleAccount threeAssets 0).
  left. reflexivity.
Defined.

(** X4 at the session with an LSP8 asset without token ids: its record is
    left ['transferring'], the other one is not pending. *)
Lemma run_leaves_no_record_pending_witness :
  let stuck := {| ts_address := address noPunks; ts_status := Transferring;
                  ts_txHash := None; ts_error := None |} in
  ts_status stuck <> Pending
  /\ (ts_status stuck = Transferring ->
      exists b, In b (assets stuckSession) /\ selected b = true
                /\ address b = ts_address stuck /\ idless b)
  /\ (ts_status stuck = Success \/ ts_status stuck = Error
      \/ ts_status stuck = Transferring).
Proof.
  assert (Hsel : filter selected (assets stuckSession) <> [])
    by discriminate.
  apply (run_leaves_no_record_pending sampleBigInt sampleParseUnits
           sampleEncodeError nat
           walletRequest sampleAccount stuckSession 0 1 aliceAddress
           stuckSession_invokes Hsel).
  left. reflexivity.
Defined.

(** X5 at the three selected assets: two completed and one failed. *)
Lemma summary_counts_add_up_witness :
  let final :=
    transferStatuses
      (fst (fst (handleTransferAll sampleBigInt sampleParseUnits
                   sampleEncodeError walletRequest
                   sampleAccount threeAssets 0))) in
  completedTransfers final + failedTransfers final
  = selectedCount (assets threeAssets)
  /\ completedTransfers final = 2 /\ failedTransfers final = 1.
Proof.
  assert (Hsel : filter selected (assets threeAssets) <> [])
    by discriminate.
  destruct (summary_counts_add_up sampleBigInt sampleParseUnits
              sampleEncodeError nat
              walletRequest sampleAccount threeAssets 0 1 aliceAddress
              threeAssets_invokes Hsel) as [_ [_ Hall]].
  split; [|split; reflexivity]. apply Hall.
  intros a Ha _ [Hty [Hids | Hids]];
    destruct Ha as [<- | [<- | [<- | [<- | []]]]]; discriminate.
Defined.

(** X6 at the three selected assets: the rejected asset has a status, the
    unselected one has none. *)
Lemma status_shown_exactly_for_selected_witness :
  let final :=
    transferStatuses
      (fst (fst (handleTransferAll sampleBigInt sampleParseUnits
                   sampleEncodeError walletRequest
                   sampleAccount threeAssets 0))) in
  (exists s, statusFor final (address coinBad) = Some s
             /\ ts_address s = address coinBad /\ ts_status s <> Pending)
  /\ statusFor final (address unselectedCoin) = None.
Proof.
  assert (Hsel : filter selected (assets threeAssets) <> [])
    by discriminate.
  destruct (status_shown_exactly_for_selected sampleBigInt sampleParseUnits
              sampleEncodeError
              nat walletRequest sampleAccount threeAssets 0 1 aliceAddress
              threeAssets_invokes Hsel) as [Hshown Hnone].
  split.
  - apply Hshown; [right; right; now left | reflexivity].
  - apply Hnone. intros [H | [H | [H | []]]]; discriminate.
Defined.

(** ** Asset Ledger *)

Lemma withSelected_same (a : TokenAsset) : withSelected (selected a) a = a.
Proof. now destruct a. Qed.

Lemma withTransferAmount_same (a : TokenAsset) :
  withTransferAmount (transferAmount a) a = a.
Proof. now destruct a. Qed.

(** X7: toggling the same address twice gives the ledger back; a toggle
    keeps the order and the addresses, changes nothing but [selected], and
    leaves every asset with another address as it is. *)
Theorem toggleAsset_twice (addr : string) (l : list TokenAsset) :
  toggleAsset addr (toggleAsset addr l) = l
  /\ map address (toggleAsset addr l) = map address l
  /\ map (withSelected true) (toggleAsset addr l) = map (withSelected true) l
  /\ (forall i a, nth_error l i = Some a -> address a <> addr ->
        nth_error (toggleAsset addr l) i = Some a)
  /\ (forall i a, nth_error l i = Some a -> address a = addr ->
        nth_error (toggleAsset addr l) i
        = Some (withSelected (negb (selected a)) a)).
Proof.
  unfold toggleAsset. split; [|split; [|split; [|split]]].
  - rewrite map_map. rewrite <- (map_id l) at 2. apply map_ext. intros a.
    destruct (String.eqb (address a) addr) eqn:He; [|now rewrite He].
    cbn [address withSelected selected]. rewrite He, negb_involutive.
    now destruct a.
  - rewrite map_map. apply map_ext. intros a.
    now destruct (String.eqb (address a) addr).
  - rewrite map_map. apply map_ext. intros a.
    now destruct (String.eqb (address a) addr).
  - intros i a Hi Hne. rewrite nth_error_map, Hi. cbn [option_map].
    apply String.eqb_neq in Hne. now rewrite Hne.
  - intros i a Hi He. rewrite nth_error_map, Hi. cbn [option_map].
    apply String.eqb_eq in He. now rewrite He.
Qed.

(** *** The amount field *)

Lemma dropDigits_split (s : string) :
  exists a, allDigits a = true /\ s = String.append a (dropDigits s).
Proof.
  induction s as [|c s [a [Ha Hs]]]; [now exists ""|].
  cbn [dropDigits]. destruct (digitOf c) eqn:Hc.
  - exists (String c a). cbn [allDigits String.append]. rewrite Hc.
    split; [assumption | now rewrite <- Hs].
  - now exists "".
Qed.

Lemma dropDigits_empty_iff (s : string) :
  dropDigits s = "" <-> allDigits s = true.
Proof.
  induction s as [|c s IH]; [now split|].
  cbn [dropDigits allDigits]. destruct (digitOf c); [exact IH|].
  split; discriminate.
Qed.

Lemma dropDigits_prefix (a s : string) :
  allDigits a = true ->
  dropDigits (String.append a s) = dropDigits s.
Proof.
  induction a as [|c a IH]; intros Ha; [reflexivity|].
  cbn [allDigits] in Ha. cbn [String.append dropDigits].
  destruct (digitOf c); [now apply IH | discriminate].
Qed.

Lemma isDecimalText_iff (val : string) :
  isDecimalText val = true <->
  allDigits val = true
  \/ exists a b, allDigits a = true /\ allDigits b = true
                 /\ val = String.append a (String "." b).
Proof.
  unfold isDecimalText. split.
  - intros H. destruct (dropDigits_split val) as [a [Ha Hval]].
    destruct (dropDigits val) as [|c r] eqn:Hd.
    + left. now apply dropDigits_empty_iff.
    + apply andb_true_iff in H as [Hc Hr]. apply Ascii.eqb_eq in Hc.
      apply String.eqb_eq in Hr. apply dropDigits_empty_iff in Hr. subst c.
      right. now exists a, r.
  - intros [H | [a [b [Ha [Hb ->]]]]].
    + apply dropDigits_empty_iff in H. now rewrite H.
    + rewrite (dropDigits_prefix a _ Ha). cbn [dropDigits].
      change (digitOf ".") with (@None nat). cbv iota.
      rewrite Ascii.eqb_refl. apply dropDigits_empty_iff in Hb.
      now rewrite Hb.
Qed.

Lemma allDigits_occurs (s : string) (c : ascii) :
  allDigits s = true -> occurs c s = true -> digitOf c <> None.
Proof.
  induction s as [|x s IH]; intros Ha Ho; [discriminate|].
  cbn [allDigits] in Ha. cbn [occurs] in Ho.
  destruct (digitOf x) eqn:Hx; [|discriminate].
  apply orb_true_iff in Ho as [Ho | Ho]; [|now apply IH].
  apply Ascii.eqb_eq in Ho. subst x. congruence.
Qed.

Lemma occurs_append (c : ascii) (a b : string) :
  occurs c (String.append a b) = occurs c a || occurs c b.
Proof.
  induction a as [|x a IH]; [reflexivity|].
  cbn [String.append occurs]. now rewrite IH, orb_assoc.
Qed.

(** X8: the amount field stores a typed text exactly when it is empty, a
    run of digits, or digits with one dot among them.  Such a text is
    written to the [transferAmount] of every asset with that address, each
    asset staying at its place and every other asset as it was; any other
    text, in particular one with a character that is neither a digit nor a
    dot (a sign, a letter, a comma), leaves the ledger as it was. *)
Theorem amount_field_accepts_decimal_text :
  (forall val, isDecimalText val = true <->
     allDigits val = true
     \/ exists a b, allDigits a = true /\ allDigits b = true
                    /\ val = String.append a (String "." b))
  /\ (forall addr val prev,
        isDecimalText val = true ->
        amountChanged addr val prev = updateTransferAmount addr val prev
        /\ List.length (amountChanged addr val prev) = List.length prev
        /\ (forall i a, nth_error prev i = Some a -> address a = addr ->
              nth_error (amountChanged addr val prev) i
              = Some (withTransferAmount val a))
        /\ (forall i a, nth_error prev i = Some a -> address a <> addr ->
              nth_error (amountChanged addr val prev) i = Some a))
  /\ (forall addr val prev,
        isDecimalText val = false -> amountChanged addr val prev = prev)
  /\ (forall addr val prev c,
        occurs c val = true -> digitOf c = None -> c <> "."%char ->
        amountChanged addr val prev = prev).
Proof.
  assert (Hrejected : forall addr val prev,
            isDecimalText val = false -> amountChanged addr val prev = prev).
  { intros addr val prev Hdec. unfold amountChanged.
    destruct (String.eqb_spec val "") as [-> | _]; [discriminate Hdec|].
    now rewrite Hdec. }
  split; [exact isDecimalText_iff|]. split; [|split; [exact Hrejected|]].
  - intros addr val prev Hdec.
    assert (Heq : amountChanged addr val prev
                  = updateTransferAmount addr val prev).
    { unfold amountChanged. now rewrite Hdec, orb_true_r. }
    rewrite Heq. unfold updateTransferAmount.
    split; [reflexivity|]. split; [apply length_map|]. split.
    + intros i a Hi Ha. rewrite nth_error_map, Hi. cbn [option_map].
      apply String.eqb_eq in Ha. now rewrite Ha.
    + intros i a Hi Ha. rewrite nth_error_map, Hi. cbn [option_map].
      apply String.eqb_neq in Ha. now rewrite Ha.
  - intros addr val prev c Ho Hc Hdot. apply Hrejected.
    destruct (isDecimalText val) eqn:Hdec; [|reflexivity]. exfalso.
    apply isDecimalText_iff in Hdec as [Hall | [a [b [Ha [Hb ->]]]]].
    + now apply (allDigits_occurs val c Hall Ho).
    + rewrite occurs_append in Ho. cbn [occurs] in Ho.
      apply orb_true_iff in Ho as [Ho | Ho];
        [now apply (allDigits_occurs a c Ha Ho)|].
      apply orb_true_iff in Ho as [Ho | Ho];
        [|now apply (allDigits_occurs b c Hb Ho)].
      apply Ascii.eqb_eq in Ho. now subst c.
Qed.

(** ** Indexer Client: what a scan returns *)

Lemma isUpper_lowerChar (c : ascii) : isUpper (lowerChar c) = false.
Proof.
  destruct c as [b0 b1 b2 b3 b4 b5 b6 b7].
  destruct b0, b1, b2, b3, b4, b5, b6, b7; reflexivity.
Qed.

Lemma hasCapital_toLowerCase (s : string) : hasCapital (toLowerCase s) = false.
Proof.
  induction s as [|c s IH]; [reflexivity|].
  cbn [toLowerCase hasCapital]. now rewrite isUpper_lowerChar, IH.
Qed.

Lemma toLowerCase_idem (s : string) :
  toLowerCase (toLowerCase s) = toLowerCase s.
Proof.
  induction s as [|c s IH]; [reflexivity|].
  cbn [toLowerCase]. rewrite IH. f_equal.
  unfold lowerChar at 1. now rewrite isUpper_lowerChar.
Qed.

(** X9: the scan does not see the case of the letters of the address: two
    addresses that differ only in case give the same queries and the same
    result.  A scan sends two queries, the LSP7 one and the LSP8 one, each
    for at most 100 rows of a profile id without capital letters that is
    the given address up to case. *)
Theorem scan_ignores_letter_case BigInt formatUnits (ix : Indexer)
    (a b : string) :
  sameIgnoringCase a b ->
  fetchTokensForAddress BigInt formatUnits ix a
  = fetchTokensForAddress BigInt formatUnits ix b
  /\ map standard (snd (fetchTokensForAddress BigInt formatUnits ix a))
     = ["LSP7DigitalAsset"; "LSP8IdentifiableDigitalAsset"]
  /\ (forall q, In q (snd (fetchTokensForAddress BigInt formatUnits ix a)) ->
        hasCapital (profile_id q) = false
        /\ sameIgnoringCase (profile_id q) a
        /\ limit q = 100).
Proof.
  intros Hab. apply toLowerCase_eq_iff in Hab.
  unfold fetchTokensForAddress. rewrite Hab. split; [reflexivity|].
  split; [reflexivity|]. cbn [snd].
  intros q [<- | [<- | []]]; cbn [holdQuery profile_id limit];
    (split; [apply hasCapital_toLowerCase|]);
    (split; [|reflexivity]);
    apply toLowerCase_eq_iff; rewrite toLowerCase_idem; now symmetry.
Qed.

Lemma scan_ignores_letter_case_witness :
  sameIgnoringCase "0xABCDEF0123" "0xabcdef0123"
  /\ fetchTokensForAddress sampleBigInt sampleFormatUnits nftIndexer
       "0xABCDEF0123"
     = fetchTokensForAddress sampleBigInt sampleFormatUnits nftIndexer
         "0xabcdef0123".
Proof.
  assert (H : sameIgnoringCase "0xABCDEF0123" "0xabcdef0123")
    by (apply toLowerCase_eq_iff; reflexivity).
  split; [exact H|].
  exact (proj1 (scan_ignores_letter_case sampleBigInt sampleFormatUnits
                  nftIndexer "0xABCDEF0123" "0xabcdef0123" H)).
Defined.

(** X10: [queryIndexer] returns data in one case only: the response is a
    success, its body parses and carries no [errors]; then the data is the
    body's [data]. *)
Theorem queryIndexer_answers_iff (D : Type)
    (fetch : IndexerQuery -> FetchResult D) (q : IndexerQuery) (d : D) :
  queryIndexer fetch q = Ok d
  <-> exists status j,
        fetch q = Response true status (Ok j)
        /\ errors j = None /\ data j = d.
Proof.
  unfold queryIndexer. split.
  - destruct (fetch q) as [e | ok status [j | e]]; [discriminate | |].
    + destruct ok; cbn [negb]; [|discriminate].
      destruct (errors j) eqn:He; [discriminate|].
      intros H. injection H as <-. now exists status, j.
    + destruct ok; discriminate.
  - intros [status [j [-> [He <-]]]]. cbn [negb]. now rewrite He.
Qed.

(** *** The LSP7 rows *)

Lemma rowsWithAsset_cons (h : Lsp7Hold) (rows : list Lsp7Hold) :
  rowsWithAsset (h :: rows)
  = match asset h with
    | Some a => (h, a) :: rowsWithAsset rows
    | None => rowsWithAsset rows
    end.
Proof. unfold rowsWithAsset. cbn [flat_map]. now destruct (asset h). Qed.

Lemma lsp7Tokens_rows BigInt formatUnits (rows : list Lsp7Hold) :
  forall acc out,
    lsp7Tokens BigInt formatUnits rows acc = Ok out ->
    exists new,
      out = acc ++ new
      /\ Forall2 (tokenOfRow BigInt formatUnits) (rowsWithAsset rows) new.
Proof.
  induction rows as [|h rows IH]; intros acc out Hrun;
    cbn [lsp7Tokens] in Hrun.
  - injection Hrun as <-. exists []. split; [now rewrite app_nil_r|].
    constructor.
  - rewrite rowsWithAsset_cons. destruct (asset h) as [a|]; [|now apply IH].
    destruct (BigInt (hold7_balance h)) as [raw|e] eqn:Hraw; [|discriminate].
    destruct (IH _ _ Hrun) as [new [-> Hnew]].
    eexists (_ :: new). split; [now rewrite <- app_assoc|].
    constructor; [|exact Hnew].
    unfold tokenOfRow, holdsMax. cbn.
    do 8 (split; [reflexivity|]). now exists raw.
Qed.

Lemma lsp7Tokens_throws BigInt formatUnits (rows : list Lsp7Hold) :
  forall acc,
    (exists e, lsp7Tokens BigInt formatUnits rows acc = Throw e)
    <-> Exists (fun ha => exists e, BigInt (hold7_balance (fst ha)) = Throw e)
               (rowsWithAsset rows).
Proof.
  induction rows as [|h rows IH]; intros acc; cbn [lsp7Tokens].
  - split; [intros [e H]; discriminate | intros H; inversion H].
  - rewrite rowsWithAsset_cons. destruct (asset h) as [a|]; [|apply IH].
    destruct (BigInt (hold7_balance h)) as [raw|e] eqn:Hraw.
    + rewrite IH. split; [intros H; now right|].
      intros H. inversion H as [x l [e He] | x l Hl]; subst; [|assumption].
      cbn [fst] in He. congruence.
    + split; [|intros _; now exists e].
      intros _. left. cbn [fst]. now exists e.
Qed.

(** X11: the LSP7 part of a scan.  When the conversion succeeds there is
    one token per row that has an asset, in row order: it carries the
    asset's id as address, the name and symbol with their defaults, the
    row's balance string, the asset's decimals (18 when the indexer has
    none), it is selected, has no token ids, and its amount field holds the
    whole balance.  The conversion fails exactly when [BigInt] rejects the
    balance of some row that has an asset. *)
Theorem lsp7_rows_become_tokens BigInt formatUnits (rows : list Lsp7Hold) :
  (forall tokens,
      lsp7Tokens BigInt formatUnits rows [] = Ok tokens ->
      Forall2 (tokenOfRow BigInt formatUnits) (rowsWithAsset rows) tokens)
  /\ ((exists e, lsp7Tokens BigInt formatUnits rows [] = Throw e)
      <-> Exists (fun ha => exists e,
                    BigInt (hold7_balance (fst ha)) = Throw e)
                 (rowsWithAsset rows)).
Proof.
  split; [|apply lsp7Tokens_throws].
  intros tokens H.
  destruct (lsp7Tokens_rows BigInt formatUnits rows [] tokens H)
    as [new [-> Hnew]].
  exact Hnew.
Qed.

Lemma setMaxAmount_holdsMax BigInt formatUnits addr (l : list TokenAsset) :
  Forall (holdsMax BigInt formatUnits) l ->
  setMaxAmount BigInt formatUnits addr l = Ok l.
Proof.
  induction 1 as [|a l [raw [Hraw Hamt]] _ IH]; [reflexivity|].
  cbn [setMaxAmount]. rewrite IH, Hraw.
  destruct (negb (String.eqb (address a) addr)); [reflexivity|].
  now rewrite <- Hamt, withTransferAmount_same.
Qed.

Lemma Forall2_right {A B : Type} (R : A -> B -> Prop) (P : B -> Prop)
    (l : list A) (l' : list B) :
  (forall x y, R x y -> P y) -> Forall2 R l l' -> Forall P l'.
Proof. intros H. induction 1; constructor; eauto. Qed.

(** X12: on the LSP7 tokens a scan has just produced, MAX changes nothing,
    whichever address it is pressed for: the amount field already holds the
    whole balance. *)
Theorem max_amount_is_the_scanned_default BigInt formatUnits
    (rows : list Lsp7Hold) (tokens : list TokenAsset) (addr : string) :
  lsp7Tokens BigInt formatUnits rows [] = Ok tokens ->
  setMaxAmount BigInt formatUnits addr tokens = Ok tokens.
Proof.
  intros H. apply setMaxAmount_holdsMax.
  destruct (lsp7Tokens_rows BigInt formatUnits rows [] tokens H)
    as [new [-> Hnew]].
  apply (Forall2_right _ _ _ _ (fun x y Hxy =>
           proj2 (proj2 (proj2 (proj2 (proj2 (proj2 (proj2 (proj2 Hxy))))))))
           Hnew).
Qed.

Lemma max_amount_is_the_scanned_default_witness :
  setMaxAmount sampleBigInt sampleFormatUnits "0xc014"
    [ {| address := "0xc014"; name := "Coin"; symbol := "CN"; type := LSP7;
         balance := "500"; decimals := 0; selected := true; iconUrl := None;
         tokenIds := None; transferAmount := "500" |} ]
  = Ok [ {| address := "0xc014"; name := "Coin"; symbol := "CN"; type := LSP7;
            balance := "500"; decimals := 0; selected := true;
            iconUrl := None; tokenIds := None; transferAmount := "500" |} ].
Proof.
  apply (max_amount_is_the_scanned_default sampleBigInt sampleFormatUnits
           coinRows _ "0xc014").
  reflexivity.
Defined.

(** *** The token ids of the LSP8 rows *)

Lemma indexOfFrom_absent (c : ascii) (s : string) (i : Z) :
  occurs c s = false -> indexOfFrom c s i = (-1)%Z.
Proof.
  revert i. induction s as [|x s IH]; intros i H; [reflexivity|].
  cbn [occurs] in H. apply orb_false_iff in H as [Hx Hs].
  cbn [indexOfFrom]. rewrite Hx. now apply IH.
Qed.

Lemma indexOfFrom_first (c : ascii) (pre t : string) (i : Z) :
  occurs c pre = false ->
  indexOfFrom c (String.append pre (String c t)) i
  = (i + Z.of_nat (String.length pre))%Z.
Proof.
  revert i. induction pre as [|x pre IH]; intros i H.
  - cbn [String.append indexOfFrom String.length]. rewrite Ascii.eqb_refl.
    lia.
  - cbn [occurs] in H. apply orb_false_iff in H as [Hx Hs].
    cbn [String.append indexOfFrom String.length]. rewrite Hx, (IH _ Hs).
    lia.
Qed.

Lemma dropChars_prefix (pre t : string) (c : ascii) :
  dropChars (S (String.length pre)) (String.append pre (String c t)) = t.
Proof.
  induction pre as [|x pre IH]; [reflexivity|]. exact IH.
Qed.

(** X13: the token id kept for a row is what follows the first dash of the
    compound id; a compound id without a dash is kept whole. *)
Theorem extractTokenId_after_first_dash (c t : string) :
  occurs "-" c = false ->
  extractTokenId (String.append c (String "-" t)) = t
  /\ extractTokenId c = c.
Proof.
  intros H. unfold extractTokenId, indexOf, slice. split.
  - rewrite (indexOfFrom_first _ _ _ _ H).
    replace (Z.to_nat (0 + Z.of_nat (String.length c) + 1))
      with (S (String.length c)) by lia.
    apply dropChars_prefix.
  - now rewrite (indexOfFrom_absent _ _ _ H).
Qed.

Lemma extractTokenId_after_first_dash_witness :
  extractTokenId "0xc011-0x01-a" = "0x01-a" /\ extractTokenId "0xc011" = "0xc011".
Proof.
  apply (extractTokenId_after_first_dash "0xc011" "0x01-a"). reflexivity.
Defined.

Lemma Map_mutate_absent k f (m : CollectionMap) :
  ~ In k (map fst m) -> Map_mutate k f m = m.
Proof.
  unfold Map_mutate. induction m as [|[c t] m IH]; intros H; [reflexivity|].
  cbn [map fst snd]. cbn [map fst In] in H.
  destruct (String.eqb_spec c k) as [-> | _]; [tauto|].
  rewrite IH; [reflexivity | tauto].
Qed.

Lemma Map_mutate_ids k tokenId (m : CollectionMap) :
  NoDup (map fst m) -> In k (map fst m) ->
  (forall c t, In (c, t) m -> tokenIds t <> None) ->
  Permutation (flat_map idsOf (Map_values (Map_mutate k (addToken tokenId) m)))
              (flat_map idsOf (Map_values m) ++ [tokenId]).
Proof.
  unfold Map_values.
  induction m as [|[c t] m IH]; intros Hnd Hin Hids; [destruct Hin|].
  cbn [map fst] in Hnd, Hin. apply NoDup_cons_iff in Hnd as [Hc Hnd].
  change (Map_mutate k (addToken tokenId) ((c, t) :: m))
    with ((if String.eqb c k then (c, addToken tokenId t) else (c, t))
          :: Map_mutate k (addToken tokenId) m).
  destruct (String.eqb_spec c k) as [-> | Hne].
  - rewrite (Map_mutate_absent _ _ _ Hc). cbn [map snd flat_map].
    assert (Ht : idsOf (addToken tokenId t) = idsOf t ++ [tokenId]).
    { unfold idsOf. cbn [addToken tokenIds].
      destruct (tokenIds t) as [ids|] eqn:Hi; [reflexivity|].
      now destruct (Hids k t (or_introl eq_refl)). }
    rewrite Ht, <- !app_assoc. apply Permutation_app_head.
    apply Permutation_app_comm.
  - cbn [map snd flat_map]. rewrite <- app_assoc.
    apply Permutation_app_head. apply IH; [assumption | |].
    + destruct Hin; [contradiction | assumption].
    + intros c' t' H'. apply (Hids c' t'). now right.
Qed.

Lemma groupHold_ids m holds h :
  Grouped m holds ->
  Permutation (flat_map idsOf (Map_values (groupHold m h)))
              (flat_map idsOf (Map_values m)
               ++ (if hasBaseAsset h then [rowTokenId h] else [])).
Proof.
  intros [Hnd [_ Hent]]. unfold groupHold, hasBaseAsset, rowTokenId.
  destruct (baseAsset h) as [b|]; [|now rewrite app_nil_r].
  destruct (Map_has (base_id b) m) eqn:Hhas.
  - apply Map_has_iff in Hhas. apply Map_mutate_ids; [assumption..|].
    intros c t Hin. destruct (Hent c t Hin) as [_ [_ [Hids _]]].
    rewrite Hids. discriminate.
  - unfold Map_set_new, Map_values. rewrite map_app, flat_map_app.
    cbn [map snd flat_map idsOf tokenIds]. now rewrite app_nil_r.
Qed.

Lemma lsp8Tokens_ids (rows : list Lsp8Hold) :
  Permutation (flat_map idsOf (lsp8Tokens rows))
              (map rowTokenId (filter hasBaseAsset rows)).
Proof.
  unfold lsp8Tokens.
  induction rows as [|h rows IH] using rev_ind; [constructor|].
  rewrite fold_left_app. cbn [fold_left].
  eapply perm_trans; [apply (groupHold_ids _ rows), Grouped_fold|].
  rewrite filter_app, map_app. apply Permutation_app; [exact IH|].
  cbn [filter]. now destruct (hasBaseAsset h).
Qed.

Lemma lsp8Tokens_have_ids (rows : list Lsp8Hold) (t : TokenAsset) :
  In t (lsp8Tokens rows) ->
  exists id ids, tokenIds t = Some (id :: ids).
Proof.
  intros Hin. apply lsp8Tokens_entries in Hin.
  destruct (Grouped_fold rows) as [_ [Hkeys Hent]].
  destruct (Hent _ _ Hin) as [_ [_ [Hids _]]].
  assert (Hne : collectionRows (address t) rows <> []).
  { apply Hkeys. apply in_map_iff. now exists (address t, t). }
  destruct (collectionRows (address t) rows) as [|r rs]; [congruence|].
  rewrite Hids. cbn [map]. eauto.
Qed.

(** X14: the grouping of the LSP8 rows loses and invents no token: the ids
    of the tokens returned are, up to order, the extracted ids of the rows
    that have a base asset, one for one; so their number is the number of
    such rows, and every token returned has at least one id. *)
Theorem lsp8_token_ids_are_conserved (rows : list Lsp8Hold) :
  Permutation (flat_map idsOf (lsp8Tokens rows))
              (map rowTokenId (filter hasBaseAsset rows))
  /\ List.length (flat_map idsOf (lsp8Tokens rows))
     = List.length (filter hasBaseAsset rows)
  /\ (forall t, In t (lsp8Tokens rows) -> idsOf t <> []).
Proof.
  split; [apply lsp8Tokens_ids|]. split.
  - rewrite (Permutation_length (lsp8Tokens_ids rows)). apply length_map.
  - intros t Hin. destruct (lsp8Tokens_have_ids rows t Hin) as [id [ids H]].
    unfold idsOf. rewrite H. discriminate.
Qed.

(** *** A successful scan *)

Lemma groupHold_selected (m : CollectionMap) (h : Lsp8Hold) :
  Forall (fun kv => selected (snd kv) = true) m ->
  Forall (fun kv => selected (snd kv) = true) (groupHold m h).
Proof.
  intros H. unfold groupHold. destruct (baseAsset h) as [b|]; [|assumption].
  destruct (Map_has (base_id b) m).
  - unfold Map_mutate. apply Forall_map. eapply Forall_impl; [|exact H].
    intros [c t] Ht. cbn [fst snd] in *. now destruct (String.eqb c (base_id b)).
  - unfold Map_set_new. apply Forall_app. split; [assumption|].
    now repeat constructor.
Qed.

Lemma lsp8Tokens_selected (rows : list Lsp8Hold) :
  Forall (fun t => selected t = true) (lsp8Tokens rows).
Proof.
  unfold lsp8Tokens, Map_values. apply Forall_map.
  assert (H : forall m,
             Forall (fun kv => selected (snd kv) = true) m ->
             Forall (fun kv => selected (snd kv) = true)
                    (fold_left groupHold rows m)).
  { induction rows as [|h rows IH]; intros m Hm; [assumption|].
    cbn [fold_left]. apply IH. now apply groupHold_selected. }
  apply H. constructor.
Qed.

Lemma fetchTokens_ok BigInt formatUnits ix addr tokens :
  fst (fetchTokensForAddress BigInt formatUnits ix addr) = Ok tokens ->
  exists rows7 rows8 tokens7,
    queryIndexer (fetchLsp7 ix)
      (holdQuery (toLowerCase addr) "LSP7DigitalAsset") = Ok rows7
    /\ queryIndexer (fetchLsp8 ix)
         (holdQuery (toLowerCase addr) "LSP8IdentifiableDigitalAsset")
       = Ok rows8
    /\ lsp7Tokens BigInt formatUnits rows7 [] = Ok tokens7
    /\ tokens = tokens7 ++ lsp8Tokens rows8.
Proof.
  unfold fetchTokensForAddress. cbn [fst].
  destruct (queryIndexer (fetchLsp7 ix) _) as [rows7|e];
    destruct (queryIndexer (fetchLsp8 ix) _) as [rows8|e'];
    try discriminate.
  destruct (lsp7Tokens BigInt formatUnits rows7 []) as [tokens7|e] eqn:H7;
    [|discriminate].
  intros H. injection H as <-. now exists rows7, rows8, tokens7.
Qed.

Lemma scanned_tokens_facts BigInt formatUnits ix addr tokens :
  fst (fetchTokensForAddress BigInt formatUnits ix addr) = Ok tokens ->
  Forall (fun t => selected t = true /\ ~ idless t) tokens.
Proof.
  intros H.
  destruct (fetchTokens_ok BigInt formatUnits ix addr tokens H)
    as [rows7 [rows8 [tokens7 [_ [_ [H7 ->]]]]]].
  apply Forall_app. split.
  - destruct (lsp7Tokens_rows BigInt formatUnits rows7 [] tokens7 H7)
      as [new [-> Hnew]].
    apply (Forall2_right _ _ _ _ (fun x y (Hxy : tokenOfRow _ _ x y) =>
             conj (proj1 (proj2 (proj2 (proj2 (proj2 (proj2 (proj2 Hxy)))))))
                  (fun Hid : idless y =>
                     eq_ind LSP7 (fun ty => match ty with
                                            | LSP7 => True
                                            | LSP8 => False
                                            end) I _
                       (eq_trans (eq_sym (proj1 (proj2 (proj2 (proj2 Hxy)))))
                                 (proj1 Hid)))) Hnew).
  - apply Forall_forall. intros t Hin. split.
    + pose proof (lsp8Tokens_selected rows8) as Hs.
      rewrite Forall_forall in Hs. now apply Hs.
    + intros [_ Hid].
      destruct (lsp8Tokens_have_ids rows8 t Hin) as [id [ids Hids]].
      rewrite Hids in Hid. destruct Hid; discriminate.
Qed.

(** X15: a scan that succeeds opens step 3 with the tokens found as the
    ledger: all of them selected, none of them an LSP8 asset without token
    ids, the status records of an earlier run cleared, no scan error, the
    session's addresses and provider as they were; and with a token found
    the Transfer button is enabled unless a run is in progress. *)
Theorem scan_success_opens_step_three BigInt formatUnits (ix : Indexer)
    (acct : Account) (app : AppState) (source : string)
    (tokens : list TokenAsset) :
  sourceAddress acct app = Some source ->
  source <> "" -> upAddress app <> "" ->
  isSameAddress acct app = false ->
  fst (fetchTokensForAddress BigInt formatUnits ix source) = Ok tokens ->
  let app' := fst (handleFindAssets BigInt formatUnits ix acct app) in
  step app' = 3
  /\ assets app' = tokens
  /\ transferStatuses app' = []
  /\ scanError app' = "" /\ scanning app' = false
  /\ selectedCount (assets app') = List.length tokens
  /\ (forall t, In t (assets app') -> ~ idless t)
  /\ upAddress app' = upAddress app
  /\ savedSourceAddress app' = savedSourceAddress app
  /\ sourceProvider app' = sourceProvider app
  /\ (tokens <> [] -> isTransferring app = false ->
      transferDisabled app' = false).
Proof.
  intros Hs Hne Hup Hsame Hfetch app'.
  pose proof (scanned_tokens_facts BigInt formatUnits ix source tokens Hfetch)
    as Hfacts.
  assert (Hcount : selectedCount tokens = List.length tokens).
  { unfold selectedCount. rewrite filter_all; [reflexivity|].
    eapply Forall_impl; [|exact Hfacts]. now intros t [Ht _]. }
  assert (Happ : app' = setScanning false
                          (setStep 3 (setTransferStatuses []
                             (setAssets tokens
                                (setScanError "" (setScanning true app)))))).
  { subst app'. unfold handleFindAssets. rewrite Hs.
    rewrite (eqb_empty_false _ Hne), (eqb_empty_false _ Hup), Hsame.
    cbn [orb].
    destruct (fetchTokensForAddress BigInt formatUnits ix source)
      as [res queries].
    cbn [fst] in Hfetch. now subst res. }
  rewrite Happ. destruct app; cbn.
  do 5 (split; [reflexivity|]). split; [exact Hcount|].
  split.
  { intros t Ht. rewrite Forall_forall in Hfacts. now apply Hfacts. }
  do 3 (split; [reflexivity|]).
  intros Hnil Htr. unfold transferDisabled. cbn in Htr.
  cbn -[selectedCount]. rewrite Hcount, Htr.
  destruct tokens; [congruence | reflexivity].
Qed.

Lemma scan_success_opens_step_three_witness :
  step (fst (handleFindAssets sampleBigInt sampleFormatUnits nftIndexer
               sampleAccount scanSession)) = 3.
Proof.
  assert (Hne : "0xabcdef0123" <> "") by discriminate.
  assert (Hup : upAddress scanSession <> "") by discriminate.
  exact (proj1 (scan_success_opens_step_three sampleBigInt sampleFormatUnits
                  nftIndexer sampleAccount scanSession "0xabcdef0123"
                  scannedTokens eq_refl Hne Hup eq_refl eq_refl)).
Defined.

(** ** From the ledger to the run *)

Lemma sameHolding_refl (a : TokenAsset) : sameHolding a a.
Proof. now repeat split. Qed.

Lemma sameHoldings_map (f : TokenAsset -> TokenAsset) (l : list TokenAsset) :
  (forall a, sameHolding a (f a)) -> sameHoldings l (map f l).
Proof.
  intros H. induction l as [|a l IH]; constructor; [apply H | exact IH].
Qed.

Lemma sameHoldings_toggleAsset addr l : sameHoldings l (toggleAsset addr l).
Proof.
  apply sameHoldings_map. intros a.
  destruct (String.eqb (address a) addr); now repeat split.
Qed.

Lemma sameHoldings_updateTransferAmount addr val l :
  sameHoldings l (updateTransferAmount addr val l).
Proof.
  apply sameHoldings_map. intros a.
  destruct (String.eqb (address a) addr); now repeat split.
Qed.

Lemma sameHoldings_refl l : sameHoldings l l.
Proof. induction l; constructor; [apply sameHolding_refl | assumption]. Qed.

Lemma setMaxAmount_holdings BigInt formatUnits addr (l : list TokenAsset) :
  forall next,
    setMaxAmount BigInt formatUnits addr l = Ok next ->
    sameHoldings l next
    /\ map selected next = map selected l
    /\ forall a, In a next -> address a = addr ->
         holdsMax BigInt formatUnits a.
Proof.
  induction l as [|a l IH]; intros next H; cbn [setMaxAmount] in H.
  - injection H as <-. split; [constructor|]. split; [reflexivity|].
    intros a [].
  - destruct (String.eqb_spec (address a) addr) as [He | He]; cbn [negb] in H.
    + destruct (BigInt (balance a)) as [raw|e] eqn:Hraw; [|discriminate].
      destruct (setMaxAmount BigInt formatUnits addr l) as [rest|e];
        [|discriminate].
      injection H as <-. destruct (IH rest eq_refl) as [Hh [Hs Hm]].
      split; [constructor; [now repeat split | exact Hh]|].
      split; [cbn [map withTransferAmount selected]; now rewrite Hs|].
      intros b [<- | Hb] Hb'; [|now apply Hm]. now exists raw.
    + destruct (setMaxAmount BigInt formatUnits addr l) as [rest|e];
        [|discriminate].
      injection H as <-. destruct (IH rest eq_refl) as [Hh [Hs Hm]].
      split; [constructor; [apply sameHolding_refl | exact Hh]|].
      split; [cbn [map]; now rewrite Hs|].
      intros b [<- | Hb] Hb'; [contradiction | now apply Hm].
Qed.

(** X16: the handlers of the ledger change the selection and the amount
    field and nothing else: after [toggleAsset], [selectAll],
    [deselectAll], a change of the amount field or MAX, the ledger holds the
    same assets in the same order, each with its address, name, symbol,
    type, balance, decimals, icon and token ids; the amount handlers leave
    the selection alone, [selectAll] selects everything and [deselectAll]
    nothing. *)
Theorem ledger_handlers_keep_the_holdings BigInt formatUnits
    (l : list TokenAsset) (addr val : string) :
  sameHoldings l (toggleAsset addr l)
  /\ sameHoldings l (selectAll l)
  /\ sameHoldings l (deselectAll l)
  /\ sameHoldings l (amountChanged addr val l)
  /\ (forall next, setMaxAmount BigInt formatUnits addr l = Ok next ->
        sameHoldings l next /\ map selected next = map selected l)
  /\ map selected (amountChanged addr val l) = map selected l
  /\ selectedCount (selectAll l) = List.length l
  /\ selectedCount (deselectAll l) = 0.
Proof.
  split; [apply sameHoldings_toggleAsset|].
  split; [apply sameHoldings_map; intros a; now repeat split|].
  split; [apply sameHoldings_map; intros a; now repeat split|].
  assert (Hamt : sameHoldings l (amountChanged addr val l)
                 /\ map selected (amountChanged addr val l) = map selected l).
  { unfold amountChanged.
    destruct (String.eqb val "" || isDecimalText val).
    - split; [apply sameHoldings_updateTransferAmount|].
      unfold updateTransferAmount. rewrite map_map. apply map_ext.
      intros a. now destruct (String.eqb (address a) addr).
    - split; [apply sameHoldings_refl | reflexivity]. }
  split; [apply Hamt|]. split.
  { intros next H.
    destruct (setMaxAmount_holdings BigInt formatUnits addr l next H)
      as [Hh [Hs _]]. now split. }
  split; [apply Hamt|]. split.
  - unfold selectedCount, selectAll. rewrite filter_all.
    + apply length_map.
    + apply Forall_map. apply Forall_forall. now intros a _.
  - apply selectedCount_deselectAll.
Qed.

Lemma sameHoldings_idless (l l' : list TokenAsset) :
  sameHoldings l l' ->
  Forall (fun t => ~ idless t) l -> Forall (fun a => ~ idless a) l'.
Proof.
  induction 1 as [|t a l l' Hta _ IH]; intros Hall; [constructor|].
  inversion Hall as [|? ? Ht Hl]; subst. constructor; [|now apply IH].
  destruct Hta as [_ [_ [_ [Hty [_ [_ [_ Hids]]]]]]].
  unfold idless in *. now rewrite Hty, Hids.
Qed.

Section LedgerToEngine.

Variable BigInt : string -> Result Z.
Variable formatUnits : Z -> Z -> string.
Variable parseUnits : string -> Z -> option Z.
Variable encodeError :
  AbiFunction -> string -> list AbiValue -> option JsError.
Variable World : Type.
Variable request :
  World -> EthereumProvider -> RpcRequest -> Result string * World.

(** X17: a run over a ledger that came from a scan settles every selected
    asset: whatever was selected, deselected or typed in the amount fields
    since the scan, every record ends as ['success'] or ['error'], and
    completed plus failed is the number of selected assets. *)
Theorem scanned_ledger_settles (ix : Indexer) (addr : string)
    (tokens : list TokenAsset) acct app (w : World) provider source :
  fst (fetchTokensForAddress BigInt formatUnits ix addr) = Ok tokens ->
  sameHoldings tokens (assets app) ->
  Invokes acct app provider source ->
  filter selected (assets app) <> [] ->
  let final :=
    transferStatuses
      (fst (fst (handleTransferAll BigInt parseUnits encodeError request acct app w))) in
  (forall s, In s final -> ts_status s = Success \/ ts_status s = Error)
  /\ completedTransfers final + failedTransfers final
     = selectedCount (assets app).
Proof.
  intros Hfetch Hsame Hinv Hsel final.
  assert (Hids : Forall (fun a => ~ idless a) (assets app)).
  { apply (sameHoldings_idless tokens); [assumption|].
    eapply Forall_impl;
      [|exact (scanned_tokens_facts BigInt formatUnits ix addr tokens Hfetch)].
    now intros t [_ Ht]. }
  rewrite Forall_forall in Hids.
  destruct (final_statuses_facts BigInt parseUnits encodeError World request acct app w
              provider source Hinv Hsel) as [Haddr Hfacts].
  fold final in Haddr, Hfacts.
  assert (Hall : forall s, In s final ->
                   ts_status s = Success \/ ts_status s = Error).
  { intros s Hs. destruct (Hfacts s Hs) as [Hpend Htrans].
    destruct (ts_status s) eqn:Hst; try tauto.
    destruct (Htrans eq_refl) as [b [Hb [_ Hidless]]].
    apply filter_In in Hb as [Hb _]. now destruct (Hids b Hb). }
  split; [exact Hall|].
  destruct (count_terminal final) as [_ Heq].
  rewrite Heq; [|now apply Forall_forall].
  unfold selectedCount.
  rewrite <- (length_map ts_address final), Haddr. apply length_map.
Qed.

(** X18: MAX, then transfer: for a selected LSP7 asset whose amount field
    was filled by MAX, whose balance is positive, whose printed balance
    [parseUnits] reads back and whose transfer call [encodeFunctionData]
    accepts, the run sends one request, and it moves the whole balance. *)
Theorem max_amount_moves_the_whole_balance (prev : list TokenAsset)
    (addr : string) acct app (w : World) provider source i a :
  setMaxAmount BigInt formatUnits addr prev = Ok (assets app) ->
  Invokes acct app provider source ->
  nth_error (filter selected (assets app)) i = Some a ->
  address a = addr -> type a = LSP7 ->
  (forall raw, BigInt (balance a) = Ok raw ->
     (0 < raw)%Z
     /\ parseUnits (formatUnits raw (decimals a)) (decimals a) = Some raw
     /\ lsp7Error encodeError source (upAddress app) raw = None) ->
  exists raw answer,
    BigInt (balance a) = Ok raw
    /\ ownExchanges BigInt parseUnits encodeError request provider source (upAddress app)
         (filter selected (assets app)) w i
       = [ {| ex_provider := provider;
              ex_request := lsp7Request source (upAddress app) addr raw;
              ex_answer := answer |} ].
Proof.
  intros Hmax Hinv Hi Haddr Hty Hlib.
  destruct (setMaxAmount_holdings BigInt formatUnits addr prev _ Hmax)
    as [_ [_ Hheld]].
  assert (Hin : In a (assets app)).
  { apply nth_error_In in Hi. now apply filter_In in Hi as [Hi _]. }
  destruct (Hheld a Hin Haddr) as [raw [Hraw Hamt]].
  destruct (Hlib raw Hraw) as [Hpos [Hparse Henc]].
  pose proof (reached_step BigInt parseUnits encodeError World request provider source
                (upAddress app) _ w i a Hi) as Hstep.
  rewrite (transferAsset_lsp7 BigInt parseUnits encodeError World request provider source
             (upAddress app) _ a Hty) in Hstep.
  cbv zeta in Hstep. rewrite Hamt, Hparse, Hraw, Henc in Hstep.
  assert (Hle : (raw <=? 0)%Z = false) by (apply Z.leb_gt; lia).
  assert (Hgt : (raw >? raw)%Z = false).
  { rewrite Z.gtb_ltb. apply Z.ltb_irrefl. }
  rewrite Hle, Hgt, Haddr in Hstep.
  destruct (request _ provider (lsp7Request source (upAddress app) addr raw))
    as [answer w'].
  exists raw, answer. split; [exact Hraw|].
  unfold ownExchanges. rewrite Hstep. cbn [sent].
  apply skipn_length_app.
Qed.

End LedgerToEngine.

Lemma transferSession_invokes (ledger : list TokenAsset) :
  Invokes sampleAccount (transferSession ledger) 1 aliceAddress.
Proof.
  unfold Invokes. repeat split; discriminate.
Qed.

(** X17 at the scanned ledger with one collection deselected: the coin and
    the other collection are transferred. *)
Lemma scanned_ledger_settles_witness :
  let final :=
    transferStatuses
      (fst (fst (handleTransferAll sampleBigInt sampleParseUnits
                   sampleEncodeError walletRequest
                   sampleAccount scannedSession 0))) in
  (forall s, In s final -> ts_status s = Success \/ ts_status s = Error)
  /\ completedTransfers final + failedTransfers final = 2
  /\ map ts_status final = [Success; Success].
Proof.
  assert (Hsel : filter selected (assets scannedSession) <> [])
    by discriminate.
  destruct (scanned_ledger_settles sampleBigInt sampleFormatUnits
              sampleParseUnits sampleEncodeError nat walletRequest
              tidyIndexer aliceAddress
              tidyTokens sampleAccount scannedSession 0 1 aliceAddress
              eq_refl (sameHoldings_toggleAsset birdsAddress tidyTokens)
              (transferSession_invokes _) Hsel) as [Hall Hcount].
  split; [exact Hall|]. split; [exact Hcount | reflexivity].
Defined.

(** X18 at the coin of ten units: the request moves ten. *)
Lemma max_amount_moves_the_whole_balance_witness :
  exists raw answer,
    sampleBigInt "10" = Ok raw
    /\ ownExchanges sampleBigInt sampleParseUnits sampleEncodeError
         walletRequest 1 aliceAddress profileAddress [maxedCoin] 0 0
       = [ {| ex_provider := 1;
              ex_request := lsp7Request aliceAddress profileAddress
                              coinAAddress raw;
              ex_answer := answer |} ].
Proof.
  apply (max_amount_moves_the_whole_balance sampleBigInt sampleFormatUnits
           sampleParseUnits sampleEncodeError nat walletRequest [coinA]
           coinAAddress sampleAccount
           maxedSession 0 1 aliceAddress 0 maxedCoin eq_refl
           (transferSession_invokes _) eq_refl eq_refl eq_refl).
  intros raw H. vm_compute in H. injection H as <-.
  split; [lia | split; reflexivity].
Defined.

(** ** Session: the destination profile *)

(** X19: what a click on "Connect UP Extension" can do.  It ends with
    [upConnecting] off, asks [window.lukso] for the accounts at most once
    (not at all exactly when there is no [window.lukso]), and never touches
    the source side, the step or the ledger.  Either the destination is
    left as it was, or it is bound: then the extension answered with a
    non-empty list, the destination is its first account, that account
    differs from the saved source address by more than the case of its
    letters, no error is shown, and past step 1 with a saved source the
    same-address check of the scan does not fire. *)
Theorem up_extension_outcomes (World : Type) (win : Window World)
    (app : AppState) (w : World) :
  let out := handleConnectUPExtension win app w in
  let app' := fst (fst out) in
  upConnecting app' = false
  /\ savedSourceAddress app' = savedSourceAddress app
  /\ sourceProvider app' = sourceProvider app
  /\ step app' = step app
  /\ assets app' = assets app
  /\ (snd out = [] \/ snd out = [accountsRequest])
  /\ (snd out = [] <-> lukso win = None)
  /\ ((upAddress app' = upAddress app /\ upConnected app' = upConnected app)
      \/ (upConnected app' = true
          /\ upError app' = ""
          /\ ~ sameIgnoringCase (upAddress app') (savedSourceAddress app)
          /\ (exists request rest,
                lukso win = Some request
                /\ fst (request w accountsRequest)
                   = Ok (Some (upAddress app' :: rest)))
          /\ (step app <> 1 -> savedSourceAddress app <> "" ->
              forall acct, isSameAddress acct app' = false))).
Proof.
  cbv zeta. unfold handleConnectUPExtension.
  destruct (lukso win) as [request|] eqn:Hl.
  2:{ destruct app; cbn. do 5 (split; [reflexivity|]).
      split; [now left|]. split; [now split|]. left. now split. }
  destruct (request w accountsRequest) as [[accounts|e] w1] eqn:Hreq.
  2:{ destruct app; cbn. do 5 (split; [reflexivity|]).
      split; [now right|]. split; [split; discriminate|]. left. now split. }
  destruct accounts as [[|upAddr rest]|].
  1,3: destruct app; cbn; do 5 (split; [reflexivity|]);
       (split; [now right|]); (split; [split; discriminate|]);
       left; now split.
  destruct (String.eqb (toLowerCase upAddr)
                       (toLowerCase (savedSourceAddress app))) eqn:Hsame.
  { destruct app; cbn. do 5 (split; [reflexivity|]).
    split; [now right|]. split; [split; discriminate|]. left. now split. }
  assert (Hdiff : ~ sameIgnoringCase upAddr (savedSourceAddress app)).
  { intros H. apply toLowerCase_eq_iff in H. apply String.eqb_neq in Hsame.
    contradiction. }
  destruct app as [st saved sp ua uc ug ast sc se ts it sn ue].
  cbn in Hsame, Hdiff |- *. do 5 (split; [reflexivity|]).
  split; [now right|]. split; [split; discriminate|]. right.
  do 2 (split; [reflexivity|]). split; [exact Hdiff|]. split.
  - exists request, rest. split; [reflexivity|]. now rewrite Hreq.
  - intros Hst Hsaved acct. unfold isSameAddress, sourceAddress.
    cbn [step savedSourceAddress upAddress].
    apply Nat.eqb_neq in Hst. rewrite Hst. unfold orOpt, truthy.
    rewrite (eqb_empty_false _ Hsaved). cbn [negb].
    rewrite (eqb_empty_false _ Hsaved). rewrite Hsame.
    now destruct (negb (String.eqb upAddr "")).
Qed.

(** ** Session: the source wallet *)

Lemma pinned_source (app : AppState) (p : EthereumProvider) (a : string) :
  sourceProvider app = Some p -> savedSourceAddress app = a -> a <> "" ->
  step app <> 1 ->
  forall later : Account,
    sourceAddress later app = Some a
    /\ resolveProvider later app = (Some p, app).
Proof.
  intros Hp Ha Hne Hst later. unfold sourceAddress, resolveProvider.
  apply Nat.eqb_neq in Hst. rewrite Hst, Hp, Ha. unfold orOpt, truthy.
  now rewrite (eqb_empty_false _ Hne).
Qed.

Lemma continueToStep2_pins (acct : Account) (app : AppState)
    (a : string) (p : EthereumProvider) :
  liveAddress acct = Some a -> a <> "" ->
  fst (resolveProvider acct app) = Some p ->
  let pinned := continueToStep2 acct app in
  step pinned = 2 /\ savedSourceAddress pinned = a
  /\ sourceProvider pinned = Some p
  /\ assets pinned = assets app /\ upAddress pinned = upAddress app
  /\ transferStatuses pinned = transferStatuses app.
Proof.
  intros Hlive Hne Hp. unfold continueToStep2, resolveProvider in *.
  rewrite Hlive. cbn [orElse]. rewrite (eqb_empty_false _ Hne).
  destruct (sourceProvider app) as [p0|] eqn:Hsp.
  - cbn [fst] in Hp. injection Hp as ->. destruct app; cbn in *.
    now repeat split.
  - destruct (connector acct) as [c|]; [|discriminate].
    destruct (getProvider c) as [q|e]; [|discriminate].
    cbn [fst] in Hp. subst q. destruct app; cbn. now repeat split.
Qed.

Section SessionToEngine.

Variable BigInt : string -> Result Z.
Variable parseUnits : string -> Z -> option Z.
Variable encodeError :
  AbiFunction -> string -> list AbiValue -> option JsError.
Variable World : Type.
Variable request :
  World -> EthereumProvider -> RpcRequest -> Result string * World.

Lemma requests_from_source acct app (w : World) x :
  In x (snd (handleTransferAll BigInt parseUnits encodeError request acct app w)) ->
  exists provider source,
    fst (resolveProvider acct app) = Some provider
    /\ sourceAddress acct app = Some source
    /\ ex_provider x = provider
    /\ requestSender (ex_request x) = Some source
    /\ method (ex_request x) = "eth_sendTransaction".
Proof.
  intros Hx.
  destruct (handleTransferAll_cases BigInt parseUnits encodeError World request acct app w)
    as [Hnoop | [provider [source [Hinv Hsel]]]].
  { rewrite Hnoop in Hx. destruct Hx. }
  destruct (handleTransferAll_trace BigInt parseUnits encodeError World request acct app w
              provider source Hinv Hsel) as [_ Hfor].
  rewrite Forall_forall in Hfor. destruct (Hfor x Hx) as [b [_ [Hprov Hreq]]].
  destruct Hinv as [Hp [Hs _]]. exists provider, source.
  do 3 (split; [assumption|]).
  destruct (type b).
  - destruct Hreq as [n [held [_ [_ [_ ->]]]]]. now split.
  - destruct Hreq as [id [_ ->]]. now split.
Qed.

(** X20: "Continue to Step 2" pins the source.  With a live address and a
    provider that can be resolved, the click snapshots the address, pins
    the provider and goes to step 2, with the ledger and the destination as
    they were; from then on, whatever the wallet library reports as the
    account (another address, another connector, none), the source address
    is the snapshot, the provider is the pinned one, and every request of a
    transfer run is an [eth_sendTransaction] from the snapshot through the
    pinned provider. *)
Theorem continue_pins_the_source (acct : Account) (app : AppState)
    (a : string) (p : EthereumProvider) :
  liveAddress acct = Some a -> a <> "" ->
  fst (resolveProvider acct app) = Some p ->
  let pinned := continueToStep2 acct app in
  step pinned = 2
  /\ savedSourceAddress pinned = a
  /\ sourceProvider pinned = Some p
  /\ assets pinned = assets app
  /\ upAddress pinned = upAddress app
  /\ forall later : Account,
       sourceAddress later pinned = Some a
       /\ fst (resolveProvider later pinned) = Some p
       /\ forall (w : World) x,
            In x (snd (handleTransferAll BigInt parseUnits encodeError request
                         later pinned w)) ->
            ex_provider x = p
            /\ requestSender (ex_request x) = Some a
            /\ method (ex_request x) = "eth_sendTransaction".
Proof.
  intros Hlive Hne Hp pinned.
  destruct (continueToStep2_pins acct app a p Hlive Hne Hp)
    as [Hst [Hsaved [Hprov [Hassets [Hup _]]]]].
  fold pinned in Hst, Hsaved, Hprov, Hassets, Hup.
  do 5 (split; [assumption|]). intros later.
  assert (Hstep : step pinned <> 1) by (rewrite Hst; discriminate).
  destruct (pinned_source pinned p a Hprov Hsaved Hne Hstep later)
    as [Hsrc Hres].
  split; [exact Hsrc|]. split; [now rewrite Hres|].
  intros w x Hx.
  destruct (requests_from_source later pinned w x Hx)
    as [provider [source [Hp' [Hs' [Hxp [Hxs Hxm]]]]]].
  rewrite Hres in Hp'. cbn [fst] in Hp'. rewrite Hsrc in Hs'.
  injection Hp' as <-. injection Hs' as <-. now repeat split.
Qed.

(** X21: [handleDisconnectSource] drops the snapshot and the pinned
    provider and leaves every other cell of the page as it was; afterwards
    the source address is whatever the wallet library reports, and once
    that reports no address or no connector, a transfer run sends nothing
    and leaves the world as it was. *)
Theorem disconnect_source_unpins (app : AppState) :
  let app' := handleDisconnectSource app in
  sourceProvider app' = None
  /\ savedSourceAddress app' = ""
  /\ step app' = step app
  /\ upAddress app' = upAddress app
  /\ upConnected app' = upConnected app
  /\ upConnecting app' = upConnecting app
  /\ assets app' = assets app
  /\ scanning app' = scanning app
  /\ scanError app' = scanError app
  /\ transferStatuses app' = transferStatuses app
  /\ isTransferring app' = isTransferring app
  /\ switchingNetwork app' = switchingNetwork app
  /\ upError app' = upError app
  /\ (forall acct, sourceAddress acct app' = liveAddress acct)
  /\ (forall acct (w : World),
        liveAddress acct = None \/ connector acct = None ->
        let out :=
          handleTransferAll BigInt parseUnits encodeError request acct app' w in
        snd out = [] /\ snd (fst out) = w
        /\ (connector acct = None -> fst (fst out) = app')).
Proof.
  cbv zeta. unfold handleDisconnectSource.
  destruct app as [st saved sp ua uc ug ast sc se ts it sn ue]. cbn.
  do 13 (split; [reflexivity|]).
  assert (Hsrc : forall acct,
            sourceAddress acct
              (Build_AppState st "" None ua uc ug ast sc se ts it sn ue)
            = liveAddress acct).
  { intros acct. unfold sourceAddress. cbn [step savedSourceAddress].
    now destruct (st =? 1). }
  split; [exact Hsrc|].
  intros acct w H. unfold handleTransferAll. rewrite Hsrc.
  unfold resolveProvider. cbn [sourceProvider].
  destruct (connector acct) as [c|] eqn:Hc.
  - destruct H as [Hl | Hn]; [|discriminate]. rewrite Hl.
    destruct (getProvider c) as [[q|]|e]; cbn [fst snd];
      (split; [reflexivity|]); (split; [reflexivity|]); discriminate.
  - cbn [fst snd]. now repeat split.
Qed.

End SessionToEngine.

(** X20 at the page as it opens with MetaMask connected: after the click,
    an account that moved to another address and connector still gives the
    snapshot and the pinned provider. *)
Lemma continue_pins_the_source_witness :
  sourceAddress movedAccount (continueToStep2 metamaskAccount freshSession)
  = Some "0xabcdef0123"
  /\ fst (resolveProvider movedAccount
            (continueToStep2 metamaskAccount freshSession)) = Some 1.
Proof.
  assert (Hne : "0xabcdef0123" <> "") by discriminate.
  destruct (continue_pins_the_source sampleBigInt sampleParseUnits sampleEncodeError nat
              walletRequest metamaskAccount freshSession "0xabcdef0123" 1
              eq_refl Hne eq_refl) as [_ [_ [_ [_ [_ Hlater]]]]].
  destruct (Hlater movedAccount) as [Hs [Hp _]]. now split.
Defined.

Lemma handleDisconnectUP_fields (app : AppState) :
  let app' := handleDisconnectUP app in
  upAddress app' = "" /\ upConnected app' = false
  /\ step app' = step app
  /\ savedSourceAddress app' = savedSourceAddress app
  /\ sourceProvider app' = sourceProvider app
  /\ upConnecting app' = upConnecting app
  /\ assets app' = assets app
  /\ scanning app' = scanning app
  /\ scanError app' = scanError app
  /\ transferStatuses app' = transferStatuses app
  /\ isTransferring app' = isTransferring app
  /\ switchingNetwork app' = switchingNetwork app
  /\ upError app' = upError app.
Proof. destruct app. cbn. now repeat split. Qed.

(** X22: [handleDisconnectUP] clears the destination address and the
    connected flag and leaves every other cell of the page as it was; and
    without a destination neither button does anything: the same-address
    check is off, a scan sends no query and changes nothing, a transfer run
    sends no request and leaves the world and the status records as they
    were. *)
Theorem disconnect_up_blocks_scan_and_transfer
    (BigInt : string -> Result Z) (formatUnits : Z -> Z -> string)
    (parseUnits : string -> Z -> option Z)
    (encodeError : AbiFunction -> string -> list AbiValue -> option JsError)
    (World : Type)
    (request : World -> EthereumProvider -> RpcRequest
               -> Result string * World)
    (app : AppState) :
  let app' := handleDisconnectUP app in
  upAddress app' = "" /\ upConnected app' = false
  /\ step app' = step app
  /\ savedSourceAddress app' = savedSourceAddress app
  /\ sourceProvider app' = sourceProvider app
  /\ upConnecting app' = upConnecting app
  /\ assets app' = assets app
  /\ scanning app' = scanning app
  /\ scanError app' = scanError app
  /\ transferStatuses app' = transferStatuses app
  /\ isTransferring app' = isTransferring app
  /\ switchingNetwork app' = switchingNetwork app
  /\ upError app' = upError app
  /\ (forall acct, isSameAddress acct app' = false)
  /\ (forall ix acct,
        handleFindAssets BigInt formatUnits ix acct app' = (app', []))
  /\ (forall acct (w : World),
        let out :=
          handleTransferAll BigInt parseUnits encodeError request acct app' w in
        snd out = [] /\ snd (fst out) = w
        /\ transferStatuses (fst (fst out)) = transferStatuses app).
Proof.
  intros app'.
  pose proof (handleDisconnectUP_fields app) as Hfields.
  cbv zeta in Hfields. fold app' in Hfields.
  destruct Hfields as [Hup [Hconn [Hstep [Hsaved [Hprov [Hug [Hassets [Hsc
                        [Hse [Hts [Hit [Hsn Hue]]]]]]]]]]]].
  do 13 (split; [assumption|]). split; [|split].
  - intros acct. unfold isSameAddress. rewrite Hup.
    now destruct (sourceAddress acct app').
  - intros ix acct. unfold handleFindAssets. rewrite Hup.
    destruct (sourceAddress acct app') as [source|]; [|reflexivity].
    now rewrite orb_true_r.
  - intros acct w out. subst out.
    destruct (handleTransferAll_cases BigInt parseUnits encodeError World
                request acct app' w)
      as [Hnoop | [provider [source [[_ [_ [_ H]]] _]]]];
      [|contradiction].
    rewrite Hnoop. cbn [fst snd]. do 2 (split; [reflexivity|]).
    destruct (resolveProvider_keeps acct app') as [H _].
    cbv zeta in H. now rewrite H.
Qed.

(** ** Provider Registry: the wallets offered at step 1 *)

(** X23: the wallet list of step 1 and the check on the connected wallet
    agree.  A click on a wallet pins its provider and hands its rdns, name
    and provider to the connector; once the account is connected through
    that connector, it counts as a Universal Profile exactly when the
    wallet is not one of [legacyWallets], so at step 1 on LUKSO "Continue"
    is offered exactly for the wallets of that list. *)
Theorem offered_wallets_are_the_ones_that_continue
    (allProviders : list EIP6963ProviderDetail)
    (wallet : EIP6963ProviderDetail) (app : AppState) (acct : Account)
    (c : Connector) :
  In wallet allProviders ->
  connector acct = Some c ->
  connector_id c = target_id (snd (handleConnectWallet wallet app)) ->
  connector_name c = Some (target_name (snd (handleConnectWallet wallet app))) ->
  isSourceConnected acct = true ->
  let app' := fst (handleConnectWallet wallet app) in
  sourceProvider app' = Some (provider wallet)
  /\ target_provider (snd (handleConnectWallet wallet app)) = provider wallet
  /\ (isSourceUP acct = false <-> In wallet (legacyWallets allProviders))
  /\ (step app = 1 -> isOnLukso acct = true ->
      (continueOffered acct app' = true
       <-> In wallet (legacyWallets allProviders))).
Proof.
  intros Hin Hc Hid Hname Hconn app'. cbn [handleConnectWallet snd target_id
    target_name] in Hid, Hname.
  assert (Hup : isSourceUP acct
                = isUPWallet (rdns (info wallet))
                  || isUPWallet (info_name (info wallet))).
  { unfold isSourceUP. now rewrite Hconn, Hc, Hid, Hname. }
  assert (Hleg : In wallet (legacyWallets allProviders)
                 <-> isSourceUP acct = false).
  { unfold legacyWallets. rewrite filter_In, Hup.
    destruct (isUPWallet (rdns (info wallet))),
             (isUPWallet (info_name (info wallet))); cbn;
      (split; [intros [_ H]; first [discriminate | reflexivity]
              | intros H; first [discriminate | now split]]). }
  split; [subst app'; destruct app; reflexivity|].
  split; [reflexivity|]. split; [now symmetry|].
  intros Hst Hlukso. rewrite Hleg. unfold continueOffered.
  assert (Hst' : step app' = 1) by (subst app'; destruct app; exact Hst).
  rewrite Hst', Hconn, Hlukso. cbn [Nat.eqb andb].
  destruct (isSourceUP acct); cbn; split; congruence.
Qed.

Lemma offered_wallets_witness :
  isSourceUP metamaskAccount = false
  <-> In metamaskWallet (legacyWallets [metamaskWallet]).
Proof.
  assert (Hin : In metamaskWallet [metamaskWallet]) by (now left).
  exact (proj1 (proj2 (proj2
    (offered_wallets_are_the_ones_that_continue [metamaskWallet]
       metamaskWallet freshSession metamaskAccount
       {| connector_id := "io.metamask"; connector_name := Some "MetaMask";
          getProvider := Ok (Some 1) |}
       Hin eq_refl eq_refl eq_refl eq_refl)))).
Defined.

Lemma registry_extends (more : list AnnounceEvent) :
  forall prev, exists added,
    fold_left handleAnnouncement more prev = prev ++ added.
Proof.
  induction more as [|e more IH]; intros prev.
  - exists []. now rewrite app_nil_r.
  - cbn [fold_left]. unfold handleAnnouncement at 2.
    destruct (detail e) as [d|]; [|apply IH].
    destruct (String.eqb (uuid (info d)) ""); [apply IH|].
    destruct (existsb _ prev); [apply IH|].
    destruct (IH (prev ++ [d])) as [added Hadded].
    exists (d :: added). now rewrite Hadded, <- app_assoc.
Qed.

Lemma registry_known (more : list AnnounceEvent) :
  forall prev,
    (forall u, In u (nonEmptyUuids more) -> In u (map uuidOf prev)) ->
    fold_left handleAnnouncement more prev = prev.
Proof.
  induction more as [|e more IH]; intros prev Hknown; [reflexivity|].
  cbn [fold_left]. rewrite nonEmptyUuids_cons in Hknown.
  assert (Hstep : handleAnnouncement prev e = prev).
  { unfold handleAnnouncement. destruct (detail e) as [d|]; [|reflexivity].
    fold (uuidOf d) in *.
    destruct (String.eqb (uuidOf d) "") eqn:Hblank; [reflexivity|].
    assert (Hin : In (uuidOf d) (map uuidOf prev))
      by (apply Hknown; now left).
    apply existsb_uuid in Hin. unfold uuidOf in *. now rewrite Hin. }
  rewrite Hstep. apply IH. intros u Hu. apply Hknown.
  destruct (detail e) as [d|]; [|assumption].
  destruct (String.eqb (uuidOf d) ""); [assumption | now right].
Qed.

(** X24: the registry only grows, at its end: further announcements leave
    the providers recorded so far in place and in order, and so does the
    list of wallets offered; announcements that carry no new uuid change
    nothing, in particular when every wallet announces itself again. *)
Theorem registry_only_grows (events more : list AnnounceEvent) :
  (exists added,
      useEIP6963Providers (events ++ more)
      = useEIP6963Providers events ++ added
      /\ legacyWallets (useEIP6963Providers (events ++ more))
         = legacyWallets (useEIP6963Providers events) ++ legacyWallets added)
  /\ ((forall u, In u (nonEmptyUuids more) -> In u (nonEmptyUuids events)) ->
      useEIP6963Providers (events ++ more) = useEIP6963Providers events)
  /\ useEIP6963Providers (events ++ events) = useEIP6963Providers events.
Proof.
  unfold useEIP6963Providers.
  assert (Hsame : forall more',
             (forall u, In u (nonEmptyUuids more') ->
                        In u (nonEmptyUuids events)) ->
             fold_left handleAnnouncement (events ++ more') []
             = fold_left handleAnnouncement events []).
  { intros more' Hknown. rewrite fold_left_app. apply registry_known.
    intros u Hu.
    destruct (registry_fold events [] (NoDup_nil _)) as [_ Hiff].
    apply Hiff. right. now apply Hknown. }
  split; [|split].
  - rewrite fold_left_app.
    destruct (registry_extends more (fold_left handleAnnouncement events []))
      as [added Hadded].
    exists added. rewrite Hadded. split; [reflexivity|].
    unfold legacyWallets. apply filter_app.
  - apply Hsame.
  - apply Hsame. now intros u Hu.
Qed.

(** ** The buttons and their handlers *)

Section Buttons.

Variable BigInt : string -> Result Z.
Variable formatUnits : Z -> Z -> string.
Variable parseUnits : string -> Z -> option Z.
Variable encodeError :
  AbiFunction -> string -> list AbiValue -> option JsError.
Variable World : Type.
Variable request :
  World -> EthereumProvider -> RpcRequest -> Result string * World.

(** X25: the buttons are disabled where their handlers would do nothing,
    and enabled where they act.  A Transfer button that is disabled outside
    a run means a click would send no request; an enabled one, once the
    precondition check passes, starts a run with at least one record.  An
    enabled "Find assets" button with a source address sends the two
    queries for that address; without a destination, or with the source as
    destination, the handler sends none. *)
Theorem buttons_agree_with_handlers (acct : Account) (app : AppState) :
  (forall w : World,
      transferDisabled app = true -> isTransferring app = false ->
      let out := handleTransferAll BigInt parseUnits encodeError request acct app w in
      snd out = [] /\ snd (fst out) = w)
  /\ (forall (w : World) provider source,
        transferDisabled app = false ->
        Invokes acct app provider source ->
        let app' :=
          fst (fst (handleTransferAll BigInt parseUnits encodeError request acct app w)) in
        transferStatuses app' <> []
        /\ map ts_address (transferStatuses app')
           = map address (filter selected (assets app))
        /\ isTransferring app' = false)
  /\ (forall ix source,
        findDisabled acct app = false ->
        sourceAddress acct app = Some source -> source <> "" ->
        snd (handleFindAssets BigInt formatUnits ix acct app)
        = [holdQuery (toLowerCase source) "LSP7DigitalAsset";
           holdQuery (toLowerCase source) "LSP8IdentifiableDigitalAsset"])
  /\ (forall ix,
        upAddress app = "" \/ isSameAddress acct app = true ->
        snd (handleFindAssets BigInt formatUnits ix acct app) = []).
Proof.
  split; [|split; [|split]].
  - intros w Hdis Htr out. subst out. unfold transferDisabled in Hdis.
    rewrite Htr, orb_false_r in Hdis.
    assert (Hsel : filter selected (assets app) = []).
    { apply orb_true_iff in Hdis as [H | H]; apply Nat.eqb_eq in H.
      - now apply selectedCount_zero.
      - destruct (assets app); [reflexivity | discriminate]. }
    destruct (handleTransferAll_cases BigInt parseUnits encodeError World request acct
                app w) as [Hnoop | [provider [source [_ H]]]];
      [|contradiction].
    rewrite Hnoop. now split.
  - intros w provider source Hen Hinv app'. subst app'.
    unfold transferDisabled in Hen.
    apply orb_false_iff in Hen as [Hen _].
    apply orb_false_iff in Hen as [Hcount _]. apply Nat.eqb_neq in Hcount.
    assert (Hsel : filter selected (assets app) <> []).
    { intros H. apply Hcount. unfold selectedCount. now rewrite H. }
    destruct (handleTransferAll_run BigInt parseUnits encodeError World request acct app w
                provider source Hinv Hsel) as [Hfinal [_ [_ Hflag]]].
    destruct (final_statuses_facts BigInt parseUnits encodeError World request acct app w
                provider source Hinv Hsel) as [Haddr _].
    cbv zeta in Hfinal, Haddr. split; [|split; assumption].
    intros Hnil. rewrite Hnil in Haddr. cbn [map] in Haddr.
    destruct (filter selected (assets app)); [congruence | discriminate].
  - intros ix source Hen Hs Hne. unfold findDisabled in Hen.
    apply orb_false_iff in Hen as [Hen Hsame].
    apply orb_false_iff in Hen as [Hup _].
    unfold handleFindAssets. rewrite Hs, (eqb_empty_false _ Hne), Hup, Hsame.
    cbn [orb].
    destruct (fetchTokensForAddress BigInt formatUnits ix source)
      as [res queries] eqn:Hfetch.
    unfold fetchTokensForAddress in Hfetch. injection Hfetch as _ <-.
    now destruct res.
  - intros ix H. unfold handleFindAssets.
    destruct (sourceAddress acct app) as [source|] eqn:Hs; [|reflexivity].
    destruct H as [Hup | Hsame].
    + rewrite Hup. now rewrite orb_true_r.
    + rewrite Hsame. now destruct (String.eqb source "" || _).
Qed.

End Buttons.
